(** * Monkey Stars: ledger, referral bonuses, withdrawal gate and game engine

    A shallow embedding of [config.py], [database.py], [games.py] and the
    balance-affecting handlers of [bot.py].

    Modelling conventions.
    - Amounts are Python floats in the source; they are exact rationals
      ([Q]) here, so statements about amounts are statements about the
      arithmetic the code asks for, not about binary rounding.
    - The Supabase tables are finite maps or lists held in a [db] record.
    - Every [.execute()] of the source is one storage call.  A storage
      call either works or raises; which one is decided by a list of
      fault flags carried in the [world] ([true] = this call raises, an
      exhausted list = every further call works).  The [try/except] of
      each [Database] method is [try_].
    - Python's [random] module is an explicit source of draws.
    - [datetime.now()] is the [now] argument of a handler.
    - Message texts are not modelled; a handler answers with a [reply]
      tag saying which message it sends. *)

From Stdlib Require Import ZArith QArith Qround Lia Lqa List.
From stdpp Require Import base option list gmap strings pretty.
Import ListNotations.

Local Open Scope Z_scope.

(** ** config.py *)

Module Config.
Definition ADMIN_ID : Z := 7973988177.

Definition CLICK_REWARD : Q := 2 # 10.
Definition CLICK_COOLDOWN : Z := 3600.
Definition REFERRAL_REWARD_REFERRER : Q := 3 # 1.
Definition REFERRAL_REWARD_REFEREE : Q := 2 # 1.
Definition CLICK_REFERRAL_PERCENT : Q := 10 # 1.

Definition WITHDRAWAL_AMOUNTS : list Z := [15; 25; 50; 100].

(** [GAMES['flip']] *)
Definition flip_win_chance : Q := 49 # 100.
Definition flip_multiplier : Q := 2 # 1.
Definition flip_special_event_chance : Q := 15 # 1000.

(** [GAMES['crash']] *)
Definition crash_instant_crash_chance : Q := 6 # 10.
Definition crash_low_multiplier_range : Q * Q := (1 # 1, 11 # 10)%Q.
Definition crash_high_multiplier_chance : Q := 2 # 100.
Definition crash_min_high_multiplier : Q := 15 # 10.

(** [GAMES['slot']] *)
Definition slot_win_multiplier : Q := 20 # 1.

(** [GAMES['dice']] *)
Definition dice_multiplier : Q := 3 # 1.

(** [GAMES['jackpot']] *)
Definition jackpot_ticket_price : Q := 1 # 1.
Definition jackpot_win_chance : Q := 1 # 100.
Definition jackpot_multiplier : Q := 100 # 1.

(** [MIN_BETS] *)
Definition MIN_BETS_flip : Q := 1 # 1.
Definition MIN_BETS_dice : Q := 1 # 1.
End Config.

(** ** Rows of the four tables *)

Record user_row := UserRow {
  user_id : Z;
  username : string;
  referrer_id : option Z;
  created_at : Z;
  balance : Q;
  last_click : option Z;
  total_wagered : Q;
  games_played : Z;
  games_won : Z
}.

(** The [type] column of [transactions]. *)
Inductive tx_type :=
| click | game_win | game_lose | referral_bonus | referral_income | withdrawal.

Inductive game_name := Flip | Crash | Slot | Dice | Jackpot.

(** The [description] column: which text was written and the values that
    were formatted into it. *)
Inductive tx_description :=
| DescInvited (invitee : string)
| DescRegisteredByLink
| DescClicker
| DescClickShare (u : Z)
| DescGameWin (g : game_name) (multiplier : Q)
| DescGameLose (g : game_name)
| DescTicketsBought (tickets : Z)
| DescJackpotWin (total : Q)
| DescWithdrawal (wid : Z).

Record transaction_row := TxRow {
  tx_user_id : Z;
  tx_amount : Q;
  tx_kind : tx_type;
  tx_descr : tx_description;
  tx_created_at : Z
}.

Inductive withdrawal_status := pending | approved | rejected.

Record withdrawal_row := WdRow {
  wd_id : Z;
  wd_user_id : Z;
  wd_amount : Q;
  wd_status : withdrawal_status;
  wd_created_at : Z
}.

(** A [sponsors] row; only its id is read by the code modelled here. *)
Record sponsor_row := SponsorRow { sponsor_id : Z; channel_username : string }.

Record user_sponsor_row := SubRow { is_subscribed : bool; last_check : Z }.

(** The database: [users] is keyed by [user_id] (the upsert conflict
    target), [user_sponsors] by [(user_id, sponsor_id)]; [transactions]
    and [withdrawals] only ever grow at the end. *)
Record db := Db {
  users : gmap Z user_row;
  transactions : list transaction_row;
  sponsors : list sponsor_row;
  user_sponsors : gmap (Z * Z) user_sponsor_row;
  withdrawals : list withdrawal_row
}.

Definition empty_db : db := Db ∅ [] [] ∅ [].

Definition set_users (f : gmap Z user_row → gmap Z user_row) (s : db) : db :=
  Db (f (users s)) (transactions s) (sponsors s) (user_sponsors s) (withdrawals s).
Definition set_transactions (f : list transaction_row → list transaction_row) (s : db) : db :=
  Db (users s) (f (transactions s)) (sponsors s) (user_sponsors s) (withdrawals s).
Definition set_user_sponsors
    (f : gmap (Z * Z) user_sponsor_row → gmap (Z * Z) user_sponsor_row) (s : db) : db :=
  Db (users s) (transactions s) (sponsors s) (f (user_sponsors s)) (withdrawals s).
Definition set_withdrawals (f : list withdrawal_row → list withdrawal_row) (s : db) : db :=
  Db (users s) (transactions s) (sponsors s) (user_sponsors s) (f (withdrawals s)).

Definition with_balance (b : Q) (u : user_row) : user_row :=
  UserRow (user_id u) (username u) (referrer_id u) (created_at u) b
          (last_click u) (total_wagered u) (games_played u) (games_won u).
Definition with_last_click (t : Z) (u : user_row) : user_row :=
  UserRow (user_id u) (username u) (referrer_id u) (created_at u) (balance u)
          (Some t) (total_wagered u) (games_played u) (games_won u).
Definition with_stats (w : Q) (p : Z) (won : option Z) (u : user_row) : user_row :=
  UserRow (user_id u) (username u) (referrer_id u) (created_at u) (balance u)
          (last_click u) w p (default (games_won u) won).

(** ** The random source

    [random.random()] reads the next float draw, [random.choice] and
    [random.randint] read the next index draw (reduced below the number
    of alternatives); every call moves the cursor by one. *)
Record rng := Rng {
  rnd_float : nat → Q;
  rnd_index : nat → nat;
  cursor : nat
}.

Definition Rand (A : Type) := rng → A * rng.

Definition rret {A} (a : A) : Rand A := fun g => (a, g).
Definition rbind {A B} (m : Rand A) (k : A → Rand B) : Rand B :=
  fun g => let (a, g') := m g in k a g'.

Definition advance (g : rng) : rng := Rng (rnd_float g) (rnd_index g) (S (cursor g)).

Definition random : Rand Q := fun g => (rnd_float g (cursor g), advance g).
Definition randbelow (n : nat) : Rand nat :=
  fun g => ((rnd_index g (cursor g) mod n)%nat, advance g).

Notation "'draw' x ':=' m 'in' k" := (rbind m (fun x => k))
  (at level 10, x name, m at level 100, k at level 200, only parsing).

Definition uniform (a b : Q) : Rand Q :=
  draw r := random in rret (a + (b - a) * r)%Q.

(** ** The world and the handler monad *)

Record world := World {
  store : db;
  faults : list bool;
  rand : rng
}.

(** A computation returns [None] when a Python exception propagates out
    of it; the world it leaves behind is kept either way. *)
Definition M (A : Type) := world → option A * world.

Definition ret {A} (a : A) : M A := fun w => (Some a, w).
Definition raise {A} : M A := fun w => (None, w).
Definition bind {A B} (m : M A) (k : A → M B) : M B :=
  fun w => match m w with
           | (Some a, w') => k a w'
           | (None, w') => (None, w')
           end.
(** [try: m except Exception: return d] *)
Definition try_ {A} (m : M A) (d : A) : M A :=
  fun w => match m w with
           | (Some a, w') => (Some a, w')
           | (None, w') => (Some d, w')
           end.

Notation "'let!' x ':=' m 'in' k" := (bind m (fun x => k))
  (at level 10, x name, m at level 100, k at level 200, only parsing).
Notation "'do!' m 'in' k" := (bind m (fun _ => k))
  (at level 10, m at level 100, k at level 200, only parsing).

(** One [.execute()]: consult the next fault flag, then run the query. *)
Definition execute {A} (q : db → A * db) : M A :=
  fun w =>
    match faults w with
    | true :: fs => (None, World (store w) fs (rand w))
    | false :: fs => let (a, s') := q (store w) in (Some a, World s' fs (rand w))
    | [] => let (a, s') := q (store w) in (Some a, World s' [] (rand w))
    end.

Definition lift_rand {A} (m : Rand A) : M A :=
  fun w => let (a, g') := m (rand w) in (Some a, World (store w) (faults w) g').

(** Python truthiness of an optional integer: [None] and [0] are false. *)
Definition truthy (o : option Z) : bool :=
  match o with
  | Some z => negb (z =? 0)
  | None => false
  end.

Definition nonempty {A} (l : list A) : bool :=
  match l with [] => false | _ => true end.

Definition Qltb (a b : Q) : bool := negb (Qle_bool b a).

(** ** database.py *)

(** [select * from users where user_id = uid] *)
Definition q_select_user (uid : Z) (s : db) : list user_row * db :=
  (option_list (users s !! uid), s).

Definition get_user (uid : Z) : M (option user_row) :=
  try_ (let! data := execute (q_select_user uid) in ret (head data)) None.

(** [update users set ... where user_id = uid], returning the rows hit. *)
Definition q_update_user (uid : Z) (f : user_row → user_row) (s : db)
  : list user_row * db :=
  match users s !! uid with
  | Some u => ([f u], set_users (insert uid (f u)) s)
  | None => ([], s)
  end.

Definition update_balance (uid : Z) (amount : Q) : M bool :=
  try_ (let! user := get_user uid in
        match user with
        | None => ret false
        | Some u =>
            let new_balance := (balance u + amount)%Q in
            let! data := execute (q_update_user uid (with_balance new_balance)) in
            ret (nonempty data)
        end) false.

Definition update_last_click (uid : Z) (timestamp : Z) : M bool :=
  try_ (let! data := execute (q_update_user uid (with_last_click timestamp)) in
        ret (nonempty data)) false.

Definition update_game_stats (uid : Z) (wagered : Q) (won : bool) : M bool :=
  try_ (let! user := get_user uid in
        match user with
        | None => ret false
        | Some u =>
            let w := (total_wagered u + wagered)%Q in
            let p := games_played u + 1 in
            let g := if won then Some (games_won u + 1) else None in
            let! data := execute (q_update_user uid (with_stats w p g)) in
            ret (nonempty data)
        end) false.

Definition q_insert_transaction (t : transaction_row) (s : db)
  : list transaction_row * db :=
  ([t], set_transactions (fun l => l ++ [t]) s).

Definition add_transaction (now : Z) (uid : Z) (amount : Q) (type : tx_type)
    (description : tx_description) : M bool :=
  try_ (let! data := execute (q_insert_transaction
                           (TxRow uid amount type description now)) in
        ret (nonempty data)) false.

(** [upsert(user_data, on_conflict="user_id")]: the row under that id is
    written whether or not one was there. *)
Definition q_upsert_user (u : user_row) (s : db) : list user_row * db :=
  ([u], set_users (insert (user_id u) u) s).

Definition default_username (uid : Z) (name : string) : string :=
  if String.eqb name "" then String.append "user_" (pretty uid) else name.

Definition create_user (now : Z) (uid : Z) (name : string) (referrer : option Z)
  : M bool :=
  try_ (let user_data :=
          UserRow uid (default_username uid name) referrer now 0 None 0 0 0 in
        let! data := execute (q_upsert_user user_data) in
        do! (if truthy referrer && nonempty data then
               let rid := default 0 referrer in
               let! r := get_user rid in
               match r with
               | Some _ =>
                   do! update_balance rid Config.REFERRAL_REWARD_REFERRER in
                   do! add_transaction now rid Config.REFERRAL_REWARD_REFERRER
                         referral_bonus (DescInvited name) in
                   do! update_balance uid Config.REFERRAL_REWARD_REFEREE in
                   do! add_transaction now uid Config.REFERRAL_REWARD_REFEREE
                         referral_bonus DescRegisteredByLink in
                   ret tt
               | None => ret tt
               end
             else ret tt) in
        ret (nonempty data)) false.

Definition q_select_sponsors (s : db) : list sponsor_row * db := (sponsors s, s).

Definition get_sponsors : M (list sponsor_row) :=
  try_ (execute q_select_sponsors) [].

(** [select sponsor_id, is_subscribed from user_sponsors where user_id = uid],
    already turned into the [subscribed_ids] lookup of the caller. *)
Definition q_select_subscriptions (uid : Z) (s : db) : (Z → bool) * db :=
  (fun sid => match user_sponsors s !! (uid, sid) with
              | Some r => is_subscribed r
              | None => false
              end, s).

Definition get_user_sponsors_status (uid : Z) : M (list (sponsor_row * bool)) :=
  try_ (let! sps := get_sponsors in
        if nonempty sps then
          let! subscribed_ids := execute (q_select_subscriptions uid) in
          ret (map (fun sp => (sp, subscribed_ids (sponsor_id sp))) sps)
        else ret []) [].

Definition q_upsert_subscription (uid sid : Z) (r : user_sponsor_row) (s : db)
  : list user_sponsor_row * db :=
  ([r], set_user_sponsors (insert (uid, sid) r) s).

Definition update_user_sponsor_status (now : Z) (uid sid : Z) (sub : bool) : M bool :=
  try_ (let! data := execute (q_upsert_subscription uid sid (SubRow sub now)) in
        ret (nonempty data)) false.

(** [select user_id from users where referrer_id = uid] *)
Definition q_select_referrals (uid : Z) (s : db) : list Z * db :=
  (map fst (filter (λ kv, referrer_id (snd kv) = Some uid)
                   (map_to_list (users s))), s).

(** The [for referral in response.data] loop counting active referrals. *)
Fixpoint count_active (refs : list Z) (active : nat) : M nat :=
  match refs with
  | [] => ret active
  | r :: rest =>
      let! referral_status := get_user_sponsors_status r in
      count_active rest
        (if existsb snd referral_status then S active else active)
  end.

Definition get_user_referrals (uid : Z) : M (nat * nat) :=
  try_ (let! data := execute (q_select_referrals uid) in
        let total := length data in
        let! active := count_active data 0%nat in
        ret (total, active)) (0%nat, 0%nat).

(** The [id] of a new withdrawal row is assigned by the storage; it is
    taken to be a serial number. *)
Definition q_insert_withdrawal (now : Z) (uid : Z) (amount : Q) (s : db)
  : list withdrawal_row * db :=
  let row := WdRow (Z.of_nat (length (withdrawals s)) + 1) uid amount pending now in
  ([row], set_withdrawals (fun l => l ++ [row]) s).

Definition create_withdrawal (now : Z) (uid : Z) (amount : Q)
  : M (option withdrawal_row) :=
  try_ (let! data := execute (q_insert_withdrawal now uid amount) in ret (head data)) None.

(** ** games.py *)

Inductive symbol :=
| Banana | Monkey | Star | Gem | Target | MoneyBag | SlotMachine | Clover.

#[global] Instance symbol_eq_dec : EqDecision symbol.
Proof. solve_decision. Defined.

(** Which [result_text] a round produced, with the values shown in it. *)
Inductive result_text :=
| FlipSpecial
| FlipWon (choice : string) (win_amount : Q)
| FlipLost (choice : string) (bet : Q)
| CrashInstant
| CrashHigh (multiplier : Q)
| CrashCashedOut (multiplier : Q)
| CrashCrashed (multiplier : Q)
| SlotJackpot (s : symbol) (win_amount : Q)
| SlotWon (s : symbol) (win_amount : Q)
| SlotMissed (r0 r1 r2 : symbol)
| DiceGuessed (dice_roll : Z) (win_amount : Q)
| DiceMissed (dice_roll : Z) (user_number : option Z) (bet : Q)
| JackpotHit (win_amount : Q)
| JackpotMissed
| TicketsWon (win_tickets : nat) (total_win : Q)
| TicketsLost.

Module GameEngine.

Definition play_flip (bet : Q) (choice : string) : Rand (bool * Q * result_text) :=
  draw special := random in
  if Qltb special Config.flip_special_event_chance then
    rret (false, 0%Q, FlipSpecial)
  else
    draw r := random in
    let win := Qltb r Config.flip_win_chance in
    if win then
      let win_amount := (bet * Config.flip_multiplier)%Q in
      rret (true, win_amount, FlipWon choice win_amount)
    else
      rret (false, 0%Q, FlipLost choice bet).

Definition play_crash (bet : Q) : Rand (bool * Q * result_text) :=
  draw r1 := random in
  if Qltb r1 Config.crash_instant_crash_chance then
    rret (false, 0%Q, CrashInstant)
  else
    draw r2 := random in
    if Qltb r2 Config.crash_high_multiplier_chance then
      draw multiplier := uniform Config.crash_min_high_multiplier (5 # 1) in
      rret (true, (bet * multiplier)%Q, CrashHigh multiplier)
    else
      draw multiplier := uniform (fst Config.crash_low_multiplier_range)
                                 (snd Config.crash_low_multiplier_range) in
      (* [multiplier > 1.0 and random.random() < 0.8]: the second draw
         is made only when the first test passes *)
      if Qltb 1 multiplier then
        draw r3 := random in
        if Qltb r3 (8 # 10) then
          rret (true, (bet * multiplier)%Q, CrashCashedOut multiplier)
        else rret (false, 0%Q, CrashCrashed multiplier)
      else rret (false, 0%Q, CrashCrashed multiplier).

Definition symbols : list symbol :=
  [Banana; Monkey; Star; Gem; Target; MoneyBag; SlotMachine; Clover].

Definition choice (l : list symbol) : Rand symbol :=
  draw i := randbelow (length l) in rret (nth i l Banana).

Definition play_slot (bet : Q) : Rand (bool * Q * result_text * list symbol) :=
  draw r0 := choice symbols in
  draw r1 := choice symbols in
  draw r2 := choice symbols in
  let reels := [r0; r1; r2] in
  if bool_decide (r0 = r1) && bool_decide (r1 = r2) then
    if bool_decide (r0 = Banana) then
      let win_amount := (bet * (50 # 1))%Q in
      rret (true, win_amount, SlotJackpot r0 win_amount, reels)
    else
      let win_amount := (bet * Config.slot_win_multiplier)%Q in
      rret (true, win_amount, SlotWon r0 win_amount, reels)
  else rret (false, 0%Q, SlotMissed r0 r1 r2, reels).

Definition randint (a b : Z) : Rand Z :=
  draw i := randbelow (Z.to_nat (b - a + 1)) in rret (a + Z.of_nat i).

(** [user_number] is whatever the conversation state holds, possibly
    nothing. *)
Definition play_dice (bet : Q) (user_number : option Z)
  : Rand (bool * Q * result_text) :=
  draw dice_roll := randint 1 6 in
  if bool_decide (user_number = Some dice_roll) then
    let win_amount := (bet * Config.dice_multiplier)%Q in
    rret (true, win_amount, DiceGuessed dice_roll win_amount)
  else rret (false, 0%Q, DiceMissed dice_roll user_number bet).

Definition play_jackpot (bet : Q) : Rand (bool * Q * result_text) :=
  draw r := random in
  if Qltb r Config.jackpot_win_chance then
    let win_amount := (bet * Config.jackpot_multiplier)%Q in
    rret (true, win_amount, JackpotHit win_amount)
  else rret (false, 0%Q, JackpotMissed).

End GameEngine.

(** ** bot.py *)

(** What a handler sends back. *)
Inductive reply :=
| SayTryStart                      (* "Ошибка, попробуйте /start" *)
| SaySubscribeFirst                (* "Сначала подпишитесь на спонсоров!" *)
| SayCooldown (remaining : Z)
| SayMinBet (min_bet : Q)
| SayNotEnough (balance : Q)       (* "Недостаточно STAR" *)
| SayEnterNumber                   (* "Введите число!" *)
| SayError                         (* "Произошла ошибка" *)
| SayAmountError                   (* "Ошибка суммы" *)
| SayNeedReferrals (active : nat)  (* "Нужно 3 активных реферала" *)
| SayWithdrawalFailed              (* "Ошибка при создании заявки" *)
| SayClicked (reward new_balance : Q)
| SayRound (g : game_name) (text : result_text) (new_balance : Q)
| SayJackpot (tickets : Z) (bet : Q) (text : result_text) (new_balance : Q)
| SayWithdrawn (amount : Q) (wid : Z)
| SayWithdrawMenu (buttons : list Z)
| SayMainMenu (balance : Q)
| SaySponsors (l : list sponsor_row)
| SayAccessOpen
| SayNothing.

(** The argument of [/start]: absent, not an integer, or an integer. *)
Inductive start_args := NoArgs | BadArgs | IntArgs (z : Z).

(** The data kept by the conversation state machine between messages. *)
Record fsm_data := FsmData {
  game_type : option game_name;
  flip_choice : option string;
  dice_number : option Z
}.

(** [user['balance']] on the result of [get_user]: a [TypeError] when the
    user is [None]. *)
Definition balance_of (user : option user_row) : M Q :=
  match user with
  | Some u => ret (balance u)
  | None => raise
  end.

Definition check_subscriptions (uid : Z) : M bool :=
  try_ (let! sponsors_status := get_user_sponsors_status uid in
        if nonempty sponsors_status then ret (forallb snd sponsors_status)
        else ret true) false.

Definition show_main_menu (uid : Z) : M reply :=
  let! user := get_user uid in
  ret (SayMainMenu (match user with Some u => balance u | None => 0%Q end)).

Definition show_sponsors_message (uid : Z) : M reply :=
  let! sps := get_sponsors in
  if nonempty sps then ret (SaySponsors sps) else show_main_menu uid.

Definition cmd_start (now : Z) (uid : Z) (name : string) (args : start_args)
  : M reply :=
  let referrer_id :=
    match args with
    | IntArgs r => if r =? uid then None else Some r
    | BadArgs | NoArgs => None
    end in
  do! create_user now uid name referrer_id in
  let! ok := check_subscriptions uid in
  if ok then show_main_menu uid else show_sponsors_message uid.

Fixpoint mark_subscribed (now : Z) (uid : Z) (sps : list sponsor_row) : M unit :=
  match sps with
  | [] => ret tt
  | sp :: rest =>
      do! update_user_sponsor_status now uid (sponsor_id sp) true in
      mark_subscribed now uid rest
  end.

(** The menu is shown for [callback.message], a message the bot itself
    sent, so [show_main_menu] looks up the author of that message. *)
Definition handle_check_subscriptions (now : Z) (uid : Z) (message_author : Z)
  : M reply :=
  let! sps := get_sponsors in
  do! mark_subscribed now uid sps in
  do! show_main_menu message_author in
  ret SayAccessOpen.

Definition handle_click (now : Z) (uid : Z) : M reply :=
  let! ok := check_subscriptions uid in
  if negb ok then ret SaySubscribeFirst else
  let! user := get_user uid in
  match user with
  | None => ret SayTryStart
  | Some u =>
      let current_time := now in
      let lc := default 0 (last_click u) in
      if truthy (last_click u) && (current_time - lc <? Config.CLICK_COOLDOWN)
      then ret (SayCooldown (Config.CLICK_COOLDOWN - (current_time - lc)))
      else
        let reward := Config.CLICK_REWARD in
        do! update_balance uid reward in
        do! update_last_click uid current_time in
        do! add_transaction now uid reward click DescClicker in
        do! (if truthy (referrer_id u) then
               let rid := default 0 (referrer_id u) in
               let referral_bonus_ :=
                 (reward * (Config.CLICK_REFERRAL_PERCENT / (100 # 1)))%Q in
               do! update_balance rid referral_bonus_ in
               do! add_transaction now rid referral_bonus_ referral_income
                     (DescClickShare uid) in
               ret tt
             else ret tt) in
        let! user' := get_user uid in
        let! b := balance_of user' in
        ret (SayClicked reward b)
  end.

(** The win/lose bookkeeping shared, line for line, by the flip, crash,
    slot and dice handlers.  [win_descr] is the f-string of the winning
    transaction; formatting it may raise. *)
Definition settle_round (now : Z) (uid : Z) (g : game_name) (bet : Q)
    (win : bool) (amount : Q) (win_descr : M tx_description) : M unit :=
  if win then
    do! update_balance uid (amount - bet)%Q in
    let! d := win_descr in
    do! add_transaction now uid (amount - bet)%Q game_win d in
    do! update_game_stats uid bet true in
    ret tt
  else
    do! update_balance uid (- bet)%Q in
    do! add_transaction now uid (- bet)%Q game_lose (DescGameLose g) in
    do! update_game_stats uid bet false in
    ret tt.

(** [f"... x{amount/bet:.2f}"]: a [ZeroDivisionError] when [bet] is zero. *)
Definition ratio_descr (g : game_name) (amount bet : Q) : M tx_description :=
  if Qeq_bool bet 0 then raise else ret (DescGameWin g (amount / bet)%Q).

Definition handle_bet_input (now : Z) (uid : Z) (data : fsm_data)
    (text : option Q) : M reply :=
  let! user := get_user uid in
  match user with
  | None => ret SayTryStart
  | Some u =>
      try_ (match text with
            | None => ret SayEnterNumber              (* ValueError *)
            | Some bet =>
                let min_bet := Config.MIN_BETS_flip in
                if Qltb bet min_bet then ret (SayMinBet min_bet) else
                if Qltb (balance u) bet then ret (SayNotEnough (balance u)) else
                match game_type data with
                | Some Flip =>
                    let! r_ := lift_rand (GameEngine.play_flip bet
                                            (default "" (flip_choice data))) in
                    let '(win, amount, result) := r_ in
                    do! settle_round now uid Flip bet win amount
                          (ret (DescGameWin Flip (2 # 1))) in
                    let! user' := get_user uid in
                    let! b := balance_of user' in
                    ret (SayRound Flip result b)
                | _ => ret SayNothing
                end
            end) SayError
  end.

Definition handle_crash_play (now : Z) (uid : Z) (data : option Q) : M reply :=
  let! user := get_user uid in
  match user with
  | None => ret SayTryStart
  | Some u =>
      try_ (match data with
            | None => raise
            | Some bet =>
                if Qltb (balance u) bet then ret (SayNotEnough (balance u)) else
                let! r_ := lift_rand (GameEngine.play_crash bet) in
                let '(win, amount, result) := r_ in
                do! settle_round now uid Crash bet win amount
                      (ratio_descr Crash amount bet) in
                let! user' := get_user uid in
                let! b := balance_of user' in
                ret (SayRound Crash result b)
            end) SayError
  end.

Definition handle_slot_play (now : Z) (uid : Z) (data : option Q) : M reply :=
  let! user := get_user uid in
  match user with
  | None => ret SayTryStart
  | Some u =>
      try_ (match data with
            | None => raise
            | Some bet =>
                if Qltb (balance u) bet then ret (SayNotEnough (balance u)) else
                let! r_ := lift_rand (GameEngine.play_slot bet) in
                let '(win, amount, result, reels) := r_ in
                do! settle_round now uid Slot bet win amount
                      (ratio_descr Slot amount bet) in
                let! user' := get_user uid in
                let! b := balance_of user' in
                ret (SayRound Slot result b)
            end) SayError
  end.

Definition handle_dice_bet (now : Z) (uid : Z) (data : fsm_data)
    (text : option Q) : M reply :=
  let! user := get_user uid in
  match user with
  | None => ret SayTryStart
  | Some u =>
      try_ (match text with
            | None => ret SayEnterNumber
            | Some bet =>
                let min_bet := Config.MIN_BETS_dice in
                if Qltb bet min_bet then ret (SayMinBet min_bet) else
                if Qltb (balance u) bet then ret (SayNotEnough (balance u)) else
                let! r_ := lift_rand (GameEngine.play_dice bet (dice_number data)) in
                let '(win, amount, result) := r_ in
                do! settle_round now uid Dice bet win amount
                      (ret (DescGameWin Dice (3 # 1))) in
                let! user' := get_user uid in
                let! b := balance_of user' in
                ret (SayRound Dice result b)
            end) SayError
  end.

(** [int(bet)]: truncation towards zero. *)
Definition int_of (q : Q) : Z := Z.quot (Qnum q) (Z.pos (Qden q)).

(** The [for i in range(tickets)] loop with its two accumulators. *)
Fixpoint draw_tickets (n : nat) (total_win : Q) (win_tickets : nat)
  : Rand (Q * nat) :=
  match n with
  | O => rret (total_win, win_tickets)
  | S n' =>
      draw r := GameEngine.play_jackpot (1 # 1) in
      let '(win, amount, _) := r in
      if win then draw_tickets n' (total_win + amount)%Q (S win_tickets)
      else draw_tickets n' total_win win_tickets
  end.

Definition handle_jackpot_play (now : Z) (uid : Z) (data : option Q) : M reply :=
  let! user := get_user uid in
  match user with
  | None => ret SayTryStart
  | Some u =>
      try_ (match data with
            | None => raise
            | Some bet =>
                let tickets := int_of bet in
                if Qltb (balance u) bet then ret (SayNotEnough (balance u)) else
                do! update_balance uid (- bet)%Q in
                do! add_transaction now uid (- bet)%Q game_lose
                      (DescTicketsBought tickets) in
                do! update_game_stats uid bet false in
                let! r_ := lift_rand (draw_tickets (Z.to_nat tickets) 0%Q 0%nat) in
                let '(total_win, win_tickets) := r_ in
                do! (if Qltb 0 total_win then
                       do! update_balance uid total_win in
                       do! add_transaction now uid total_win game_win
                             (DescJackpotWin total_win) in
                       do! update_game_stats uid 0%Q true in
                       ret tt
                     else ret tt) in
                let! user' := get_user uid in
                let! b := balance_of user' in
                let result :=
                  if (0 <? win_tickets)%nat then TicketsWon win_tickets total_win
                  else TicketsLost in
                ret (SayJackpot tickets bet result b)
            end) SayError
  end.

Definition handle_withdraw_menu (uid : Z) : M reply :=
  let! ok := check_subscriptions uid in
  if negb ok then ret SaySubscribeFirst
  else ret (SayWithdrawMenu Config.WITHDRAWAL_AMOUNTS).

(** [data] is [float(callback.data.split("_")[1])], [None] when that
    raises. *)
Definition handle_withdraw (now : Z) (uid : Z) (data : option Q) : M reply :=
  match data with
  | None => ret SayAmountError
  | Some amount =>
      let! user := get_user uid in
      match user with
      | None => ret SayTryStart
      | Some u =>
          if Qltb (balance u) amount then ret (SayNotEnough (balance u)) else
          let! r_ := get_user_referrals uid in
          let '(total_ref, active_ref) := r_ in
          if (active_ref <? 3)%nat then ret (SayNeedReferrals active_ref) else
          let! row := create_withdrawal now uid amount in
          match row with
          | None => ret SayWithdrawalFailed
          | Some w =>
              do! update_balance uid (- amount)%Q in
              do! add_transaction now uid (- amount)%Q withdrawal
                    (DescWithdrawal (wd_id w)) in
              ret (SayWithdrawn amount (wd_id w))
          end
      end
  end.

(** Running a handler on a database in which no storage call fails. *)
Definition run {A} (m : M A) (s : db) (g : rng) : option A * world :=
  m (World s [] g).

(** ** bot.py and database.py: the screens that only read *)

(** The text of [format_time]: which of its three shapes, with the
    numbers formatted into it. *)
Inductive time_text :=
| Seconds (s : Z)                  (* "{s} сек" *)
| MinutesSeconds (m s : Z)         (* "{m} мин {s} сек" *)
| HoursMinutes (h m : Z).          (* "{h} ч {m} мин" *)

Definition format_time (seconds : Z) : time_text :=
  if seconds <? 60 then Seconds seconds
  else if seconds <? 3600 then MinutesSeconds (seconds / 60) (seconds mod 60)
  else HoursMinutes (seconds / 3600) ((seconds mod 3600) / 60).

(** The "clicker available" line of the profile. *)
Inductive next_click_text :=
| ClickNow                         (* "сейчас" *)
| ClickIn (t : time_text).         (* "через ..." *)

Record profile_text := ProfileText {
  pf_user_id : Z;
  pf_balance : Q;
  pf_active_ref : nat;
  pf_total_ref : nat;
  pf_games_played : Z;
  pf_games_won : Z;
  pf_win_rate : Q;
  pf_total_wagered : Q;
  pf_next_click : next_click_text
}.

Definition handle_profile (now : Z) (uid : Z) : M (reply + profile_text) :=
  let! ok := check_subscriptions uid in
  if negb ok then ret (inl SaySubscribeFirst) else
  let! user := get_user uid in
  match user with
  | None => ret (inl SayTryStart)
  | Some u =>
      let! r_ := get_user_referrals uid in
      let '(total_ref, active_ref) := r_ in
      let win_rate :=
        if 0 <? games_played u
        then (inject_Z (games_won u) / inject_Z (games_played u) * (100 # 1))%Q
        else 0%Q in
      let current_time := now in
      let next_click :=
        if truthy (last_click u) then
          let time_passed := current_time - default 0 (last_click u) in
          if time_passed <? Config.CLICK_COOLDOWN
          then ClickIn (format_time (Config.CLICK_COOLDOWN - time_passed))
          else ClickNow
        else ClickNow in
      ret (inr (ProfileText uid (balance u) active_ref total_ref
                  (games_played u) (games_won u) win_rate (total_wagered u)
                  next_click))
  end.

(** The referral screen shows the pair [(total_ref, active_ref)]. *)
Definition handle_referral (uid : Z) : M (reply + nat * nat) :=
  let! ok := check_subscriptions uid in
  if negb ok then ret (inl SaySubscribeFirst) else
  let! r_ := get_user_referrals uid in
  ret (inr r_).

(** The dictionary returned by [get_stats]. *)
Record stats := Stats {
  stats_total_users : nat;
  stats_total_balance : Q;
  stats_total_wagered : Q;
  stats_pending_withdrawals : nat
}.

#[global] Instance withdrawal_status_eq_dec : EqDecision withdrawal_status.
Proof. solve_decision. Defined.

(** [select user_id, count="exact"] *)
Definition q_count_users (s : db) : nat * db := (size (users s), s).

Definition q_select_column {A} (col : user_row → A) (s : db) : list A * db :=
  (map (fun kv => col (snd kv)) (map_to_list (users s)), s).

(** [select id, count="exact" where status = "pending"] *)
Definition q_count_pending (s : db) : nat * db :=
  (length (filter (λ w, wd_status w = pending) (withdrawals s)), s).

(** Python's [sum]: a left fold from 0. *)
Definition sum_amounts (l : list Q) : Q := fold_left Qplus l 0%Q.

Definition zero_stats : stats := Stats 0 0 0 0.

Definition get_stats : M stats :=
  try_ (let! users_count := execute q_count_users in
        let! balances := execute (q_select_column balance) in
        let total_balance := if nonempty balances then sum_amounts balances else 0%Q in
        let! wagers := execute (q_select_column total_wagered) in
        let total_wagered_ := if nonempty wagers then sum_amounts wagers else 0%Q in
        let! pending_count := execute q_count_pending in
        ret (Stats users_count total_balance total_wagered_ pending_count))
       zero_stats.

(** ** Notions used in the statements *)

(** The database after one row of [users] was written. *)
Definition put_user (uid : Z) (u : user_row) (s : db) : db :=
  set_users (insert uid u) s.

(** The database after one row was appended to [transactions]. *)
Definition record (t : transaction_row) (s : db) : db :=
  set_transactions (fun l => l ++ [t]) s.

(** The transactions recorded for an account and the sum of their signed
    amounts. *)
Definition tx_of (uid : Z) (l : list transaction_row) : list transaction_row :=
  filter (λ t, tx_user_id t = uid) l.

Definition tx_sum (uid : Z) (l : list transaction_row) : Q :=
  fold_right (fun t acc => (tx_amount t + acc)%Q) 0%Q (tx_of uid l).

(** Conservation for one account of a database. *)
Definition conserved (uid : Z) (s : db) : Prop :=
  ∀ u, users s !! uid = Some u → (balance u == tx_sum uid (transactions s))%Q.

(** What [get_user_sponsors_status] and [get_user_referrals] read from a
    database when no call fails. *)
Definition sponsors_status (s : db) (uid : Z) : list (sponsor_row * bool) :=
  map (fun sp => (sp, (q_select_subscriptions uid s).1 (sponsor_id sp)))
      (sponsors s).

Definition is_active (s : db) (uid : Z) : bool :=
  existsb snd (sponsors_status s uid).

Definition referrals (s : db) (uid : Z) : list Z := (q_select_referrals uid s).1.

Definition active_referrals (s : db) (uid : Z) : nat :=
  length (filter (λ r, is_active s r = true) (referrals s uid)).

(** The positions of the next [n] draws of a source, and how many of
    those draws fall below the jackpot chance: ticket [i] of a round is
    decided by draw [cursor + i] alone. *)
Definition next_draws (g : rng) (n : nat) : list nat := seq (cursor g) n.

(** The source after [n] more draws. *)
Definition skip (n : nat) (g : rng) : rng :=
  Rng (rnd_float g) (rnd_index g) (n + cursor g).

Definition ticket_wins (g : rng) (i : nat) : bool :=
  Qltb (rnd_float g i) Config.jackpot_win_chance.

Definition winning_tickets (g : rng) (n : nat) : nat :=
  length (filter (λ i, ticket_wins g i = true) (next_draws g n)).

(** [keeps R m]: whatever storage calls fail, the database [m] leaves
    behind is related by [R] to the one it started from. *)
Definition keeps {A} (R : relation db) (m : M A) : Prop :=
  ∀ w, R (store w) (store (snd (m w))).

(** The [withdrawals] table is as it was. *)
Definition same_withdrawals : relation db :=
  fun s s' => withdrawals s' = withdrawals s.

(** Nothing at all was written, or the [withdrawals] table grew. *)
Definition untouched_or_queued : relation db :=
  fun s s' => s' = s ∨ (length (withdrawals s) < length (withdrawals s'))%nat.

(** Every account has the referrer it had (and no account appeared or
    vanished). *)
Definition same_referrers : relation db :=
  fun s s' => ∀ uid, referrer_id <$> users s' !! uid = referrer_id <$> users s !! uid.

(** Balances and transactions are as they were. *)
Definition same_ledger : relation db :=
  fun s s' =>
    transactions s' = transactions s ∧
    ∀ uid, balance <$> users s' !! uid = balance <$> users s !! uid.

(** The accounts are the same, no transaction was added, and only the
    balance of [uid] moved, by [x]. *)
Definition bumped (uid : Z) (x : Q) : relation db :=
  fun s s' =>
    transactions s' = transactions s ∧
    ∀ uid',
      match users s !! uid', users s' !! uid' with
      | Some u, Some u' =>
          (balance u' == balance u + (if decide (uid' = uid) then x else 0))%Q
      | None, None => True
      | _, _ => False
      end.

(** The accounts are the same and each balance moved by exactly what
    the transactions recorded for that account in between add up to. *)
Definition paired : relation db :=
  fun s s' =>
    ∀ uid,
      match users s !! uid, users s' !! uid with
      | Some u, Some u' =>
          (balance u' - balance u ==
           tx_sum uid (transactions s') - tx_sum uid (transactions s))%Q
      | None, None => True
      | _, _ => False
      end.

(** [runs R m]: started where no storage call fails, [m] ends where no
    storage call fails, in a database related by [R] to the first. *)
Definition runs {A} (R : relation db) (m : M A) : Prop :=
  ∀ s g, ∃ s' g', snd (m (World s [] g)) = World s' [] g' ∧ R s s'.

(** Conservation read with the [created_at] column: only transactions
    stamped at or after the creation time of the stored row count. *)
Definition tx_since (t0 : Z) (uid : Z) (l : list transaction_row)
  : list transaction_row :=
  filter (λ t, tx_user_id t = uid ∧ t0 <= tx_created_at t) l.

Definition conserved_since_created (uid : Z) (s : db) : Prop :=
  ∀ u, users s !! uid = Some u →
       (balance u ==
        fold_right (fun t acc => (tx_amount t + acc)%Q) 0%Q
                   (tx_since (created_at u) uid (transactions s)))%Q.

(** The number of seconds a [format_time] text stands for. *)
Definition time_value (t : time_text) : Z :=
  match t with
  | Seconds s => s
  | MinutesSeconds m s => 60 * m + s
  | HoursMinutes h m => 3600 * h + 60 * m
  end.

(** Every float draw of a source lies in the range of [random.random()]. *)
Definition unit_draws (g : rng) : Prop :=
  ∀ i, (0 <= rnd_float g i)%Q ∧ (rnd_float g i < 1)%Q.

(** The three reels a slot round reads from a source. *)
Definition reel (g : rng) (k : nat) : symbol :=
  nth (rnd_index g (k + cursor g) mod 8)%nat GameEngine.symbols Banana.

(** The change a settled round makes to the balance. *)
Definition round_delta (bet : Q) (win : bool) (amount : Q) : Q :=
  if win then (amount - bet)%Q else (- bet)%Q.

(** What a settled round of game [gm] has done to the database [s] of
    the player [uid], whose row was [u]: one balance change, one
    transaction of the same amount, one update of the statistics, and
    nothing else. *)
Definition round_settled (now uid : Z) (gm : game_name) (bet : Q) (win : bool)
    (amount : Q) (d : tx_description) (u : user_row) (s s' : db) : Prop :=
  (∃ u', users s' !! uid = Some u' ∧
         balance u' = (balance u + round_delta bet win amount)%Q ∧
         total_wagered u' = (total_wagered u + bet)%Q ∧
         games_played u' = games_played u + 1 ∧
         games_won u' = (if win then games_won u + 1 else games_won u) ∧
         referrer_id u' = referrer_id u ∧
         last_click u' = last_click u) ∧
  (∀ o, o ≠ uid → users s' !! o = users s !! o) ∧
  transactions s' =
    transactions s ++
      [TxRow uid (round_delta bet win amount)
             (if win then game_win else game_lose)
             (if win then d else DescGameLose gm) now] ∧
  withdrawals s' = withdrawals s ∧
  sponsors s' = sponsors s ∧
  user_sponsors s' = user_sponsors s.


(** Every sponsor listed in the database has a row for [uid] in
    [user_sponsors] whose [is_subscribed] is true. *)
Definition subscribed_to_all (s : db) (uid : Z) : Prop :=
  ∀ sp, sp ∈ sponsors s →
    ∃ r, user_sponsors s !! (uid, sponsor_id sp) = Some r ∧ is_subscribed r = true.

(** The database after [uid] was marked subscribed to each sponsor of a
    list, one upsert after the other. *)
Definition marked (now uid : Z) (sps : list sponsor_row) (s : db) : db :=
  foldl (fun s sp => snd (q_upsert_subscription uid (sponsor_id sp)
                            (SubRow true now) s)) s sps.

(** Nothing recorded was lost: [transactions] and [withdrawals] only
    grew at the end, every new withdrawal is pending, the sponsor list
    is the same, and every account and every subscription row that
    existed still exists. *)
Definition grown : relation db :=
  fun s s' =>
    (∃ l, transactions s' = transactions s ++ l) ∧
    (∃ l, withdrawals s' = withdrawals s ++ l ∧
          Forall (λ r, wd_status r = pending) l) ∧
    sponsors s' = sponsors s ∧
    (∀ uid, is_Some (users s !! uid) → is_Some (users s' !! uid)) ∧
    (∀ k, is_Some (user_sponsors s !! k) → is_Some (user_sponsors s' !! k)).

(** Whatever was written concerns the account [uid] alone: the rows of
    all other accounts are as they were, the new transactions and
    withdrawals all carry [uid], and sponsors and subscriptions are
    untouched. *)
Definition confined (uid : Z) : relation db :=
  fun s s' =>
    (∀ v, v ≠ uid → users s' !! v = users s !! v) ∧
    (∃ l, transactions s' = transactions s ++ l ∧
          Forall (λ t, tx_user_id t = uid) l) ∧
    (∃ l, withdrawals s' = withdrawals s ++ l ∧
          Forall (λ r, wd_user_id r = uid) l) ∧
    sponsors s' = sponsors s ∧
    user_sponsors s' = user_sponsors s.

(** The statistics of a database as [get_stats] computes them when its
    four queries succeed. *)
Definition stats_of (s : db) : stats :=
  Stats (size (users s))
        (sum_amounts (q_select_column balance s).1)
        (sum_amounts (q_select_column total_wagered s).1)
        (q_count_pending s).1.

(** The referrer [cmd_start] passes to [create_user] for an argument of
    [/start]. *)
Definition parsed_referrer (uid : Z) (args : start_args) : option Z :=
  match args with
  | IntArgs r => if r =? uid then None else Some r
  | BadArgs | NoArgs => None
  end.

(** ** Sample data for the concrete runs *)

(** A source whose float draws are all [1/2] and index draws all [0]. *)
Definition calm : rng := Rng (fun _ => 1 # 2)%Q (fun _ => 0%nat) 0.

(** A source whose second float draw alone is below the jackpot chance. *)
Definition lucky : rng :=
  Rng (fun i => if (i =? 1)%nat then 1 # 1000 else 1 # 2)%Q (fun _ => 0%nat) 0.

(** A source on which a crash round takes the high branch: the first
    float draw is 0.7, the second 0.01. *)
Definition soaring : rng :=
  Rng (fun i => if (i =? 1)%nat then 1 # 100 else 7 # 10)%Q (fun _ => 0%nat) 0.

(** The database a handler leaves behind when no storage call fails. *)
Definition after {A} (m : M A) (s : db) : db := store (snd (run m s calm)).

(** Account 1 with three referrals 2, 3, 4, all subscribed to sponsor 10,
    and 20 STAR on the balance of account 1, matched by a transaction. *)
Definition funded : db :=
  Db (list_to_map
        [(1, UserRow 1 "ann" None 100 (20 # 1) None 0 0 0);
         (2, UserRow 2 "bob" (Some 1) 101 0 None 0 0 0);
         (3, UserRow 3 "cat" (Some 1) 102 0 None 0 0 0);
         (4, UserRow 4 "dan" (Some 1) 103 0 None 0 0 0)])
     [TxRow 1 (20 # 1) game_win (DescJackpotWin (20 # 1)) 104]
     [SponsorRow 10 "channel"]
     (list_to_map [((2, 10), SubRow true 110); ((3, 10), SubRow true 110);
                   ((4, 10), SubRow true 110)])
     [].

Definition ann : user_row := UserRow 1 "ann" None 100 (20 # 1) None 0 0 0.

Definition heads_on_flip : fsm_data := FsmData (Some Flip) (Some "heads") None.

(** Account 1 starts the bot, then account 2 starts it through the
    referral link of account 1. *)
Definition joined : db :=
  after (cmd_start 101 2 "bob" (IntArgs 1))
        (after (cmd_start 100 1 "ann" NoArgs) empty_db).

(** Account 2 sends [/start] once more, without and with another link. *)
Definition restarted : db := after (cmd_start 102 2 "bob" NoArgs) joined.
Definition relinked : db := after (cmd_start 102 2 "bob" (IntArgs 7)) joined.

(** The same second [/start], sent within the second of the first one. *)
Definition restarted_at_once : db := after (cmd_start 101 2 "bob" NoArgs) joined.


(** * Properties *)

(** ** Comparison of amounts *)

Lemma Qltb_lt (a b : Q) : Qltb a b = true ↔ (a < b)%Q.
Proof.
  unfold Qltb. rewrite negb_true_iff, <- not_true_iff_false, Qle_bool_iff.
  split; [apply Qnot_le_lt | apply Qlt_not_le].
Qed.

Lemma Qltb_ge (a b : Q) : Qltb a b = false ↔ (b <= a)%Q.
Proof.
  unfold Qltb. rewrite negb_false_iff. apply Qle_bool_iff.
Qed.

(** ** Storage calls when nothing fails *)

Section NoFault.
Variables (s : db) (g : rng).

Lemma get_user_ok uid :
  get_user uid (World s [] g) = (Some (users s !! uid), World s [] g).
Proof.
  unfold get_user, try_, bind, execute, q_select_user; simpl.
  by destruct (users s !! uid).
Qed.

Lemma update_balance_ok uid amount :
  update_balance uid amount (World s [] g) =
  match users s !! uid with
  | Some u => (Some true,
               World (put_user uid (with_balance (balance u + amount) u) s) [] g)
  | None => (Some false, World s [] g)
  end.
Proof.
  unfold update_balance, try_, bind. rewrite get_user_ok.
  destruct (users s !! uid) as [u|] eqn:E; [|done].
  unfold execute, q_update_user; simpl. by rewrite E.
Qed.

Lemma update_last_click_ok uid t :
  update_last_click uid t (World s [] g) =
  match users s !! uid with
  | Some u => (Some true, World (put_user uid (with_last_click t u) s) [] g)
  | None => (Some false, World s [] g)
  end.
Proof.
  unfold update_last_click, try_, bind, execute, q_update_user; simpl.
  by destruct (users s !! uid).
Qed.

Lemma update_game_stats_ok uid wagered won :
  update_game_stats uid wagered won (World s [] g) =
  match users s !! uid with
  | Some u =>
      (Some true,
       World (put_user uid
                (with_stats (total_wagered u + wagered) (games_played u + 1)
                   (if won then Some (games_won u + 1) else None) u) s) [] g)
  | None => (Some false, World s [] g)
  end.
Proof.
  unfold update_game_stats, try_, bind. rewrite get_user_ok.
  destruct (users s !! uid) as [u|] eqn:E; [|done].
  unfold execute, q_update_user; simpl. by rewrite E.
Qed.

Lemma add_transaction_ok now uid amount type description :
  add_transaction now uid amount type description (World s [] g) =
  (Some true, World (record (TxRow uid amount type description now) s) [] g).
Proof. reflexivity. Qed.

Lemma create_withdrawal_ok now uid amount :
  create_withdrawal now uid amount (World s [] g) =
  let row := WdRow (Z.of_nat (length (withdrawals s)) + 1) uid amount pending now in
  (Some (Some row), World (set_withdrawals (fun l => l ++ [row]) s) [] g).
Proof. reflexivity. Qed.

Lemma get_sponsors_ok :
  get_sponsors (World s [] g) = (Some (sponsors s), World s [] g).
Proof. reflexivity. Qed.

Lemma get_user_sponsors_status_ok uid :
  get_user_sponsors_status uid (World s [] g) =
  (Some (sponsors_status s uid), World s [] g).
Proof.
  unfold get_user_sponsors_status, try_, bind. rewrite get_sponsors_ok.
  unfold sponsors_status. by destruct (sponsors s).
Qed.

Lemma count_active_ok refs active :
  count_active refs active (World s [] g) =
  (Some (active + length (filter (λ r, is_active s r = true) refs))%nat,
   World s [] g).
Proof.
  revert active. induction refs as [|r rest IH]; intros active; simpl.
  - unfold ret. by rewrite Nat.add_0_r.
  - unfold bind. rewrite get_user_sponsors_status_ok.
    fold (is_active s r). rewrite IH, filter_cons.
    destruct (is_active s r) eqn:E; case_decide; try done; simpl.
    by rewrite Nat.add_succ_r.
Qed.

Lemma get_user_referrals_ok uid :
  get_user_referrals uid (World s [] g) =
  (Some (length (referrals s uid), active_referrals s uid), World s [] g).
Proof.
  unfold get_user_referrals, try_, bind.
  change (execute (q_select_referrals uid) (World s [] g))
    with (Some (referrals s uid), World s [] g).
  simpl. by rewrite count_active_ok.
Qed.

Lemma check_subscriptions_ok uid :
  check_subscriptions uid (World s [] g) =
  (Some (forallb snd (sponsors_status s uid)), World s [] g).
Proof.
  unfold check_subscriptions, try_, bind. rewrite get_user_sponsors_status_ok.
  by destruct (sponsors_status s uid).
Qed.
End NoFault.

(** ** The withdrawal handler when nothing fails *)

Lemma handle_withdraw_ok s g now uid amount u :
  users s !! uid = Some u →
  run (handle_withdraw now uid (Some amount)) s g =
  if Qltb (balance u) amount then (Some (SayNotEnough (balance u)), World s [] g)
  else if (active_referrals s uid <? 3)%nat
  then (Some (SayNeedReferrals (active_referrals s uid)), World s [] g)
  else
    let wid := Z.of_nat (length (withdrawals s)) + 1 in
    let s1 := set_withdrawals (fun l => l ++ [WdRow wid uid amount pending now]) s in
    let s2 := put_user uid (with_balance (balance u + - amount) u) s1 in
    let s3 := record (TxRow uid (- amount) withdrawal (DescWithdrawal wid) now) s2 in
    (Some (SayWithdrawn amount wid), World s3 [] g).
Proof.
  intros Hu. unfold run, handle_withdraw, bind.
  rewrite get_user_ok, Hu.
  destruct (Qltb (balance u) amount); [done|].
  rewrite get_user_referrals_ok.
  destruct (active_referrals s uid <? 3)%nat; [done|].
  rewrite create_withdrawal_ok; cbv beta iota zeta.
  rewrite update_balance_ok; simpl. rewrite Hu.
  by rewrite add_transaction_ok.
Qed.

(** ** Debits above the balance *)

Section Refusal.
Variables (s : db) (g : rng) (now uid : Z) (u : user_row) (amount : Q).
Hypothesis Hu : users s !! uid = Some u.
Hypothesis Hover : (balance u < amount)%Q.

Local Abbreviation refused := (Some (SayNotEnough (balance u)), World s [] g).

Local Ltac refuse :=
  unfold run, bind, try_; rewrite get_user_ok, Hu; cbv beta iota zeta;
  repeat match goal with
         | |- context [Qltb ?a ?b] =>
             first [ rewrite (proj2 (Qltb_lt a b)) by assumption
                   | rewrite (proj2 (Qltb_ge a b)) by assumption ]
         end; reflexivity.

Lemma flip_refused data :
  (Config.MIN_BETS_flip <= amount)%Q →
  run (handle_bet_input now uid data (Some amount)) s g = refused.
Proof. intros Hmin. unfold handle_bet_input. refuse. Qed.

Lemma crash_refused :
  run (handle_crash_play now uid (Some amount)) s g = refused.
Proof. unfold handle_crash_play. refuse. Qed.

Lemma slot_refused :
  run (handle_slot_play now uid (Some amount)) s g = refused.
Proof. unfold handle_slot_play. refuse. Qed.

Lemma dice_refused data :
  (Config.MIN_BETS_dice <= amount)%Q →
  run (handle_dice_bet now uid data (Some amount)) s g = refused.
Proof. intros Hmin. unfold handle_dice_bet. refuse. Qed.

Lemma jackpot_refused :
  run (handle_jackpot_play now uid (Some amount)) s g = refused.
Proof. unfold handle_jackpot_play. refuse. Qed.

Lemma withdraw_refused :
  run (handle_withdraw now uid (Some amount)) s g = refused.
Proof. unfold handle_withdraw. refuse. Qed.

(** A bet below the minimum of flip or dice is turned away by the
    minimum check, which comes first; nothing is written either. *)
Lemma below_minimum_untouched data :
  (amount < Config.MIN_BETS_flip)%Q →
  run (handle_bet_input now uid data (Some amount)) s g =
    (Some (SayMinBet Config.MIN_BETS_flip), World s [] g) ∧
  run (handle_dice_bet now uid data (Some amount)) s g =
    (Some (SayMinBet Config.MIN_BETS_dice), World s [] g).
Proof.
  intros Hmin. split.
  - unfold handle_bet_input. refuse.
  - unfold handle_dice_bet. change Config.MIN_BETS_dice with Config.MIN_BETS_flip. refuse.
Qed.
End Refusal.

(** C2. A game bet or a withdrawal whose amount exceeds the balance of an
    existing account is answered with the insufficient-funds message and
    leaves the whole database as it was: no transaction is written and
    the balance is unchanged.  For flip and dice the bet is one that
    passed the minimum-bet check, which those two handlers make first. *)
Theorem debit_over_balance_refused s g now uid u amount data :
  users s !! uid = Some u →
  (balance u < amount)%Q →
  let refused := (Some (SayNotEnough (balance u)), World s [] g) in
  ((Config.MIN_BETS_flip <= amount)%Q →
     run (handle_bet_input now uid data (Some amount)) s g = refused) ∧
  run (handle_crash_play now uid (Some amount)) s g = refused ∧
  run (handle_slot_play now uid (Some amount)) s g = refused ∧
  ((Config.MIN_BETS_dice <= amount)%Q →
     run (handle_dice_bet now uid data (Some amount)) s g = refused) ∧
  run (handle_jackpot_play now uid (Some amount)) s g = refused ∧
  run (handle_withdraw now uid (Some amount)) s g = refused.
Proof.
  intros Hu Hover refused.
  repeat split; intros;
    eauto using flip_refused, crash_refused, slot_refused, dice_refused,
                jackpot_refused, withdraw_refused.
Qed.

Lemma debit_over_balance_refused_witness :
  users funded !! 1 = Some ann ∧
  (balance ann < 25 # 1)%Q ∧
  run (handle_bet_input 200 1 heads_on_flip (Some (25 # 1))) funded calm =
    (Some (SayNotEnough (20 # 1)), World funded [] calm) ∧
  run (handle_withdraw 200 1 (Some (25 # 1))) funded calm =
    (Some (SayNotEnough (20 # 1)), World funded [] calm).
Proof.
  assert (H1 : users funded !! 1 = Some ann) by reflexivity.
  assert (H2 : (balance ann < 25 # 1)%Q) by reflexivity.
  assert (H3 : (Config.MIN_BETS_flip <= 25 # 1)%Q) by (vm_compute; discriminate).
  pose proof (debit_over_balance_refused funded calm 200 1 ann (25 # 1)
                heads_on_flip H1 H2) as (Hflip & _ & _ & _ & _ & Hwd).
  exact (conj H1 (conj H2 (conj (Hflip H3) Hwd))).
Defined.

(** ** The withdrawal gate *)

(** C3. A withdrawal by an existing account is refused when fewer than
    three of its referrals are active, whatever the balance, and refused
    when the balance is below the amount, whatever the referrals; in
    both cases the database is untouched.  When the balance covers the
    amount and at least three referrals are active, exactly one
    withdrawal row with status [pending] and exactly one transaction of
    kind [withdrawal] carrying the negated amount are appended, and the
    balance goes down by the amount.  The counts are the ones
    [get_user_referrals] returns on the same database. *)
Theorem withdrawal_gate s g now uid u amount total active :
  users s !! uid = Some u →
  fst (run (get_user_referrals uid) s g) = Some (total, active) →
  let out := run (handle_withdraw now uid (Some amount)) s g in
  ((active < 3)%nat →
     snd out = World s [] g ∧
     (fst out = Some (SayNeedReferrals active) ∨
      fst out = Some (SayNotEnough (balance u)))) ∧
  ((balance u < amount)%Q →
     snd out = World s [] g ∧ fst out = Some (SayNotEnough (balance u))) ∧
  ((amount <= balance u)%Q → (3 <= active)%nat →
     ∃ wid,
       fst out = Some (SayWithdrawn amount wid) ∧
       withdrawals (store (snd out)) =
         withdrawals s ++ [WdRow wid uid amount pending now] ∧
       transactions (store (snd out)) =
         transactions s ++
           [TxRow uid (- amount) withdrawal (DescWithdrawal wid) now] ∧
       users (store (snd out)) =
         <[uid := with_balance (balance u + - amount) u]> (users s) ∧
       sponsors (store (snd out)) = sponsors s ∧
       user_sponsors (store (snd out)) = user_sponsors s).
Proof.
  intros Hu Hrefs out. subst out.
  unfold run in Hrefs. rewrite get_user_referrals_ok in Hrefs.
  simpl in Hrefs. injection Hrefs as _ Hactive.
  rewrite (handle_withdraw_ok s g now uid amount u Hu), Hactive.
  repeat split.
  - destruct (Qltb (balance u) amount); [done|].
    by rewrite (proj2 (Nat.ltb_lt _ _) H).
  - destruct (Qltb (balance u) amount); [by right|].
    rewrite (proj2 (Nat.ltb_lt _ _) H). by left.
  - by rewrite (proj2 (Qltb_lt _ _) H).
  - by rewrite (proj2 (Qltb_lt _ _) H).
  - intros Hbal Hact.
    rewrite (proj2 (Qltb_ge _ _) Hbal).
    rewrite (proj2 (Nat.ltb_ge _ _) Hact).
    by eexists.
Qed.

Lemma withdrawal_gate_witness :
  users funded !! 1 = Some ann ∧
  fst (run (get_user_referrals 1) funded calm) = Some (3, 3)%nat ∧
  withdrawals (after (handle_withdraw 200 1 (Some (15 # 1))) funded) =
    [WdRow 1 1 (15 # 1) pending 200].
Proof.
  assert (H1 : users funded !! 1 = Some ann) by reflexivity.
  assert (H2 : fst (run (get_user_referrals 1) funded calm) = Some (3, 3)%nat)
    by (vm_compute; reflexivity).
  assert (H3 : (15 # 1 <= balance ann)%Q) by (vm_compute; discriminate).
  destruct (withdrawal_gate funded calm 200 1 ann (15 # 1) 3 3 H1 H2)
    as (_ & _ & Hok).
  destruct (Hok H3 (le_n 3)) as (wid & Hreply & Hrow & _).
  assert (Hwid : wid = 1).
  { vm_compute in Hreply. by injection Hreply as <-. }
  rewrite Hwid in Hrow.
  exact (conj H1 (conj H2 Hrow)).
Defined.

(** C4, as stated, fails: 16 is not one of the configured tiers, yet the
    handler accepts it, appends the withdrawal row and debits the
    account. *)
Lemma withdrawal_outside_tiers_accepted :
  forallb (fun t => negb (Qeq_bool (16 # 1) (inject_Z t)))
          Config.WITHDRAWAL_AMOUNTS = true ∧
  fst (run (handle_withdraw 200 1 (Some (16 # 1))) funded calm) =
    Some (SayWithdrawn (16 # 1) 1) ∧
  withdrawals (after (handle_withdraw 200 1 (Some (16 # 1))) funded) =
    [WdRow 1 1 (16 # 1) pending 200] ∧
  balance <$> users (after (handle_withdraw 200 1 (Some (16 # 1))) funded) !! 1 =
    Some (4 # 1).
Proof. vm_compute. done. Qed.

(** C4, amended. The tier list reaches the withdrawal flow only through
    the menu, whose buttons are exactly the configured amounts; the
    handler itself tests the balance and the active referrals and
    nothing else, so every amount that passes those two tests is
    accepted, member of the list or not. *)
Theorem tiers_only_in_menu s g now uid u amount :
  users s !! uid = Some u →
  (amount <= balance u)%Q →
  (3 <= active_referrals s uid)%nat →
  (forallb snd (sponsors_status s uid) = true →
     run (handle_withdraw_menu uid) s g =
       (Some (SayWithdrawMenu Config.WITHDRAWAL_AMOUNTS), World s [] g)) ∧
  ∃ wid,
    fst (run (handle_withdraw now uid (Some amount)) s g) =
      Some (SayWithdrawn amount wid) ∧
    withdrawals (store (snd (run (handle_withdraw now uid (Some amount)) s g))) =
      withdrawals s ++ [WdRow wid uid amount pending now].
Proof.
  intros Hu Hbal Hact. split.
  - intros Hsub. unfold run, handle_withdraw_menu, bind.
    by rewrite check_subscriptions_ok, Hsub.
  - rewrite (handle_withdraw_ok s g now uid amount u Hu).
    rewrite (proj2 (Qltb_ge _ _) Hbal), (proj2 (Nat.ltb_ge _ _) Hact).
    by eexists.
Qed.

Lemma tiers_only_in_menu_witness :
  users funded !! 1 = Some ann ∧
  (17 # 1 <= balance ann)%Q ∧
  (3 <= active_referrals funded 1)%nat ∧
  ∃ wid,
    fst (run (handle_withdraw 200 1 (Some (17 # 1))) funded calm) =
      Some (SayWithdrawn (17 # 1) wid).
Proof.
  assert (H1 : users funded !! 1 = Some ann) by reflexivity.
  assert (H2 : (17 # 1 <= balance ann)%Q) by (vm_compute; discriminate).
  assert (H3 : (3 <= active_referrals funded 1)%nat) by (vm_compute; lia).
  destruct (tiers_only_in_menu funded calm 200 1 ann (17 # 1) H1 H2 H3)
    as (_ & wid & Hreply & _).
  exact (conj H1 (conj H2 (conj H3 (ex_intro _ wid Hreply)))).
Defined.

(** ** Referral bonuses at account creation *)

(** [create_user] with a referrer that Python counts as set and that is
    not the new account itself, when nothing fails. *)
Lemma create_user_referred s g now A B name :
  A ≠ 0 → A ≠ B →
  run (create_user now B name (Some A)) s g =
  let row b := UserRow B (default_username B name) (Some A) now b None 0 0 0 in
  let s1 := put_user B (row 0%Q) s in
  match users s !! A with
  | Some a =>
      (Some true,
       World (record (TxRow B (2 # 1) referral_bonus DescRegisteredByLink now)
                (put_user B (row (2 # 1))
                   (record (TxRow A (3 # 1) referral_bonus (DescInvited name) now)
                      (put_user A (with_balance (balance a + (3 # 1)) a) s1))))
             [] g)
  | None => (Some true, World s1 [] g)
  end.
Proof.
  intros HA HAB. cbv zeta.
  set (row := fun b => UserRow B (default_username B name) (Some A) now b None 0 0 0).
  assert (Htruthy : truthy (Some A) = true).
  { simpl. by rewrite (proj2 (Z.eqb_neq A 0) HA). }
  unfold run, create_user, try_, bind.
  change (execute (q_upsert_user (UserRow B (default_username B name) (Some A)
                                    now 0 None 0 0 0)) (World s [] g))
    with (Some [row 0%Q], World (put_user B (row 0%Q) s) [] g).
  cbv beta iota zeta. rewrite Htruthy.
  change (true && nonempty [row 0%Q]) with true. cbv beta iota.
  rewrite get_user_ok.
  assert (HlookA : users (put_user B (row 0%Q) s) !! A = users s !! A).
  { simpl. by rewrite lookup_insert_ne. }
  change (default 0 (Some A)) with A. rewrite HlookA.
  destruct (users s !! A) as [a|] eqn:Ea; [|done].
  cbv beta iota. rewrite update_balance_ok, HlookA.
  rewrite add_transaction_ok.
  rewrite update_balance_ok.
  assert (HlookB :
    users (record (TxRow A (3 # 1) referral_bonus (DescInvited name) now)
             (put_user A (with_balance (balance a + (3 # 1))%Q a)
                (put_user B (row 0%Q) s))) !! B = Some (row 0%Q)).
  { simpl. rewrite lookup_insert_ne by done. by rewrite lookup_insert_eq. }
  unfold Config.REFERRAL_REWARD_REFERRER, Config.REFERRAL_REWARD_REFEREE.
  rewrite HlookB. by rewrite add_transaction_ok.
Qed.

(** [create_user] without a referrer ([None], or the id 0 that Python
    counts as unset), when nothing fails. *)
Lemma create_user_plain s g now B name referrer :
  truthy referrer = false →
  run (create_user now B name referrer) s g =
  (Some true,
   World (put_user B (UserRow B (default_username B name) referrer now 0 None
                        0 0 0) s) [] g).
Proof.
  intros Hfalsy. unfold run, create_user, try_, bind.
  change (execute (q_upsert_user ?r) (World s [] g))
    with (Some [r], World (put_user B r s) [] g).
  cbv beta iota zeta. by rewrite Hfalsy.
Qed.

(** C7. Creating account [B] with referrer [A] (a non-null id other than
    [B] itself) when [A] exists: [A]'s balance grows by exactly 3, [B]
    is stored with balance 2, no other account changes, and exactly two
    transactions, both of kind [referral_bonus], are appended: 3 for [A]
    and 2 for [B].  When [A] does not exist the call still succeeds, [B]
    is stored with balance 0 and nothing else changes: no bonus and no
    transaction. *)
Theorem referral_bonuses s g now A B name :
  A ≠ 0 → A ≠ B →
  let out := run (create_user now B name (Some A)) s g in
  let row b := UserRow B (default_username B name) (Some A) now b None 0 0 0 in
  (∀ a, users s !! A = Some a →
     fst out = Some true ∧
     ∃ s', snd out = World s' [] g ∧
       users s' !! A = Some (with_balance (balance a + (3 # 1)) a) ∧
       users s' !! B = Some (row (2 # 1)) ∧
       (∀ C, C ≠ A → C ≠ B → users s' !! C = users s !! C) ∧
       transactions s' =
         transactions s ++
           [TxRow A (3 # 1) referral_bonus (DescInvited name) now;
            TxRow B (2 # 1) referral_bonus DescRegisteredByLink now] ∧
       withdrawals s' = withdrawals s) ∧
  (users s !! A = None →
     out = (Some true, World (put_user B (row 0%Q) s) [] g)).
Proof.
  intros HA HAB out row. subst out.
  rewrite (create_user_referred s g now A B name HA HAB). cbv zeta.
  split.
  - intros a Ha. rewrite Ha. split; [done|].
    eexists. split; [done|]. simpl. repeat split.
    + rewrite lookup_insert_ne by done. by rewrite lookup_insert_eq.
    + by rewrite lookup_insert_eq.
    + intros C HCA HCB. by rewrite !lookup_insert_ne.
    + by rewrite <- app_assoc.
  - intros Ha. by rewrite Ha.
Qed.

Lemma referral_bonuses_witness :
  (1 ≠ 0 ∧ 1 ≠ 2) ∧
  fst (run (create_user 101 2 "bob" (Some 1))
           (after (cmd_start 100 1 "ann" NoArgs) empty_db) calm) = Some true.
Proof.
  assert (H1 : 1 ≠ 0) by discriminate.
  assert (H2 : 1 ≠ 2) by discriminate.
  pose proof (referral_bonuses (after (cmd_start 100 1 "ann" NoArgs) empty_db)
                calm 101 1 2 "bob" H1 H2) as (Hex & _).
  destruct (Hex (UserRow 1 "ann" None 100 0 None 0 0 0) eq_refl) as (Hok & _).
  exact (conj (conj H1 H2) Hok).
Defined.

(** ** The coin flip *)

(** C8. The first draw of a flip round is the special-event draw and it
    is tested against 0.015 before anything else: when it is below, the
    round is lost with payout 0 for either side and the win draw is not
    even made (one draw consumed).  Otherwise the second draw is tested
    against 0.49; below it the round is won and pays the bet times 2,
    else it is lost with payout 0. *)
Theorem flip_special_first bet choice g :
  let special := rnd_float g (cursor g) in
  let main := rnd_float g (S (cursor g)) in
  (Config.flip_special_event_chance = 15 # 1000 ∧
   Config.flip_win_chance = 49 # 100 ∧
   Config.flip_multiplier = 2 # 1) ∧
  ((special < 15 # 1000)%Q →
     GameEngine.play_flip bet choice g = ((false, 0%Q, FlipSpecial), advance g)) ∧
  ((15 # 1000 <= special)%Q → (main < 49 # 100)%Q →
     GameEngine.play_flip bet choice g =
       ((true, (bet * (2 # 1))%Q, FlipWon choice (bet * (2 # 1))),
        advance (advance g))) ∧
  ((15 # 1000 <= special)%Q → (49 # 100 <= main)%Q →
     GameEngine.play_flip bet choice g =
       ((false, 0%Q, FlipLost choice bet), advance (advance g))).
Proof.
  intros special main. split; [done|].
  unfold GameEngine.play_flip, rbind, random, rret; fold special.
  unfold Config.flip_special_event_chance, Config.flip_win_chance,
    Config.flip_multiplier.
  repeat split.
  - intros H. by rewrite (proj2 (Qltb_lt _ _) H).
  - intros H1 H2. rewrite (proj2 (Qltb_ge _ _) H1).
    change (rnd_float (advance g) (cursor (advance g))) with main.
    by rewrite (proj2 (Qltb_lt _ _) H2).
  - intros H1 H2. rewrite (proj2 (Qltb_ge _ _) H1).
    change (rnd_float (advance g) (cursor (advance g))) with main.
    by rewrite (proj2 (Qltb_ge _ _) H2).
Qed.

Lemma flip_special_first_witness :
  (rnd_float (Rng (fun _ => 1 # 100)%Q (fun _ => 0%nat) 0) 0 < 15 # 1000)%Q ∧
  GameEngine.play_flip (5 # 1) "heads" (Rng (fun _ => 1 # 100)%Q (fun _ => 0%nat) 0) =
    ((false, 0%Q, FlipSpecial), Rng (fun _ => 1 # 100)%Q (fun _ => 0%nat) 1).
Proof.
  assert (H : (rnd_float (Rng (fun _ => 1 # 100)%Q (fun _ => 0%nat) 0) 0
               < 15 # 1000)%Q) by reflexivity.
  exact (conj H (proj1 (proj2 (flip_special_first (5 # 1) "heads"
                   (Rng (fun _ => 1 # 100)%Q (fun _ => 0%nat) 0))) H)).
Defined.

(** ** The jackpot *)

Lemma play_jackpot_unit g :
  GameEngine.play_jackpot (1 # 1) g =
  (if ticket_wins g (cursor g) then (true, 100 # 1, JackpotHit (100 # 1))
   else (false, 0%Q, JackpotMissed), advance g).
Proof.
  unfold GameEngine.play_jackpot, rbind, random, rret, ticket_wins.
  by destruct (Qltb _ _).
Qed.

Lemma winning_tickets_S g n :
  winning_tickets g (S n) =
  ((if ticket_wins g (cursor g) then 1 else 0) + winning_tickets (advance g) n)%nat.
Proof.
  unfold winning_tickets, next_draws. simpl seq. rewrite filter_cons.
  change (ticket_wins (advance g)) with (ticket_wins g).
  change (cursor (advance g)) with (S (cursor g)).
  destruct (ticket_wins g (cursor g)); case_decide; done.
Qed.

Lemma inject_Z_plus_hundred t :
  (inject_Z t + (100 # 1))%Q = inject_Z (t + 100).
Proof. unfold Qplus, inject_Z; simpl. f_equal. lia. Qed.

Lemma draw_tickets_ok n : ∀ g t w,
  draw_tickets n (inject_Z t) w g =
  ((inject_Z (t + 100 * Z.of_nat (winning_tickets g n)),
    (w + winning_tickets g n)%nat), skip n g).
Proof.
  induction n as [|n IH]; intros g t w.
  - simpl. unfold rret, skip. destruct g; simpl.
    by rewrite Z.add_0_r, Nat.add_0_r.
  - simpl. unfold rbind. rewrite play_jackpot_unit, winning_tickets_S.
    assert (Hskip : skip n (advance g) = skip (S n) g).
    { unfold skip; simpl. f_equal. lia. }
    destruct (ticket_wins g (cursor g)).
    + rewrite inject_Z_plus_hundred, IH, Hskip.
      f_equal. f_equal; [f_equal|]; lia.
    + rewrite IH, Hskip. f_equal.
Qed.

Lemma Qltb_0_inject_Z z : Qltb 0 (inject_Z z) = (0 <? z).
Proof.
  apply eq_true_iff_eq. rewrite Qltb_lt, Z.ltb_lt.
  unfold Qlt, inject_Z; simpl. lia.
Qed.

Lemma users_put_user uid x s : users (put_user uid x s) !! uid = Some x.
Proof. simpl. apply lookup_insert_eq. Qed.

Lemma users_record t s : users (record t s) = users s.
Proof. reflexivity. Qed.

Lemma lift_rand_ok {A} (m : Rand A) s g :
  lift_rand m (World s [] g) = (Some (fst (m g)), World s [] (snd (m g))).
Proof. unfold lift_rand; simpl. by destruct (m g). Qed.

(** The whole jackpot round when nothing fails and the balance covers the
    bet. *)
Lemma handle_jackpot_play_ok s g now uid u bet :
  users s !! uid = Some u →
  (bet <= balance u)%Q →
  let tickets := int_of bet in
  let k := winning_tickets g (Z.to_nat tickets) in
  let total := inject_Z (100 * Z.of_nat k) in
  let u1 := with_balance (balance u + - bet) u in
  let s1 := put_user uid u1 s in
  let s2 := record (TxRow uid (- bet) game_lose (DescTicketsBought tickets) now) s1 in
  let u2 := with_stats (total_wagered u1 + bet) (games_played u1 + 1) None u1 in
  let s3 := put_user uid u2 s2 in
  let u3 := with_balance (balance u2 + total) u2 in
  let s4 := put_user uid u3 s3 in
  let s5 := record (TxRow uid total game_win (DescJackpotWin total) now) s4 in
  let u4 := with_stats (total_wagered u3 + 0) (games_played u3 + 1)
                       (Some (games_won u3 + 1)) u3 in
  let s6 := put_user uid u4 s5 in
  run (handle_jackpot_play now uid (Some bet)) s g =
  if (0 <? k)%nat
  then (Some (SayJackpot tickets bet (TicketsWon k total) (balance u4)),
        World s6 [] (skip (Z.to_nat tickets) g))
  else (Some (SayJackpot tickets bet TicketsLost (balance u2)),
        World s3 [] (skip (Z.to_nat tickets) g)).
Proof.
  intros Hu Hbal. cbv zeta.
  unfold run, handle_jackpot_play, bind, try_.
  rewrite get_user_ok, Hu. cbv beta iota zeta.
  rewrite (proj2 (Qltb_ge _ _) Hbal).
  rewrite update_balance_ok, Hu. cbv beta iota.
  rewrite add_transaction_ok. cbv beta iota.
  rewrite update_game_stats_ok, users_record, users_put_user. cbv beta iota.
  rewrite lift_rand_ok.
  change (draw_tickets ?n 0%Q 0%nat g) with (draw_tickets n (inject_Z 0) 0%nat g).
  rewrite draw_tickets_ok. cbn [fst snd]. cbv beta iota.
  change (0 + 100 * Z.of_nat ?k) with (100 * Z.of_nat k).
  change (0 + ?k)%nat with k.
  rewrite Qltb_0_inject_Z.
  set (k := winning_tickets g (Z.to_nat (int_of bet))).
  assert (Hk : (0 <? 100 * Z.of_nat k) = (0 <? k)%nat).
  { apply eq_true_iff_eq. rewrite Z.ltb_lt, Nat.ltb_lt. lia. }
  rewrite Hk.
  destruct (0 <? k)%nat.
  - rewrite update_balance_ok, users_put_user. cbv beta iota.
    rewrite add_transaction_ok. cbv beta iota.
    rewrite update_game_stats_ok, users_record, users_put_user. cbv beta iota.
    unfold ret at 1. cbv beta iota.
    rewrite get_user_ok, users_put_user.
    reflexivity.
  - unfold ret at 1. cbv beta iota.
    rewrite get_user_ok, users_put_user.
    reflexivity.
Qed.

(** C9. A jackpot round of [N = int(bet)] tickets makes [N] draws, one
    per ticket, each tested against 0.01 on its own; a successful ticket
    pays 100 times the unit price 1; the accumulated payout is 100 times
    the number of successful tickets, it is what the [game_win]
    transaction and the balance are credited with, and the round is
    reported as won exactly when that number is positive. *)
Theorem jackpot_round s g now uid u bet :
  users s !! uid = Some u →
  (bet <= balance u)%Q →
  let tickets := int_of bet in
  let N := Z.to_nat tickets in
  let k := winning_tickets g N in
  let total := inject_Z (100 * Z.of_nat k) in
  let out := run (handle_jackpot_play now uid (Some bet)) s g in
  (Config.jackpot_win_chance = 1 # 100 ∧
   ∀ g', GameEngine.play_jackpot (1 # 1) g' =
         (if Qltb (rnd_float g' (cursor g')) (1 # 100)
          then (true, 100 # 1, JackpotHit (100 # 1))
          else (false, 0%Q, JackpotMissed), advance g')) ∧
  draw_tickets N 0 0 g = ((total, k), skip N g) ∧
  rand (snd out) = skip N g ∧
  transactions (store (snd out)) =
    transactions s ++
      TxRow uid (- bet) game_lose (DescTicketsBought tickets) now ::
      (if (0 <? k)%nat
       then [TxRow uid total game_win (DescJackpotWin total) now]
       else []) ∧
  (∃ u', users (store (snd out)) !! uid = Some u' ∧
         balance u' =
           if (0 <? k)%nat then (balance u + - bet + total)%Q
           else (balance u + - bet)%Q) ∧
  ∃ b, fst out =
       Some (SayJackpot tickets bet
               (if (0 <? k)%nat then TicketsWon k total else TicketsLost) b).
Proof.
  intros Hu Hbal tickets N k total out. repeat split.
  - intros g'. apply play_jackpot_unit.
  - change 0%Q with (inject_Z 0). by rewrite draw_tickets_ok.
  - subst out. rewrite (handle_jackpot_play_ok s g now uid u bet Hu Hbal).
    fold tickets N k. by destruct (0 <? k)%nat.
  - subst out. rewrite (handle_jackpot_play_ok s g now uid u bet Hu Hbal).
    fold tickets N k. destruct (0 <? k)%nat; simpl; [|done].
    by rewrite <- app_assoc.
  - subst out. rewrite (handle_jackpot_play_ok s g now uid u bet Hu Hbal).
    fold tickets N k.
    destruct (0 <? k)%nat; eexists; (split; [apply users_put_user | done]).
  - subst out. rewrite (handle_jackpot_play_ok s g now uid u bet Hu Hbal).
    fold tickets N k. destruct (0 <? k)%nat; by eexists.
Qed.

Lemma jackpot_round_witness :
  users funded !! 1 = Some ann ∧
  (5 # 1 <= balance ann)%Q ∧
  draw_tickets 5 0 0 lucky = ((100 # 1, 1%nat), skip 5 lucky) ∧
  transactions (store (snd (run (handle_jackpot_play 200 1 (Some (5 # 1)))
                                funded lucky))) =
    transactions funded ++
      [TxRow 1 (- (5 # 1)) game_lose (DescTicketsBought 5) 200;
       TxRow 1 (100 # 1) game_win (DescJackpotWin (100 # 1)) 200].
Proof.
  assert (H1 : users funded !! 1 = Some ann) by reflexivity.
  assert (H2 : (5 # 1 <= balance ann)%Q) by (vm_compute; discriminate).
  destruct (jackpot_round funded lucky 200 1 ann (5 # 1) H1 H2)
    as (_ & Hdraws & _ & Htx & _ & _).
  exact (conj H1 (conj H2 (conj Hdraws Htx))).
Defined.

(** C10. In a jackpot round with at least one winning ticket the
    account's [games_played] goes up by two (once for the purchase, once
    more for the credit of the winnings) and [games_won] by one; with no
    winning ticket [games_played] goes up by one and [games_won] stays. *)
Theorem jackpot_counts_round_twice s g now uid u bet :
  users s !! uid = Some u →
  (bet <= balance u)%Q →
  let k := winning_tickets g (Z.to_nat (int_of bet)) in
  let out := run (handle_jackpot_play now uid (Some bet)) s g in
  ∃ u', users (store (snd out)) !! uid = Some u' ∧
    ((0 < k)%nat →
       games_played u' = games_played u + 2 ∧ games_won u' = games_won u + 1) ∧
    (k = 0%nat →
       games_played u' = games_played u + 1 ∧ games_won u' = games_won u).
Proof.
  intros Hu Hbal k out. subst out.
  rewrite (handle_jackpot_play_ok s g now uid u bet Hu Hbal). fold k.
  destruct (0 <? k)%nat eqn:Ek.
  - apply Nat.ltb_lt in Ek. eexists. split; [apply users_put_user|].
    simpl. split; intros; lia.
  - apply Nat.ltb_ge in Ek. eexists. split; [apply users_put_user|].
    simpl. split; intros; lia.
Qed.

Lemma jackpot_counts_round_twice_witness :
  users funded !! 1 = Some ann ∧
  (5 # 1 <= balance ann)%Q ∧
  ∃ u', users (store (snd (run (handle_jackpot_play 200 1 (Some (5 # 1)))
                               funded lucky))) !! 1 = Some u' ∧
        games_played u' = 2 ∧ games_won u' = 1.
Proof.
  assert (H1 : users funded !! 1 = Some ann) by reflexivity.
  assert (H2 : (5 # 1 <= balance ann)%Q) by (vm_compute; discriminate).
  destruct (jackpot_counts_round_twice funded lucky 200 1 ann (5 # 1) H1 H2)
    as (u' & Hu' & Hwin & _).
  assert (Hk : (0 < winning_tickets lucky (Z.to_nat (int_of (5 # 1))))%nat)
    by (vm_compute; lia).
  exact (conj H1 (conj H2 (ex_intro _ u' (conj Hu' (Hwin Hk))))).
Defined.

(** ** Storage calls that may fail *)

Section Keeps.
Context (R : relation db) `{!PreOrder R}.

Lemma keeps_ret {A} (a : A) : keeps R (ret a).
Proof. intros w. reflexivity. Qed.

Lemma keeps_raise {A} : keeps R (@raise A).
Proof. intros w. reflexivity. Qed.

Lemma keeps_bind {A B} (m : M A) (k : A → M B) :
  keeps R m → (∀ a, keeps R (k a)) → keeps R (bind m k).
Proof.
  intros Hm Hk w. unfold bind. specialize (Hm w).
  destruct (m w) as [[a|] w1]; simpl in *; [|done].
  etrans; [exact Hm | apply Hk].
Qed.

Lemma keeps_try {A} (m : M A) (d : A) : keeps R m → keeps R (try_ m d).
Proof.
  intros Hm w. unfold try_. specialize (Hm w).
  by destruct (m w) as [[a|] w1].
Qed.

Lemma keeps_execute {A} (q : db → A * db) :
  (∀ s, R s (snd (q s))) → keeps R (execute q).
Proof.
  intros Hq [s fs g]. unfold execute; simpl. specialize (Hq s).
  destruct fs as [|[] fs]; simpl; try reflexivity; by destruct (q s).
Qed.

Lemma keeps_lift_rand {A} (m : Rand A) : keeps R (lift_rand m).
Proof.
  intros w. unfold lift_rand. destruct (m (rand w)). reflexivity.
Qed.
End Keeps.

Lemma keeps_weaken {A} (R R' : relation db) (m : M A) :
  (∀ s s', R s s' → R' s s') → keeps R m → keeps R' m.
Proof. intros HR Hm w. apply HR, Hm. Qed.

#[local] Instance same_withdrawals_preorder : PreOrder same_withdrawals.
Proof.
  split.
  - by intros s.
  - intros s1 s2 s3 H12 H23. unfold same_withdrawals in *. congruence.
Qed.

#[local] Instance untouched_or_queued_preorder : PreOrder untouched_or_queued.
Proof.
  split.
  - intros s. by left.
  - intros s1 s2 s3 [->|H12] [->|H23]; unfold untouched_or_queued;
      first [by left | right; lia].
Qed.

(** The reading methods write nothing, whatever fails. *)
Lemma get_user_reads uid : keeps eq (get_user uid).
Proof.
  apply keeps_try. apply (keeps_bind eq); [|intros ?; apply (keeps_ret eq)].
  by apply (keeps_execute eq).
Qed.

Lemma get_sponsors_reads : keeps eq get_sponsors.
Proof. apply keeps_try. by apply (keeps_execute eq). Qed.

Lemma get_user_sponsors_status_reads uid : keeps eq (get_user_sponsors_status uid).
Proof.
  apply keeps_try. apply (keeps_bind eq); [apply get_sponsors_reads|].
  intros sps. destruct (nonempty sps); [|apply (keeps_ret eq)].
  apply (keeps_bind eq); [by apply (keeps_execute eq) | intros ?; apply (keeps_ret eq)].
Qed.

Lemma count_active_reads refs : ∀ active, keeps eq (count_active refs active).
Proof.
  induction refs as [|r rest IH]; intros active; simpl.
  - apply (keeps_ret eq).
  - apply (keeps_bind eq); [apply get_user_sponsors_status_reads | intros ?; apply IH].
Qed.

Lemma get_user_referrals_reads uid : keeps eq (get_user_referrals uid).
Proof.
  apply keeps_try. apply (keeps_bind eq); [by apply (keeps_execute eq)|].
  intros data. apply (keeps_bind eq); [apply count_active_reads|].
  intros ?; apply (keeps_ret eq).
Qed.

(** The debit writes to [users] and [transactions] only. *)
Lemma update_balance_same_withdrawals uid amount :
  keeps same_withdrawals (update_balance uid amount).
Proof.
  apply keeps_try. apply (keeps_bind same_withdrawals).
  - apply (keeps_weaken eq); [by intros ? ? -> | apply get_user_reads].
  - intros [u|]; [|apply (keeps_ret same_withdrawals)].
    apply (keeps_bind same_withdrawals);
      [|intros ?; apply (keeps_ret same_withdrawals)].
    apply (keeps_execute same_withdrawals). intros s. unfold q_update_user.
    by destruct (users s !! uid).
Qed.

Lemma add_transaction_same_withdrawals now uid amount type description :
  keeps same_withdrawals (add_transaction now uid amount type description).
Proof.
  apply keeps_try. apply (keeps_bind same_withdrawals);
    [|intros ?; apply (keeps_ret same_withdrawals)].
  by apply (keeps_execute same_withdrawals).
Qed.

(** [create_withdrawal] either fails and writes nothing, or appends one
    row and returns it. *)
Lemma create_withdrawal_cases now uid amount w :
  (fst (create_withdrawal now uid amount w) = Some None ∧
   store (snd (create_withdrawal now uid amount w)) = store w) ∨
  (∃ row,
     fst (create_withdrawal now uid amount w) = Some (Some row) ∧
     wd_user_id row = uid ∧ wd_amount row = amount ∧ wd_status row = pending ∧
     store (snd (create_withdrawal now uid amount w)) =
       set_withdrawals (fun l => l ++ [row]) (store w)).
Proof.
  destruct w as [s fs g].
  unfold create_withdrawal, try_, bind, execute; simpl.
  destruct fs as [|[] fs]; simpl; first [by left | right; by eexists].
Qed.

(** ** The withdrawal request under storage failures *)

Lemma handle_withdraw_queues now uid data :
  keeps untouched_or_queued (handle_withdraw now uid data).
Proof.
  destruct data as [amount|]; [|apply (keeps_ret untouched_or_queued)].
  intros w. unfold handle_withdraw, bind.
  pose proof (get_user_reads uid w) as H1.
  destruct (get_user uid w) as [[[u|]|] w1]; simpl in H1;
    try (left; simpl; congruence).
  destruct (Qltb (balance u) amount); [left; simpl; congruence|].
  pose proof (get_user_referrals_reads uid w1) as H2.
  destruct (get_user_referrals uid w1) as [[[total active]|] w2];
    simpl in H2; [|left; simpl; congruence].
  destruct (active <? 3)%nat; [left; simpl; congruence|].
  destruct (create_withdrawal_cases now uid amount w2)
    as [[Hnone Hsame]|(row & Hrow & _ & _ & _ & Hgrown)];
    destruct (create_withdrawal now uid amount w2) as [o w3];
    simpl in *; subst o.
  - left. simpl. congruence.
  - right.
    pose proof (update_balance_same_withdrawals uid (- amount) w3) as H4.
    destruct (update_balance uid (- amount) w3) as [[b|] w4];
      simpl in H4; unfold same_withdrawals in H4.
    + pose proof (add_transaction_same_withdrawals now uid (- amount)
                    withdrawal (DescWithdrawal (wd_id row)) w4) as H5.
      unfold same_withdrawals in H5.
      assert (Hlen : withdrawals (store (snd
                (let (o, w') := add_transaction now uid (- amount) withdrawal
                                  (DescWithdrawal (wd_id row)) w4 in
                 match o with
                 | Some _ => ret (SayWithdrawn amount (wd_id row)) w'
                 | None => (None, w')
                 end))) = withdrawals (store w3)).
      { destruct (add_transaction _ _ _ _ _ w4) as [[b'|] w5];
          simpl in *; congruence. }
      rewrite Hlen, Hgrown, H1, H2. simpl. rewrite length_app. simpl. lia.
    + simpl. rewrite H4, Hgrown, H1, H2. simpl. rewrite length_app. simpl. lia.
Qed.

(** C5, as stated, fails. On the sample database a request for 15 whose
    tenth storage call (the read inside [update_balance]) raises ends
    with the withdrawal row written and the balance still 20; one whose
    twelfth call (the insert of [add_transaction]) raises ends with the
    row and the decreased balance but no withdrawal transaction. *)
Lemma withdrawal_row_without_debit :
  let w1 := snd (handle_withdraw 200 1 (Some (15 # 1))
                   (World funded (replicate 9 false ++ [true]) calm)) in
  let w2 := snd (handle_withdraw 200 1 (Some (15 # 1))
                   (World funded (replicate 11 false ++ [true]) calm)) in
  (withdrawals (store w1) = [WdRow 1 1 (15 # 1) pending 200] ∧
   balance <$> users (store w1) !! 1 = Some (20 # 1)) ∧
  (withdrawals (store w2) = [WdRow 1 1 (15 # 1) pending 200] ∧
   balance <$> users (store w2) !! 1 = Some (5 # 1) ∧
   transactions (store w2) = transactions funded).
Proof. vm_compute. done. Qed.

(** C5, amended. The row and the debit are separate storage calls made
    in that order, not one unit of work.  What holds whatever storage
    call fails: the balance update and the withdrawal transaction are
    attempted only after the row was written, so a run that leaves the
    [withdrawals] table as it was leaves the whole database as it was.
    What holds when no storage call fails: a request either writes
    nothing or writes the row, the balance decrease and the withdrawal
    transaction together. *)
Theorem withdrawal_row_before_debit now uid amount w :
  let w' := snd (handle_withdraw now uid (Some amount) w) in
  (withdrawals (store w') = withdrawals (store w) → store w' = store w) ∧
  (faults w = [] → ∀ u, users (store w) !! uid = Some u →
     store w' = store w ∨
     ∃ wid,
       store w' =
         record (TxRow uid (- amount) withdrawal (DescWithdrawal wid) now)
           (put_user uid (with_balance (balance u + - amount) u)
              (set_withdrawals
                 (fun l => l ++ [WdRow wid uid amount pending now]) (store w)))).
Proof.
  intros w'. split.
  - intros Hsame.
    destruct (handle_withdraw_queues now uid (Some amount) w) as [Heq|Hlt];
      [exact Heq|].
    fold w' in Hlt. rewrite Hsame in Hlt. lia.
  - intros Hfaults u Hu. subst w'. destruct w as [s fs g].
    cbn [faults store] in Hfaults, Hu |- *. subst fs.
    change (handle_withdraw now uid (Some amount) (World s [] g))
      with (run (handle_withdraw now uid (Some amount)) s g).
    rewrite (handle_withdraw_ok s g now uid amount u Hu).
    destruct (Qltb (balance u) amount); [by left|].
    destruct (active_referrals s uid <? 3)%nat; [by left|].
    right. by eexists.
Qed.

Lemma withdrawal_row_before_debit_witness :
  faults (World funded [] calm) = [] ∧
  users funded !! 1 = Some ann ∧
  (store (snd (handle_withdraw 200 1 (Some (15 # 1)) (World funded [] calm)))
     = funded ∨
   ∃ wid,
     store (snd (handle_withdraw 200 1 (Some (15 # 1)) (World funded [] calm))) =
       record (TxRow 1 (- (15 # 1)) withdrawal (DescWithdrawal wid) 200)
         (put_user 1 (with_balance (balance ann + - (15 # 1)) ann)
            (set_withdrawals
               (fun l => l ++ [WdRow wid 1 (15 # 1) pending 200]) funded))).
Proof.
  assert (H1 : faults (World funded [] calm) = []) by reflexivity.
  assert (H2 : users funded !! 1 = Some ann) by reflexivity.
  exact (conj H1 (conj H2
    (proj2 (withdrawal_row_before_debit 200 1 (15 # 1) (World funded [] calm))
           H1 ann H2))).
Defined.

(** ** What the handlers other than [/start] may write

    A relation between databases that is a preorder and that each of the
    five kinds of write made by these handlers respects is kept by the
    handlers themselves, whatever storage calls fail. *)

Section Writes.
Context (R : relation db) `{!PreOrder R}.
Hypothesis R_balance : ∀ uid b s, R s (snd (q_update_user uid (with_balance b) s)).
Hypothesis R_click : ∀ uid t s, R s (snd (q_update_user uid (with_last_click t) s)).
Hypothesis R_stats : ∀ uid w p o s, R s (snd (q_update_user uid (with_stats w p o) s)).
Hypothesis R_tx : ∀ t s, R s (snd (q_insert_transaction t s)).
Hypothesis R_wd : ∀ now uid a s, R s (snd (q_insert_withdrawal now uid a s)).

Lemma reads_keep {A} (m : M A) : keeps eq m → keeps R m.
Proof. apply keeps_weaken. intros s s' ->. reflexivity. Qed.

Local Ltac keeps_with known :=
  repeat first
    [ known
    | apply reads_keep;
      first [ apply get_user_reads | apply get_sponsors_reads
            | apply get_user_sponsors_status_reads
            | apply get_user_referrals_reads ]
    | apply (keeps_ret R)
    | apply (keeps_raise R)
    | apply (keeps_lift_rand R)
    | apply keeps_try
    | apply (keeps_bind R); [|intros ?]
    | match goal with
      | |- keeps _ (match ?x with _ => _ end) => destruct x
      | |- keeps _ (if ?b then _ else _) => destruct b
      | |- keeps _ (let '(_, _) := ?x in _) => destruct x
      end ].

Local Ltac keeps_auto :=
  keeps_with ltac:(first [assumption | apply (keeps_execute R); solve [auto]]).

Lemma update_balance_keeps uid amount : keeps R (update_balance uid amount).
Proof. unfold update_balance. keeps_auto. Qed.

Lemma update_last_click_keeps uid t : keeps R (update_last_click uid t).
Proof. unfold update_last_click. keeps_auto. Qed.

Lemma update_game_stats_keeps uid wagered won :
  keeps R (update_game_stats uid wagered won).
Proof. unfold update_game_stats. keeps_auto. Qed.

Lemma add_transaction_keeps now uid amount type description :
  keeps R (add_transaction now uid amount type description).
Proof. unfold add_transaction. keeps_auto. Qed.

Lemma create_withdrawal_keeps now uid amount :
  keeps R (create_withdrawal now uid amount).
Proof. unfold create_withdrawal. keeps_auto. Qed.

Lemma check_subscriptions_keeps uid : keeps R (check_subscriptions uid).
Proof. unfold check_subscriptions. keeps_auto. Qed.

Lemma balance_of_keeps user : keeps R (balance_of user).
Proof. unfold balance_of. keeps_auto. Qed.

Lemma ratio_descr_keeps gm amount bet : keeps R (ratio_descr gm amount bet).
Proof. unfold ratio_descr. keeps_auto. Qed.

Lemma settle_round_keeps now uid gm bet win amount descr :
  keeps R descr → keeps R (settle_round now uid gm bet win amount descr).
Proof.
  intros Hd. unfold settle_round.
  keeps_with ltac:(first [ assumption | apply update_balance_keeps
                         | apply add_transaction_keeps
                         | apply update_game_stats_keeps ]).
Qed.

Local Ltac handler :=
  keeps_with ltac:(first [ apply update_balance_keeps
                         | apply update_last_click_keeps
                         | apply update_game_stats_keeps
                         | apply add_transaction_keeps
                         | apply create_withdrawal_keeps
                         | apply check_subscriptions_keeps
                         | apply balance_of_keeps
                         | apply ratio_descr_keeps
                         | apply settle_round_keeps ]).

Lemma handle_click_keeps now uid : keeps R (handle_click now uid).
Proof. unfold handle_click. handler. Qed.

Lemma handle_bet_input_keeps now uid data text :
  keeps R (handle_bet_input now uid data text).
Proof. unfold handle_bet_input. handler. Qed.

Lemma handle_crash_play_keeps now uid data :
  keeps R (handle_crash_play now uid data).
Proof. unfold handle_crash_play. handler. Qed.

Lemma handle_slot_play_keeps now uid data :
  keeps R (handle_slot_play now uid data).
Proof. unfold handle_slot_play. handler. Qed.

Lemma handle_dice_bet_keeps now uid data text :
  keeps R (handle_dice_bet now uid data text).
Proof. unfold handle_dice_bet. handler. Qed.

Lemma handle_jackpot_play_keeps now uid data :
  keeps R (handle_jackpot_play now uid data).
Proof. unfold handle_jackpot_play. handler. Qed.

Lemma handle_withdraw_menu_keeps uid : keeps R (handle_withdraw_menu uid).
Proof. unfold handle_withdraw_menu. handler. Qed.

Lemma handle_withdraw_keeps now uid data :
  keeps R (handle_withdraw now uid data).
Proof. unfold handle_withdraw. handler. Qed.
End Writes.

(** ** The referrer outside [/start] *)

#[local] Instance same_referrers_preorder : PreOrder same_referrers.
Proof.
  split.
  - by intros s uid.
  - intros s1 s2 s3 H12 H23 uid. by rewrite H23, H12.
Qed.

Lemma update_same_referrers uid f s :
  (∀ u, referrer_id (f u) = referrer_id u) →
  same_referrers s (snd (q_update_user uid f s)).
Proof.
  intros Hf uid'. unfold q_update_user.
  destruct (users s !! uid) as [u|] eqn:Eu; simpl; [|done].
  destruct (decide (uid = uid')) as [<-|Hne].
  - by rewrite lookup_insert_eq, Eu; simpl; rewrite Hf.
  - by rewrite lookup_insert_ne.
Qed.

(** X28. Whatever storage calls fail, no handler other than [/start]
    changes the referrer of any account, creates an account or removes
    one. *)
Lemma referrer_untouched_outside_start now uid fsm text data :
  keeps same_referrers (handle_click now uid) ∧
  keeps same_referrers (handle_bet_input now uid fsm text) ∧
  keeps same_referrers (handle_crash_play now uid data) ∧
  keeps same_referrers (handle_slot_play now uid data) ∧
  keeps same_referrers (handle_dice_bet now uid fsm text) ∧
  keeps same_referrers (handle_jackpot_play now uid data) ∧
  keeps same_referrers (handle_withdraw now uid data).
Proof.
  assert (Hb : ∀ uid b s,
             same_referrers s (snd (q_update_user uid (with_balance b) s)))
    by (intros; by apply update_same_referrers).
  assert (Hc : ∀ uid t s,
             same_referrers s (snd (q_update_user uid (with_last_click t) s)))
    by (intros; by apply update_same_referrers).
  assert (Hs : ∀ uid w p o s,
             same_referrers s (snd (q_update_user uid (with_stats w p o) s)))
    by (intros; by apply update_same_referrers).
  assert (Ht : ∀ t s, same_referrers s (snd (q_insert_transaction t s)))
    by (by intros t s uid').
  assert (Hw : ∀ now uid a s,
             same_referrers s (snd (q_insert_withdrawal now uid a s)))
    by (by intros ? ? ? s uid').
  repeat split;
    [ apply handle_click_keeps | apply handle_bet_input_keeps
    | apply handle_crash_play_keeps | apply handle_slot_play_keeps
    | apply handle_dice_bet_keeps | apply handle_jackpot_play_keeps
    | apply handle_withdraw_keeps ]; (apply _ || assumption).
Qed.

(** ** Conservation outside [/start], when nothing fails *)

Lemma sum_amounts_app (l1 l2 : list transaction_row) :
  (fold_right (fun t acc => tx_amount t + acc) 0 (l1 ++ l2) ==
   fold_right (fun t acc => tx_amount t + acc) 0 l1 +
   fold_right (fun t acc => tx_amount t + acc) 0 l2)%Q.
Proof.
  induction l1 as [|t l1 IH]; simpl; [ring|]. rewrite IH. ring.
Qed.

Lemma tx_sum_snoc uid l t :
  (tx_sum uid (l ++ [t]) ==
   tx_sum uid l + (if decide (tx_user_id t = uid) then tx_amount t else 0))%Q.
Proof.
  unfold tx_sum, tx_of. rewrite filter_app, sum_amounts_app.
  rewrite filter_cons, filter_nil.
  destruct (decide (tx_user_id t = uid)); simpl; ring.
Qed.

#[local] Instance paired_preorder : PreOrder paired.
Proof.
  split.
  - intros s uid. destruct (users s !! uid); [ring | done].
  - intros s1 s2 s3 H12 H23 uid. specialize (H12 uid). specialize (H23 uid).
    destruct (users s1 !! uid), (users s2 !! uid), (users s3 !! uid);
      try done. lra.
Qed.

#[local] Instance same_ledger_preorder : PreOrder same_ledger.
Proof.
  split.
  - by intros s.
  - intros s1 s2 s3 [T12 B12] [T23 B23]. split; [congruence|].
    intros uid. by rewrite B23, B12.
Qed.

Lemma same_ledger_paired s s' : same_ledger s s' → paired s s'.
Proof.
  intros [HT HB] uid. specialize (HB uid). rewrite HT.
  destruct (users s !! uid) as [u|], (users s' !! uid) as [u'|];
    simpl in HB; try done.
  injection HB as ->. ring.
Qed.

Lemma bumped_same_ledger uid x s s1 s2 :
  bumped uid x s s1 → same_ledger s1 s2 → bumped uid x s s2.
Proof.
  intros [HT HB] [HT' HB']. split; [congruence|].
  intros uid'. specialize (HB uid'). specialize (HB' uid').
  destruct (users s !! uid'), (users s1 !! uid') as [u1|],
    (users s2 !! uid') as [u2|]; simpl in HB'; try done.
  injection HB' as HB'. by rewrite HB'.
Qed.

Lemma bumped_recorded uid x s s' now type description :
  bumped uid x s s' →
  paired s (record (TxRow uid x type description now) s').
Proof.
  intros [HT HB] uid'. specialize (HB uid').
  rewrite users_record. simpl transactions. rewrite HT.
  destruct (users s !! uid') as [u|], (users s' !! uid') as [u'|]; try done.
  rewrite tx_sum_snoc, HB. simpl.
  destruct (decide (uid = uid')), (decide (uid' = uid)); try congruence; ring.
Qed.

Lemma bumped_by_nothing uid x s s' :
  (x == 0)%Q → bumped uid x s s' → paired s s'.
Proof.
  intros Hx [HT HB] uid'. specialize (HB uid'). rewrite HT.
  destruct (users s !! uid') as [u|], (users s' !! uid') as [u'|]; try done.
  rewrite HB. destruct (decide (uid' = uid)); [rewrite Hx|]; ring.
Qed.

Lemma update_balance_bumps s g uid x :
  ∃ s', update_balance uid x (World s [] g) = (Some (bool_decide (is_Some (users s !! uid))), World s' [] g) ∧
        bumped uid x s s'.
Proof.
  rewrite update_balance_ok.
  destruct (users s !! uid) as [u|] eqn:Eu.
  - eexists. split; [done|]. split; [done|].
    intros uid'. simpl. destruct (decide (uid' = uid)) as [->|Hne].
    + by rewrite Eu, lookup_insert_eq.
    + rewrite lookup_insert_ne by done.
      destruct (users s !! uid'); [ring | done].
  - exists s. split; [done|]. split; [done|].
    intros uid'. destruct (users s !! uid') as [u'|] eqn:Eu'; [|done].
    destruct (decide (uid' = uid)) as [->|Hne]; [congruence | ring].
Qed.

Section Runs.
Context (R : relation db) `{!PreOrder R}.

Lemma runs_ret {A} (a : A) : runs R (ret a).
Proof. intros s g. exists s, g. split; reflexivity. Qed.

Lemma runs_raise {A} : runs R (@raise A).
Proof. intros s g. exists s, g. split; reflexivity. Qed.

Lemma runs_bind {A B} (m : M A) (k : A → M B) :
  runs R m → (∀ a, runs R (k a)) → runs R (bind m k).
Proof.
  intros Hm Hk s g. unfold bind.
  destruct (Hm s g) as (s1 & g1 & E1 & H1).
  destruct (m (World s [] g)) as [[a|] w1]; simpl in E1; subst w1.
  - destruct (Hk a s1 g1) as (s2 & g2 & E2 & H2).
    exists s2, g2. split; [exact E2 | by etrans].
  - by exists s1, g1.
Qed.

Lemma runs_try {A} (m : M A) (d : A) : runs R m → runs R (try_ m d).
Proof.
  intros Hm s g. unfold try_.
  destruct (Hm s g) as (s1 & g1 & E1 & H1).
  destruct (m (World s [] g)) as [[a|] w1]; simpl in E1; subst w1;
    by exists s1, g1.
Qed.

(** The continuation of a draw only has to be examined at results the
    engine can return. *)
Lemma runs_drawn {A B} (m : Rand A) (k : A → M B) :
  (∀ g, runs R (k (fst (m g)))) → runs R (bind (lift_rand m) k).
Proof.
  intros Hk s g. unfold bind. rewrite lift_rand_ok.
  apply (Hk g).
Qed.

Lemma runs_read {A} (m : M A) : runs eq m → runs R m.
Proof.
  intros Hm s g. destruct (Hm s g) as (s1 & g1 & E & ->).
  exists s1, g1. split; [exact E | reflexivity].
Qed.
End Runs.

Lemma runs_weaken {A} (R R' : relation db) (m : M A) :
  (∀ s s', R s s' → R' s s') → runs R m → runs R' m.
Proof.
  intros HR Hm s g. destruct (Hm s g) as (s1 & g1 & E & H).
  exists s1, g1. split; [exact E | by apply HR].
Qed.

Lemma get_user_runs uid : runs eq (get_user uid).
Proof. intros s g. exists s, g. by rewrite get_user_ok. Qed.

Lemma check_subscriptions_runs uid : runs eq (check_subscriptions uid).
Proof. intros s g. exists s, g. by rewrite check_subscriptions_ok. Qed.

Lemma get_user_referrals_runs uid : runs eq (get_user_referrals uid).
Proof. intros s g. exists s, g. by rewrite get_user_referrals_ok. Qed.

Lemma update_keeps_ledger uid f s :
  (∀ u, balance (f u) = balance u) →
  same_ledger s (snd (q_update_user uid f s)).
Proof.
  intros Hf. unfold q_update_user.
  destruct (users s !! uid) as [u|] eqn:Eu; [|done].
  split; [done|]. intros uid'. simpl.
  destruct (decide (uid = uid')) as [<-|Hne].
  - by rewrite lookup_insert_eq, Eu; simpl; rewrite Hf.
  - by rewrite lookup_insert_ne.
Qed.

Lemma update_last_click_runs uid t : runs same_ledger (update_last_click uid t).
Proof.
  intros s g. rewrite update_last_click_ok.
  pose proof (update_keeps_ledger uid (with_last_click t) s (fun _ => eq_refl)) as H.
  unfold q_update_user in H.
  destruct (users s !! uid); eexists _, _; split; done.
Qed.

Lemma update_game_stats_runs uid wagered won :
  runs same_ledger (update_game_stats uid wagered won).
Proof.
  intros s g. rewrite update_game_stats_ok.
  destruct (users s !! uid) as [u|] eqn:Eu; [|by exists s, g].
  pose proof (update_keeps_ledger uid
                (with_stats (total_wagered u + wagered) (games_played u + 1)
                   (if won then Some (games_won u + 1) else None)) s
                (fun _ => eq_refl)) as H.
  unfold q_update_user in H. rewrite Eu in H.
  eexists _, _; split; done.
Qed.

(** A balance change followed, possibly after some bookkeeping that
    leaves the ledger alone, by the transaction of the same amount.  If
    the bookkeeping in between can raise, the amount must be zero. *)
Lemma runs_credit {C B} uid x (mid : M C) now type (d : C → tx_description)
    (rest : M B) :
  runs same_ledger mid →
  (∀ s g, fst (mid (World s [] g)) = None → (x == 0)%Q) →
  runs paired rest →
  runs paired
    (bind (update_balance uid x) (fun _ =>
     bind mid (fun c =>
     bind (add_transaction now uid x type (d c)) (fun _ => rest)))).
Proof.
  intros Hmid Hraise Hrest s g. unfold bind at 1.
  destruct (update_balance_bumps s g uid x) as (s1 & E1 & H1).
  rewrite E1. unfold bind at 1.
  destruct (Hmid s1 g) as (s2 & g2 & E2 & H2).
  specialize (Hraise s1 g).
  destruct (mid (World s1 [] g)) as [[c|] w2]; simpl in E2; subst w2.
  - unfold bind at 1. rewrite add_transaction_ok.
    destruct (Hrest (record (TxRow uid x type (d c) now) s2) g2)
      as (s3 & g3 & E3 & H3).
    exists s3, g3. split; [exact E3|].
    etrans; [|exact H3].
    eapply bumped_recorded, bumped_same_ledger; eassumption.
  - exists s2, g2. split; [done|].
    eapply bumped_by_nothing; [by apply Hraise|].
    eapply bumped_same_ledger; eassumption.
Qed.

Lemma runs_credit_direct {B} uid x now type d (rest : M B) :
  runs paired rest →
  runs paired
    (bind (update_balance uid x) (fun _ =>
     bind (add_transaction now uid x type d) (fun _ => rest))).
Proof.
  intros Hrest.
  apply (runs_credit uid x (ret tt) now type (fun _ => d) rest); [|done|done].
  apply (runs_ret same_ledger).
Qed.

Lemma create_withdrawal_runs now uid amount :
  runs same_ledger (create_withdrawal now uid amount).
Proof. intros s g. rewrite create_withdrawal_ok. by eexists _, _. Qed.

Lemma balance_of_runs user : runs eq (balance_of user).
Proof. destruct user; [apply (runs_ret eq) | apply (runs_raise eq)]. Qed.

Lemma ratio_descr_runs gm amount bet : runs same_ledger (ratio_descr gm amount bet).
Proof.
  unfold ratio_descr.
  destruct (Qeq_bool bet 0);
    [apply (runs_raise same_ledger) | apply (runs_ret same_ledger)].
Qed.

Lemma ratio_descr_raises gm amount bet w :
  fst (ratio_descr gm amount bet w) = None → (bet == 0)%Q.
Proof.
  unfold ratio_descr. destruct (Qeq_bool bet 0) eqn:E; [|done].
  intros _. by apply Qeq_bool_iff.
Qed.

(** With a zero bet the engines of crash and slot pay zero. *)
Lemma play_crash_zero bet g :
  (bet == 0)%Q → (snd (fst (fst (GameEngine.play_crash bet g))) - bet == 0)%Q.
Proof.
  intros H. unfold GameEngine.play_crash, uniform, rbind, random, rret.
  repeat match goal with
         | |- context [if ?b then _ else _] => destruct b
         end; simpl; rewrite H; ring.
Qed.

Lemma play_slot_zero bet g :
  (bet == 0)%Q →
  (snd (fst (fst (fst (GameEngine.play_slot bet g)))) - bet == 0)%Q.
Proof.
  intros H.
  unfold GameEngine.play_slot, GameEngine.choice, rbind, randbelow, rret.
  repeat match goal with
         | |- context [if ?b then _ else _] => destruct b
         end; simpl; rewrite H; ring.
Qed.

Lemma stats_then_done uid wagered won :
  runs paired (bind (update_game_stats uid wagered won) (fun _ => ret tt)).
Proof.
  apply (runs_bind paired); [|intros ?; apply (runs_ret paired)].
  apply (runs_weaken same_ledger); [apply same_ledger_paired|].
  apply update_game_stats_runs.
Qed.

Lemma settle_round_runs now uid gm bet win amount descr :
  runs same_ledger descr →
  (∀ s g, fst (descr (World s [] g)) = None → (amount - bet == 0)%Q) →
  runs paired (settle_round now uid gm bet win amount descr).
Proof.
  intros Hd Hraise. unfold settle_round. destruct win.
  - apply (runs_credit uid (amount - bet)%Q descr now game_win (fun d => d));
      [done | done | apply stats_then_done].
  - apply runs_credit_direct, stats_then_done.
Qed.

Local Ltac runner :=
  repeat first
    [ apply (runs_read paired);
      first [ apply get_user_runs | apply check_subscriptions_runs
            | apply get_user_referrals_runs | apply balance_of_runs ]
    | apply runs_credit_direct
    | apply stats_then_done
    | apply (runs_weaken same_ledger paired);
      [ apply same_ledger_paired
      | first [ apply update_game_stats_runs | apply update_last_click_runs
              | apply create_withdrawal_runs ] ]
    | apply (runs_ret paired)
    | apply (runs_raise paired)
    | match goal with
      | |- runs _ (try_ _ _) => apply runs_try
      | |- runs _ (bind (update_balance _ _) _) => fail 2
      | |- runs _ (bind (lift_rand _) _) => fail 2
      | |- runs _ (bind _ _) => apply (runs_bind paired); [|intros ?]
      | |- runs _ (match ?x with _ => _ end) => destruct x
      | |- runs _ (if ?b then _ else _) => destruct b
      end ].

Lemma handle_click_runs now uid : runs paired (handle_click now uid).
Proof.
  unfold handle_click. runner.
  apply (runs_credit uid Config.CLICK_REWARD (update_last_click uid now) now
           click (fun _ => DescClicker));
    [apply update_last_click_runs | | runner].
  intros s g. rewrite update_last_click_ok. by destruct (users s !! uid).
Qed.

Lemma handle_bet_input_runs now uid data text :
  runs paired (handle_bet_input now uid data text).
Proof.
  unfold handle_bet_input. runner.
  apply (runs_drawn paired). intros g.
  destruct (fst (GameEngine.play_flip _ _ g)) as [[win amount] result].
  apply (runs_bind paired); [|intros ?; runner].
  apply settle_round_runs; [apply (runs_ret same_ledger) | done].
Qed.

Lemma handle_dice_bet_runs now uid data text :
  runs paired (handle_dice_bet now uid data text).
Proof.
  unfold handle_dice_bet. runner.
  apply (runs_drawn paired). intros g.
  destruct (fst (GameEngine.play_dice _ _ g)) as [[win amount] result].
  apply (runs_bind paired); [|intros ?; runner].
  apply settle_round_runs; [apply (runs_ret same_ledger) | done].
Qed.

Lemma handle_crash_play_runs now uid data :
  runs paired (handle_crash_play now uid data).
Proof.
  unfold handle_crash_play. runner.
  apply (runs_drawn paired). intros g.
  match goal with |- context [GameEngine.play_crash ?b g] =>
    pose proof (play_crash_zero b g) as Hzero end.
  destruct (fst (GameEngine.play_crash _ g)) as [[win amount] result].
  apply (runs_bind paired); [|intros ?; runner].
  apply settle_round_runs; [apply ratio_descr_runs|].
  intros s r Hr. apply Hzero. by apply ratio_descr_raises in Hr.
Qed.

Lemma handle_slot_play_runs now uid data :
  runs paired (handle_slot_play now uid data).
Proof.
  unfold handle_slot_play. runner.
  apply (runs_drawn paired). intros g.
  match goal with |- context [GameEngine.play_slot ?b g] =>
    pose proof (play_slot_zero b g) as Hzero end.
  destruct (fst (GameEngine.play_slot _ g)) as [[[win amount] result] reels].
  apply (runs_bind paired); [|intros ?; runner].
  apply settle_round_runs; [apply ratio_descr_runs|].
  intros s r Hr. apply Hzero. by apply ratio_descr_raises in Hr.
Qed.

Lemma handle_jackpot_play_runs now uid data :
  runs paired (handle_jackpot_play now uid data).
Proof.
  unfold handle_jackpot_play. runner.
  apply (runs_drawn paired). intros g.
  destruct (fst (draw_tickets _ _ _ g)) as [total_win win_tickets].
  apply (runs_bind paired); [|intros ?; runner].
  destruct (Qltb 0 total_win); runner.
Qed.

Lemma handle_withdraw_runs now uid data :
  runs paired (handle_withdraw now uid data).
Proof. unfold handle_withdraw. runner. Qed.

(** Conservation carries over a [paired] step. *)
Lemma paired_conserved s s' uid :
  paired s s' → conserved uid s → conserved uid s'.
Proof.
  intros H Hc u' Hu'. specialize (H uid). rewrite Hu' in H.
  destruct (users s !! uid) as [u|] eqn:Eu; [|done].
  specialize (Hc u Eu). lra.
Qed.

(** X29. When no storage call fails, the click reward with its referral
    income, every game round and the withdrawal each move every balance
    by what they record for that account: a database in which the
    balances equal the transaction sums stays so. *)
Lemma conservation_outside_start now uid fsm text data s g :
  (∀ a, conserved a s) →
  ∀ a,
    conserved a (store (snd (run (handle_click now uid) s g))) ∧
    conserved a (store (snd (run (handle_bet_input now uid fsm text) s g))) ∧
    conserved a (store (snd (run (handle_crash_play now uid data) s g))) ∧
    conserved a (store (snd (run (handle_slot_play now uid data) s g))) ∧
    conserved a (store (snd (run (handle_dice_bet now uid fsm text) s g))) ∧
    conserved a (store (snd (run (handle_jackpot_play now uid data) s g))) ∧
    conserved a (store (snd (run (handle_withdraw now uid data) s g))).
Proof.
  intros Hs a.
  assert (Hstep : ∀ m : M reply, runs paired m →
                  conserved a (store (snd (run m s g)))).
  { intros m Hm. destruct (Hm s g) as (s' & g' & E & H).
    unfold run. rewrite E. simpl. eapply paired_conserved; eauto. }
  repeat split; apply Hstep;
    auto using handle_click_runs, handle_bet_input_runs, handle_crash_play_runs,
      handle_slot_play_runs, handle_dice_bet_runs, handle_jackpot_play_runs,
      handle_withdraw_runs.
Qed.

Lemma put_user_bumped uid x u s :
  users s !! uid = Some u →
  bumped uid x s (put_user uid (with_balance (balance u + x) u) s).
Proof.
  intros Eu. split; [done|].
  intros uid'. simpl. destruct (decide (uid' = uid)) as [->|Hne].
  - by rewrite Eu, lookup_insert_eq.
  - rewrite lookup_insert_ne by done.
    destruct (users s !! uid'); [ring | done].
Qed.

(** X30. A first contact: the account does not exist yet and nothing was
    recorded for its id.  With or without referral bonuses, a database
    in which the balances equal the transaction sums stays so. *)
Lemma first_contact_conserves s g now B name referrer :
  users s !! B = None →
  tx_of B (transactions s) = [] →
  referrer ≠ Some B →
  (∀ a, conserved a s) →
  ∀ a, conserved a (store (snd (run (create_user now B name referrer) s g))).
Proof.
  intros HB Htx Hself Hs.
  set (row := fun b => UserRow B (default_username B name) referrer now b None 0 0 0).
  assert (Hfresh : ∀ a, conserved a (put_user B (row 0%Q) s)).
  { intros a u. simpl. destruct (decide (a = B)) as [->|Hne].
    - rewrite lookup_insert_eq. intros [= <-]. unfold tx_sum. by rewrite Htx.
    - rewrite lookup_insert_ne by done. apply Hs. }
  destruct (truthy referrer) eqn:Etruthy.
  - destruct referrer as [A|]; [|done].
    assert (HA : A ≠ 0).
    { simpl in Etruthy. apply negb_true_iff in Etruthy. by apply Z.eqb_neq. }
    assert (HAB : A ≠ B) by congruence.
    rewrite (create_user_referred s g now A B name HA HAB). cbv zeta.
    fold (row 0%Q). fold (row (2 # 1)).
    destruct (users s !! A) as [a0|] eqn:EA; [|exact Hfresh].
    intros a. simpl store.
    eapply paired_conserved; [|apply Hfresh].
    etrans.
    + apply bumped_recorded, put_user_bumped.
      simpl. rewrite lookup_insert_ne by done. exact EA.
    + apply (bumped_recorded B (2 # 1)).
      apply (put_user_bumped B (2 # 1) (row 0%Q)).
      simpl. rewrite lookup_insert_ne by done. apply lookup_insert_eq.
  - rewrite (create_user_plain s g now B name referrer Etruthy). exact Hfresh.
Qed.

(** ** Repeated first contact

    [cmd_start] calls [create_user] on every [/start], and [create_user]
    upserts the whole row.  For an account that already exists this is
    the one path on which the properties above are lost. *)

(** C6 at a concrete input: account 2 was created with referrer 1; when
    it sends [/start] again the upsert of [create_user] writes the whole
    row anew, so the stored referrer becomes [None] (no link) or the
    referrer of the new link. *)
Example restart_overwrites_referrer :
  referrer_id <$> users joined !! 2 = Some (Some 1) ∧
  referrer_id <$> users restarted !! 2 = Some None ∧
  referrer_id <$> users relinked !! 2 = Some (Some 7).
Proof. vm_compute. done. Qed.

(** C1 at a concrete input: after its referral registration account 2
    holds 2 STAR, matched by one transaction of 2; a second [/start]
    resets the stored balance to 0 and leaves the transaction log as it
    was, so balance and transactions no longer agree.  Counting only the
    transactions stamped since the rewritten [created_at] does not
    restore the equality when the second [/start] falls in the same
    second as the first. *)
Example restart_breaks_conservation :
  conserved 2 joined ∧
  balance <$> users restarted !! 2 = Some 0%Q ∧
  transactions restarted = transactions joined ∧
  (tx_sum 2 (transactions restarted) == 2 # 1)%Q ∧
  ¬ conserved 2 restarted ∧
  ¬ conserved_since_created 2 restarted_at_once.
Proof.
  split; [|split; [|split; [|split; [|split]]]].
  - intros u Hu. vm_compute in Hu. injection Hu as <-. reflexivity.
  - reflexivity.
  - reflexivity.
  - reflexivity.
  - intros H.
    specialize (H (UserRow 2 "bob" None 102 0 None 0 0 0) eq_refl).
    vm_compute in H. discriminate.
  - intros H.
    specialize (H (UserRow 2 "bob" None 101 0 None 0 0 0) eq_refl).
    vm_compute in H. discriminate.
Qed.


(** * Further properties of the code *)

(** ** The other engines *)

Lemma play_dice_eq bet user_number g :
  GameEngine.play_dice bet user_number g =
  (if bool_decide (user_number = Some (1 + Z.of_nat (rnd_index g (cursor g) mod 6)))
   then (true, (bet * (3 # 1))%Q,
         DiceGuessed (1 + Z.of_nat (rnd_index g (cursor g) mod 6)) (bet * (3 # 1)))
   else (false, 0%Q,
         DiceMissed (1 + Z.of_nat (rnd_index g (cursor g) mod 6)) user_number bet),
   advance g).
Proof.
  unfold GameEngine.play_dice, GameEngine.randint, rbind, randbelow, rret,
    Config.dice_multiplier.
  change (Z.to_nat (6 - 1 + 1)) with 6%nat. cbv beta.
  by case_bool_decide.
Qed.

(** X1. A dice round reads one index draw; the roll is between 1 and 6;
    the round is won exactly when the stored number is that roll, pays
    three times the bet then and nothing otherwise.  A number outside
    1..6, or no number at all, never wins. *)
Theorem play_dice_outcome bet user_number g :
  let roll := 1 + Z.of_nat (rnd_index g (cursor g) mod 6) in
  let out := GameEngine.play_dice bet user_number g in
  1 <= roll <= 6 ∧
  out = (if bool_decide (user_number = Some roll)
         then (true, (bet * (3 # 1))%Q, DiceGuessed roll (bet * (3 # 1)))
         else (false, 0%Q, DiceMissed roll user_number bet), advance g) ∧
  ((∀ n, user_number = Some n → 1 <= n <= 6 → False) →
   fst (fst (fst out)) = false ∧ snd (fst (fst out)) = 0%Q).
Proof.
  intros roll out.
  assert (Hroll : 1 <= roll <= 6).
  { subst roll. pose proof (Nat.mod_upper_bound (rnd_index g (cursor g)) 6).
    lia. }
  assert (Hout : out =
    (if bool_decide (user_number = Some roll)
     then (true, (bet * (3 # 1))%Q, DiceGuessed roll (bet * (3 # 1)))
     else (false, 0%Q, DiceMissed roll user_number bet), advance g))
    by apply play_dice_eq.
  split; [exact Hroll|]. split; [exact Hout|].
  intros Hout_of_range. rewrite Hout.
  case_bool_decide as Hguess; [|done].
  exfalso. exact (Hout_of_range roll Hguess Hroll).
Qed.

Lemma play_dice_outcome_witness :
  (∀ n, Some 9 = Some n → 1 <= n <= 6 → False) ∧
  fst (fst (fst (GameEngine.play_dice (5 # 1) (Some 9) calm))) = false.
Proof.
  assert (H : ∀ n, Some 9 = Some n → 1 <= n <= 6 → False)
    by (intros n [= <-]; lia).
  destruct (play_dice_outcome (5 # 1) (Some 9) calm) as (_ & _ & Hlose).
  exact (conj H (proj1 (Hlose H))).
Defined.

Lemma play_slot_eq bet g :
  GameEngine.play_slot bet g =
  (if bool_decide (reel g 0 = reel g 1) && bool_decide (reel g 1 = reel g 2)
   then if bool_decide (reel g 0 = Banana)
        then (true, (bet * (50 # 1))%Q, SlotJackpot (reel g 0) (bet * (50 # 1)),
              [reel g 0; reel g 1; reel g 2])
        else (true, (bet * (20 # 1))%Q, SlotWon (reel g 0) (bet * (20 # 1)),
              [reel g 0; reel g 1; reel g 2])
   else (false, 0%Q, SlotMissed (reel g 0) (reel g 1) (reel g 2),
         [reel g 0; reel g 1; reel g 2]),
   skip 3 g).
Proof.
  unfold GameEngine.play_slot, GameEngine.choice, rbind, randbelow, rret.
  change (length GameEngine.symbols) with 8%nat. cbn [cursor advance rnd_index].
  change (nth (rnd_index g (cursor g) mod 8) GameEngine.symbols Banana)
    with (reel g 0).
  change (nth (rnd_index g (S (cursor g)) mod 8) GameEngine.symbols Banana)
    with (reel g 1).
  change (nth (rnd_index g (S (S (cursor g))) mod 8) GameEngine.symbols Banana)
    with (reel g 2).
  unfold Config.slot_win_multiplier.
  destruct (bool_decide (reel g 0 = reel g 1)),
    (bool_decide (reel g 1 = reel g 2)), (bool_decide (reel g 0 = Banana)); done.
Qed.

(** X2. A slot round reads three index draws, one per reel, each reduced
    below the eight symbols; it is won exactly when the three reels are
    equal, pays 50 times the bet for three bananas and 20 times for any
    other triple, nothing otherwise, and always reports the three reels. *)
Theorem play_slot_outcome bet g :
  let r0 := reel g 0 in
  let r1 := reel g 1 in
  let r2 := reel g 2 in
  let out := GameEngine.play_slot bet g in
  (r0 ∈ GameEngine.symbols ∧ r1 ∈ GameEngine.symbols ∧ r2 ∈ GameEngine.symbols) ∧
  snd out = skip 3 g ∧
  snd (fst out) = [r0; r1; r2] ∧
  fst (fst (fst (fst out))) = bool_decide (r0 = r1 ∧ r1 = r2) ∧
  snd (fst (fst (fst out))) =
    (if bool_decide (r0 = r1 ∧ r1 = r2)
     then if bool_decide (r0 = Banana) then bet * (50 # 1) else bet * (20 # 1)
     else 0)%Q.
Proof.
  intros r0 r1 r2 out.
  assert (Hin : ∀ k, reel g k ∈ GameEngine.symbols).
  { intros k. unfold reel. apply list_elem_of_In, nth_In.
    apply Nat.mod_upper_bound. discriminate. }
  split; [repeat split; apply Hin|].
  subst out. rewrite play_slot_eq. fold r0 r1 r2. rewrite bool_decide_and.
  destruct (bool_decide (r0 = r1)), (bool_decide (r1 = r2)),
    (bool_decide (r0 = Banana)); by repeat split.
Qed.

(** The case analysis of a crash round on draws from the unit interval:
    the three draws it may read are named and each test is turned into
    an inequality. *)
Local Ltac crash_cases g Hunit :=
  unfold GameEngine.play_crash, uniform, rbind, random, rret;
  unfold Config.crash_instant_crash_chance, Config.crash_high_multiplier_chance,
    Config.crash_min_high_multiplier, Config.crash_low_multiplier_range;
  let Hr0 := fresh "Hr0" in
  let Hr1 := fresh "Hr1" in
  destruct (Hunit (S (S (cursor g)))) as [Hr0 Hr1];
  set (r1 := rnd_float g (cursor g)) in *;
  set (r2 := rnd_float g (S (cursor g))) in *;
  set (r3 := rnd_float g (S (S (cursor g)))) in *;
  let E1 := fresh "E1" in
  let E2 := fresh "E2" in
  let E3 := fresh "E3" in
  destruct (Qltb r1 (6 # 10)) eqn:E1; cbv beta iota; cbn [fst snd];
  [ apply Qltb_lt in E1
  | apply Qltb_ge in E1;
    change (rnd_float (advance g) (cursor (advance g))) with r2;
    destruct (Qltb r2 (2 # 100)) eqn:E2; cbv beta iota; cbn [fst snd];
    change (rnd_float (advance (advance g)) (cursor (advance (advance g))))
      with r3;
    [ apply Qltb_lt in E2
    | apply Qltb_ge in E2;
      destruct (Qltb 1 (1 + ((11 # 10) - 1) * r3)) eqn:E3; cbv beta iota;
      cbn [fst snd];
      [ destruct (Qltb _ (8 # 10)); cbv beta iota; cbn [fst snd] | ] ] ].

Lemma play_crash_bounds bet g :
  unit_draws g →
  (0 <= bet)%Q →
  (fst (fst (fst (GameEngine.play_crash bet g))) = false →
   snd (fst (fst (GameEngine.play_crash bet g))) = 0%Q) ∧
  (fst (fst (fst (GameEngine.play_crash bet g))) = true →
   (bet <= snd (fst (fst (GameEngine.play_crash bet g))))%Q ∧
   (snd (fst (fst (GameEngine.play_crash bet g))) <= (5 # 1) * bet)%Q).
Proof.
  intros Hunit Hbet.
  crash_cases g Hunit; repeat split; intros; try done; try lra; nra.
Qed.

(** X3. A crash round with a non-negative bet, on draws from the unit
    interval: a first draw below 0.6 is an instant crash whatever
    follows; otherwise a second draw below 0.02 is a win at a multiplier
    of at least 1.5; a lost round pays nothing, and a won round pays at
    least the bet and at most five times the bet. *)
Theorem play_crash_outcome bet g :
  unit_draws g →
  (0 <= bet)%Q →
  let out := GameEngine.play_crash bet g in
  let win := fst (fst (fst out)) in
  let amount := snd (fst (fst out)) in
  ((rnd_float g (cursor g) < 6 # 10)%Q → win = false ∧ snd out = advance g) ∧
  ((6 # 10 <= rnd_float g (cursor g))%Q →
   (rnd_float g (S (cursor g)) < 2 # 100)%Q →
   win = true ∧ ((15 # 10) * bet <= amount)%Q) ∧
  (win = false → amount = 0%Q) ∧
  (win = true → (bet <= amount)%Q ∧ (amount <= (5 # 1) * bet)%Q).
Proof.
  intros Hunit Hbet out win amount.
  split; [|split; [|subst win amount out; by apply play_crash_bounds]].
  - subst win amount out.
    crash_cases g Hunit; intros; try done; exfalso; lra.
  - subst win amount out.
    crash_cases g Hunit; intros; try (exfalso; lra).
    split; [done | nra].
Qed.

Lemma play_crash_outcome_witness :
  unit_draws calm ∧ (0 <= 5 # 1)%Q ∧
  fst (fst (fst (GameEngine.play_crash (5 # 1) calm))) = false.
Proof.
  assert (H1 : unit_draws calm) by (intros i; split; [discriminate | reflexivity]).
  assert (H2 : (0 <= 5 # 1)%Q) by discriminate.
  destruct (play_crash_outcome (5 # 1) calm H1 H2) as (Hinstant & _).
  exact (conj H1 (conj H2 (proj1 (Hinstant eq_refl)))).
Defined.

(** ** The countdown text *)

(** X4. [format_time] splits a duration without losing more than the
    seconds of an hour-long one: below an hour the text stands for
    exactly the given number of seconds, with a seconds part in 0..59 once
    minutes are shown; from an hour on the text is at most 59 seconds short
    and its minutes part is in 0..59.  A duration below a minute,
    negative ones included, is shown as it is. *)
Theorem format_time_value seconds :
  (seconds < 60 → format_time seconds = Seconds seconds) ∧
  (60 <= seconds < 3600 →
     ∃ m s, format_time seconds = MinutesSeconds m s ∧
            1 <= m <= 59 ∧ 0 <= s <= 59 ∧
            time_value (format_time seconds) = seconds) ∧
  (3600 <= seconds →
     ∃ h m, format_time seconds = HoursMinutes h m ∧
            1 <= h ∧ 0 <= m <= 59 ∧
            time_value (format_time seconds) <= seconds
              < time_value (format_time seconds) + 60).
Proof.
  unfold format_time. repeat split.
  - intros H. by rewrite (proj2 (Z.ltb_lt _ _) H).
  - intros [H1 H2].
    rewrite (proj2 (Z.ltb_ge _ _) H1), (proj2 (Z.ltb_lt _ _) H2).
    eexists _, _. split; [done|]. simpl.
    Z.div_mod_to_equations. lia.
  - intros H.
    rewrite (proj2 (Z.ltb_ge seconds 60)) by lia.
    rewrite (proj2 (Z.ltb_ge _ _) H).
    eexists _, _. split; [done|]. simpl.
    Z.div_mod_to_equations. lia.
Qed.

Lemma format_time_value_witness :
  3600 <= 3725 ∧
  format_time 3725 = HoursMinutes 1 2 ∧
  time_value (format_time 3725) <= 3725 < time_value (format_time 3725) + 60.
Proof.
  assert (H : 3600 <= 3725) by lia.
  destruct (format_time_value 3725) as (_ & _ & Hlong).
  destruct (Hlong H) as (h & m & Hfmt & _ & _ & Hval).
  exact (conj H (conj eq_refl Hval)).
Defined.

(** ** A settled round *)

Lemma settle_round_ok s r now uid u gm bet win amount descr d :
  users s !! uid = Some u →
  (win = true → descr = ret d) →
  ∃ s', settle_round now uid gm bet win amount descr (World s [] r) =
          (Some tt, World s' [] r) ∧
        round_settled now uid gm bet win amount d u s s'.
Proof.
  intros Hu Hd. unfold settle_round, round_settled, round_delta.
  destruct win; [rewrite (Hd eq_refl)|]; unfold bind;
    rewrite update_balance_ok, Hu; cbv beta iota;
    [unfold ret at 1; cbv beta iota|];
    rewrite add_transaction_ok; cbv beta iota;
    rewrite update_game_stats_ok, users_record, users_put_user; cbv beta iota;
    (eexists; split; [reflexivity|]);
    (split; [eexists; split; [apply users_put_user | by repeat split]|]);
    (split; [intros o Ho; simpl; by rewrite !lookup_insert_ne by done|]);
    by repeat split.
Qed.

(** The part of the four round handlers that follows the engine. *)
Lemma round_tail_ok s r now uid u gm bet win amount descr d result :
  users s !! uid = Some u →
  (win = true → descr = ret d) →
  ∃ s', bind (settle_round now uid gm bet win amount descr) (fun _ =>
        bind (get_user uid) (fun user' =>
        bind (balance_of user') (fun b => ret (SayRound gm result b))))
          (World s [] r) =
        (Some (SayRound gm result (balance u + round_delta bet win amount)),
         World s' [] r) ∧
        round_settled now uid gm bet win amount d u s s'.
Proof.
  intros Hu Hd.
  destruct (settle_round_ok s r now uid u gm bet win amount descr d Hu Hd)
    as (s' & Hrun & Hfacts).
  exists s'. split; [|exact Hfacts].
  unfold bind at 1. rewrite Hrun. cbv beta iota.
  unfold bind at 1. rewrite get_user_ok.
  destruct Hfacts as ((u' & Hu' & Hbal & _) & _).
  rewrite Hu'. simpl. by rewrite Hbal.
Qed.

(** The same part when the round is won and the description raises: the
    balance update is made, the exception leaves the rest undone. *)
Lemma round_tail_raises s r now uid u gm bet amount result :
  users s !! uid = Some u →
  bind (settle_round now uid gm bet true amount raise) (fun _ =>
  bind (get_user uid) (fun user' =>
  bind (balance_of user') (fun b => ret (SayRound gm result b))))
    (World s [] r) =
  (None, World (put_user uid (with_balance (balance u + (amount - bet)) u) s) [] r).
Proof.
  intros Hu. unfold settle_round, bind. by rewrite update_balance_ok, Hu.
Qed.

Lemma ratio_descr_nonzero gm amount bet :
  Qeq_bool bet 0 = false →
  ratio_descr gm amount bet = ret (DescGameWin gm (amount / bet)).
Proof. intros E. unfold ratio_descr. by rewrite E. Qed.

Lemma ratio_descr_zero gm amount bet :
  Qeq_bool bet 0 = true → ratio_descr gm amount bet = raise.
Proof. intros E. unfold ratio_descr. by rewrite E. Qed.

Local Ltac enter_round Hu :=
  unfold run; unfold bind at 1; rewrite get_user_ok, Hu; cbv beta iota;
  unfold try_ at 1; cbv beta iota zeta.

Lemma handle_bet_input_ok s g now uid u bet data :
  users s !! uid = Some u →
  game_type data = Some Flip →
  (Config.MIN_BETS_flip <= bet)%Q →
  (bet <= balance u)%Q →
  let played := GameEngine.play_flip bet (default "" (flip_choice data)) g in
  let win := fst (fst (fst played)) in
  let amount := snd (fst (fst played)) in
  ∃ s', run (handle_bet_input now uid data (Some bet)) s g =
          (Some (SayRound Flip (snd (fst played))
                   (balance u + round_delta bet win amount)),
           World s' [] (snd played)) ∧
        round_settled now uid Flip bet win amount (DescGameWin Flip (2 # 1))
          u s s'.
Proof.
  intros Hu Hgame Hmin Hbal played win amount.
  unfold handle_bet_input. enter_round Hu.
  rewrite (proj2 (Qltb_ge _ _) Hmin), (proj2 (Qltb_ge _ _) Hbal), Hgame.
  unfold bind at 1. rewrite lift_rand_ok. fold played.
  subst win amount. destruct played as [[[win amount] result] g'].
  cbn [fst snd].
  destruct (round_tail_ok s g' now uid u Flip bet win amount
              (ret (DescGameWin Flip (2 # 1))) (DescGameWin Flip (2 # 1))
              result Hu (fun _ => eq_refl)) as (s' & Hrun & Hfacts).
  rewrite Hrun. by exists s'.
Qed.

Lemma play_flip_delta bet choice g :
  round_delta bet (fst (fst (fst (GameEngine.play_flip bet choice g))))
              (snd (fst (fst (GameEngine.play_flip bet choice g)))) =
  (if fst (fst (fst (GameEngine.play_flip bet choice g)))
   then bet * (2 # 1) - bet else - bet)%Q.
Proof.
  unfold GameEngine.play_flip, rbind, random, rret, round_delta,
    Config.flip_multiplier.
  destruct (Qltb _ Config.flip_special_event_chance); [done|].
  by destruct (Qltb _ Config.flip_win_chance).
Qed.

Lemma handle_dice_bet_ok s g now uid u bet data :
  users s !! uid = Some u →
  (Config.MIN_BETS_dice <= bet)%Q →
  (bet <= balance u)%Q →
  let roll := 1 + Z.of_nat (rnd_index g (cursor g) mod 6) in
  let win := bool_decide (dice_number data = Some roll) in
  let amount := (if win then bet * (3 # 1) else 0)%Q in
  ∃ s', run (handle_dice_bet now uid data (Some bet)) s g =
          (Some (SayRound Dice
                   (if win then DiceGuessed roll (bet * (3 # 1))
                    else DiceMissed roll (dice_number data) bet)
                   (balance u + round_delta bet win amount)),
           World s' [] (advance g)) ∧
        round_settled now uid Dice bet win amount (DescGameWin Dice (3 # 1))
          u s s'.
Proof.
  intros Hu Hmin Hbal roll win amount.
  unfold handle_dice_bet. enter_round Hu.
  rewrite (proj2 (Qltb_ge _ _) Hmin), (proj2 (Qltb_ge _ _) Hbal).
  unfold bind at 1. rewrite lift_rand_ok, play_dice_eq. fold roll win.
  destruct (round_tail_ok s (advance g) now uid u Dice bet win amount
              (ret (DescGameWin Dice (3 # 1))) (DescGameWin Dice (3 # 1))
              (if win then DiceGuessed roll (bet * (3 # 1))
               else DiceMissed roll (dice_number data) bet) Hu
              (fun _ => eq_refl))
    as (s' & Hrun & Hfacts).
  exists s'. split; [|exact Hfacts].
  subst amount. destruct win; cbn [fst snd]; by rewrite Hrun.
Qed.

(** A crash round that passes the balance check: settled, unless the bet
    is zero and the engine reports a win. *)
Lemma handle_crash_play_ok s g now uid u bet :
  users s !! uid = Some u →
  (bet <= balance u)%Q →
  let played := GameEngine.play_crash bet g in
  let win := fst (fst (fst played)) in
  let amount := snd (fst (fst played)) in
  ∃ s' reply,
    run (handle_crash_play now uid (Some bet)) s g =
      (Some reply, World s' [] (snd played)) ∧
    if win && Qeq_bool bet 0
    then reply = SayError ∧
         s' = put_user uid (with_balance (balance u + (amount - bet)) u) s
    else reply = SayRound Crash (snd (fst played))
                   (balance u + round_delta bet win amount) ∧
         round_settled now uid Crash bet win amount
           (DescGameWin Crash (amount / bet)) u s s'.
Proof.
  intros Hu Hbal played win amount.
  unfold handle_crash_play. enter_round Hu.
  rewrite (proj2 (Qltb_ge _ _) Hbal).
  unfold bind at 1. rewrite lift_rand_ok. fold played.
  subst win amount. destruct played as [[[win amount] result] g'].
  cbn [fst snd].
  destruct win, (Qeq_bool bet 0) eqn:E; cbn [andb].
  - rewrite (ratio_descr_zero Crash amount bet E).
    rewrite (round_tail_raises s g' now uid u Crash bet amount result Hu).
    by eexists _, _.
  - destruct (round_tail_ok s g' now uid u Crash bet true amount
                (ratio_descr Crash amount bet) (DescGameWin Crash (amount / bet))
                result Hu (fun _ => ratio_descr_nonzero Crash amount bet E))
      as (s' & Hrun & Hfacts).
    rewrite Hrun. by eexists _, _.
  - destruct (round_tail_ok s g' now uid u Crash bet false amount
                (ratio_descr Crash amount bet) (DescGameWin Crash (amount / bet))
                result Hu (fun H => False_ind _ (Bool.diff_false_true H)))
      as (s' & Hrun & Hfacts).
    rewrite Hrun. by eexists _, _.
  - destruct (round_tail_ok s g' now uid u Crash bet false amount
                (ratio_descr Crash amount bet) (DescGameWin Crash (amount / bet))
                result Hu (fun H => False_ind _ (Bool.diff_false_true H)))
      as (s' & Hrun & Hfacts).
    rewrite Hrun. by eexists _, _.
Qed.

Lemma handle_slot_play_ok s g now uid u bet :
  users s !! uid = Some u →
  (bet <= balance u)%Q →
  let played := GameEngine.play_slot bet g in
  let win := fst (fst (fst (fst played))) in
  let amount := snd (fst (fst (fst played))) in
  ∃ s' reply,
    run (handle_slot_play now uid (Some bet)) s g =
      (Some reply, World s' [] (snd played)) ∧
    if win && Qeq_bool bet 0
    then reply = SayError ∧
         s' = put_user uid (with_balance (balance u + (amount - bet)) u) s
    else reply = SayRound Slot (snd (fst (fst played)))
                   (balance u + round_delta bet win amount) ∧
         round_settled now uid Slot bet win amount
           (DescGameWin Slot (amount / bet)) u s s'.
Proof.
  intros Hu Hbal played win amount.
  unfold handle_slot_play. enter_round Hu.
  rewrite (proj2 (Qltb_ge _ _) Hbal).
  unfold bind at 1. rewrite lift_rand_ok. fold played.
  subst win amount. destruct played as [[[[win amount] result] reels] g'].
  cbn [fst snd].
  destruct win, (Qeq_bool bet 0) eqn:E; cbn [andb].
  - rewrite (ratio_descr_zero Slot amount bet E).
    rewrite (round_tail_raises s g' now uid u Slot bet amount result Hu).
    by eexists _, _.
  - destruct (round_tail_ok s g' now uid u Slot bet true amount
                (ratio_descr Slot amount bet) (DescGameWin Slot (amount / bet))
                result Hu (fun _ => ratio_descr_nonzero Slot amount bet E))
      as (s' & Hrun & Hfacts).
    rewrite Hrun. by eexists _, _.
  - destruct (round_tail_ok s g' now uid u Slot bet false amount
                (ratio_descr Slot amount bet) (DescGameWin Slot (amount / bet))
                result Hu (fun H => False_ind _ (Bool.diff_false_true H)))
      as (s' & Hrun & Hfacts).
    rewrite Hrun. by eexists _, _.
  - destruct (round_tail_ok s g' now uid u Slot bet false amount
                (ratio_descr Slot amount bet) (DescGameWin Slot (amount / bet))
                result Hu (fun H => False_ind _ (Bool.diff_false_true H)))
      as (s' & Hrun & Hfacts).
    rewrite Hrun. by eexists _, _.
Qed.

(** X5. A flip bet that passes the checks (account exists, conversation
    in a flip game, bet at least 1 and covered by the balance) plays one
    round and settles it: the answer shows the new balance, the balance
    moves by [+bet] on a win and [-bet] on a loss, exactly one
    transaction of that amount and of kind [game_win] or [game_lose] is
    appended, the wagered total grows by the bet, [games_played] by one
    and [games_won] by one on a win only; no other account and no other
    table changes. *)
Theorem flip_round s g now uid u bet data :
  users s !! uid = Some u →
  game_type data = Some Flip →
  (Config.MIN_BETS_flip <= bet)%Q →
  (bet <= balance u)%Q →
  let played := GameEngine.play_flip bet (default "" (flip_choice data)) g in
  let win := fst (fst (fst played)) in
  let amount := snd (fst (fst played)) in
  let out := run (handle_bet_input now uid data (Some bet)) s g in
  fst out = Some (SayRound Flip (snd (fst played))
                    (balance u + round_delta bet win amount)) ∧
  rand (snd out) = snd played ∧
  faults (snd out) = [] ∧
  round_settled now uid Flip bet win amount (DescGameWin Flip (2 # 1)) u s
    (store (snd out)) ∧
  round_delta bet win amount = (if win then bet * (2 # 1) - bet else - bet)%Q.
Proof.
  intros Hu Hgame Hmin Hbal played win amount out.
  destruct (handle_bet_input_ok s g now uid u bet data Hu Hgame Hmin Hbal)
    as (s' & Hout & Hfacts).
  subst out. rewrite Hout.
  exact (conj eq_refl (conj eq_refl (conj eq_refl
           (conj Hfacts (play_flip_delta bet _ g))))).
Qed.

Lemma flip_round_witness :
  users funded !! 1 = Some ann ∧
  (Config.MIN_BETS_flip <= 5 # 1)%Q ∧ (5 # 1 <= balance ann)%Q ∧
  fst (run (handle_bet_input 200 1 heads_on_flip (Some (5 # 1))) funded calm) =
    Some (SayRound Flip (FlipLost "heads" (5 # 1)) ((20 # 1) + - (5 # 1))%Q).
Proof.
  assert (H1 : users funded !! 1 = Some ann) by reflexivity.
  assert (H2 : (Config.MIN_BETS_flip <= 5 # 1)%Q) by discriminate.
  assert (H3 : (5 # 1 <= balance ann)%Q) by discriminate.
  destruct (flip_round funded calm 200 1 ann (5 # 1) heads_on_flip
              H1 eq_refl H2 H3) as (Hreply & _).
  exact (conj H1 (conj H2 (conj H3 Hreply))).
Defined.

(** X6. A dice bet that passes the checks of [handle_dice_bet] is settled
    in the same way: it is won exactly when the number kept by the
    conversation equals the roll, and the balance then moves by twice
    the bet (three times the bet paid, the bet taken), by minus the bet
    otherwise. *)
Theorem dice_round s g now uid u bet data :
  users s !! uid = Some u →
  (Config.MIN_BETS_dice <= bet)%Q →
  (bet <= balance u)%Q →
  let roll := 1 + Z.of_nat (rnd_index g (cursor g) mod 6) in
  let win := bool_decide (dice_number data = Some roll) in
  let delta := (if win then bet * (3 # 1) - bet else - bet)%Q in
  let out := run (handle_dice_bet now uid data (Some bet)) s g in
  fst out =
    Some (SayRound Dice
            (if win then DiceGuessed roll (bet * (3 # 1))
             else DiceMissed roll (dice_number data) bet)
            (balance u + delta)) ∧
  snd out = World (store (snd out)) [] (advance g) ∧
  round_settled now uid Dice bet win (if win then bet * (3 # 1) else 0)
    (DescGameWin Dice (3 # 1)) u s (store (snd out)) ∧
  round_delta bet win (if win then bet * (3 # 1) else 0) = delta.
Proof.
  intros Hu Hmin Hbal roll win delta out.
  destruct (handle_dice_bet_ok s g now uid u bet data Hu Hmin Hbal)
    as (s' & Hout & Hfacts).
  fold roll win in Hout, Hfacts.
  assert (Hd : round_delta bet win (if win then (bet * (3 # 1))%Q else 0%Q) = delta)
    by (subst delta; unfold round_delta; by destruct win).
  subst out. rewrite Hout, Hd.
  exact (conj eq_refl (conj eq_refl (conj Hfacts eq_refl))).
Qed.

Lemma dice_round_witness :
  users funded !! 1 = Some ann ∧
  (Config.MIN_BETS_dice <= 5 # 1)%Q ∧ (5 # 1 <= balance ann)%Q ∧
  fst (run (handle_dice_bet 200 1 (FsmData None None (Some 1)) (Some (5 # 1)))
           funded calm) =
    Some (SayRound Dice (DiceGuessed 1 ((5 # 1) * (3 # 1))%Q)
            ((20 # 1) + ((5 # 1) * (3 # 1) - (5 # 1)))%Q).
Proof.
  assert (H1 : users funded !! 1 = Some ann) by reflexivity.
  assert (H2 : (Config.MIN_BETS_dice <= 5 # 1)%Q) by discriminate.
  assert (H3 : (5 # 1 <= balance ann)%Q) by discriminate.
  destruct (dice_round funded calm 200 1 ann (5 # 1)
              (FsmData None None (Some 1)) H1 H2 H3) as (Hreply & _).
  exact (conj H1 (conj H2 (conj H3 Hreply))).
Defined.

Lemma Qeq_bool_false (q : Q) : ¬ (q == 0)%Q → Qeq_bool q 0 = false.
Proof.
  intros H. destruct (Qeq_bool q 0) eqn:E; [|done].
  apply Qeq_bool_iff in E. contradiction.
Qed.

(** X7. A crash or slot round with a bet other than zero that the
    balance covers is settled like a flip round, for whatever the engine
    returned: one balance change of [amount - bet] or [-bet], one
    transaction of that amount, one update of the statistics, nothing
    else; the winning transaction is described by the ratio
    [amount / bet]. *)
Theorem crash_and_slot_round s g now uid u bet :
  users s !! uid = Some u →
  (bet <= balance u)%Q →
  ¬ (bet == 0)%Q →
  (let played := GameEngine.play_crash bet g in
   let win := fst (fst (fst played)) in
   let amount := snd (fst (fst played)) in
   let out := run (handle_crash_play now uid (Some bet)) s g in
   fst out = Some (SayRound Crash (snd (fst played))
                     (balance u + round_delta bet win amount)) ∧
   rand (snd out) = snd played ∧ faults (snd out) = [] ∧
   round_settled now uid Crash bet win amount
     (DescGameWin Crash (amount / bet)) u s (store (snd out))) ∧
  (let played := GameEngine.play_slot bet g in
   let win := fst (fst (fst (fst played))) in
   let amount := snd (fst (fst (fst played))) in
   let out := run (handle_slot_play now uid (Some bet)) s g in
   fst out = Some (SayRound Slot (snd (fst (fst played)))
                     (balance u + round_delta bet win amount)) ∧
   rand (snd out) = snd played ∧ faults (snd out) = [] ∧
   round_settled now uid Slot bet win amount
     (DescGameWin Slot (amount / bet)) u s (store (snd out))).
Proof.
  intros Hu Hbal Hbet. apply Qeq_bool_false in Hbet. split.
  - intros played win amount out.
    destruct (handle_crash_play_ok s g now uid u bet Hu Hbal)
      as (s' & reply & Hout & Hcase).
    rewrite Hbet, andb_false_r in Hcase. destruct Hcase as [-> Hfacts].
    subst out. rewrite Hout.
    exact (conj eq_refl (conj eq_refl (conj eq_refl Hfacts))).
  - intros played win amount out.
    destruct (handle_slot_play_ok s g now uid u bet Hu Hbal)
      as (s' & reply & Hout & Hcase).
    rewrite Hbet, andb_false_r in Hcase. destruct Hcase as [-> Hfacts].
    subst out. rewrite Hout.
    exact (conj eq_refl (conj eq_refl (conj eq_refl Hfacts))).
Qed.

Lemma crash_and_slot_round_witness :
  users funded !! 1 = Some ann ∧
  (5 # 1 <= balance ann)%Q ∧ ¬ (5 # 1 == 0)%Q ∧
  fst (run (handle_crash_play 200 1 (Some (5 # 1))) funded calm) =
    Some (SayRound Crash CrashInstant ((20 # 1) + - (5 # 1))%Q).
Proof.
  assert (H1 : users funded !! 1 = Some ann) by reflexivity.
  assert (H2 : (5 # 1 <= balance ann)%Q) by discriminate.
  assert (H3 : ¬ (5 # 1 == 0)%Q) by discriminate.
  destruct (crash_and_slot_round funded calm 200 1 ann (5 # 1) H1 H2 H3)
    as ((Hreply & _) & _).
  exact (conj H1 (conj H2 (conj H3 Hreply))).
Defined.

(** X8. A crash or slot round with a zero bet that the engine reports as
    won is answered with the error message: the balance update (by
    zero) is made, formatting the ratio [amount / bet] then raises, and
    neither the transaction nor the statistics are written. *)
Theorem zero_bet_win_unrecorded s g now uid u bet :
  users s !! uid = Some u →
  (bet == 0)%Q →
  (0 <= balance u)%Q →
  (fst (fst (fst (GameEngine.play_crash bet g))) = true →
   let out := run (handle_crash_play now uid (Some bet)) s g in
   fst out = Some SayError ∧
   transactions (store (snd out)) = transactions s ∧
   ∃ u', users (store (snd out)) !! uid = Some u' ∧
         (balance u' == balance u)%Q ∧
         games_played u' = games_played u ∧
         total_wagered u' = total_wagered u) ∧
  (fst (fst (fst (fst (GameEngine.play_slot bet g)))) = true →
   let out := run (handle_slot_play now uid (Some bet)) s g in
   fst out = Some SayError ∧
   transactions (store (snd out)) = transactions s ∧
   ∃ u', users (store (snd out)) !! uid = Some u' ∧
         (balance u' == balance u)%Q ∧
         games_played u' = games_played u ∧
         total_wagered u' = total_wagered u).
Proof.
  intros Hu Hzero Hnonneg.
  assert (Hbal : (bet <= balance u)%Q) by lra.
  assert (Hb : Qeq_bool bet 0 = true) by (by apply Qeq_bool_iff).
  split.
  - intros Hwin out.
    destruct (handle_crash_play_ok s g now uid u bet Hu Hbal)
      as (s' & reply & Hout & Hcase).
    rewrite Hwin, Hb in Hcase. destruct Hcase as [-> ->].
    subst out. rewrite Hout. split; [done|]. split; [done|].
    eexists. split; [apply users_put_user|]. simpl.
    pose proof (play_crash_zero bet g Hzero). repeat split. lra.
  - intros Hwin out.
    destruct (handle_slot_play_ok s g now uid u bet Hu Hbal)
      as (s' & reply & Hout & Hcase).
    rewrite Hwin, Hb in Hcase. destruct Hcase as [-> ->].
    subst out. rewrite Hout. split; [done|]. split; [done|].
    eexists. split; [apply users_put_user|]. simpl.
    pose proof (play_slot_zero bet g Hzero). repeat split. lra.
Qed.

Lemma zero_bet_win_unrecorded_witness :
  users funded !! 1 = Some ann ∧ (0 == 0)%Q ∧ (0 <= balance ann)%Q ∧
  fst (fst (fst (GameEngine.play_crash 0 soaring))) = true ∧
  fst (run (handle_crash_play 200 1 (Some 0%Q)) funded soaring) = Some SayError.
Proof.
  assert (H1 : users funded !! 1 = Some ann) by reflexivity.
  assert (H2 : (0 == 0)%Q) by reflexivity.
  assert (H3 : (0 <= balance ann)%Q) by discriminate.
  assert (H4 : fst (fst (fst (GameEngine.play_crash 0 soaring))) = true)
    by reflexivity.
  destruct (zero_bet_win_unrecorded funded soaring 200 1 ann 0%Q H1 H2 H3)
    as (Hcrash & _).
  exact (conj H1 (conj H2 (conj H3 (conj H4 (proj1 (Hcrash H4)))))).
Defined.

(** X9. A bet sent while the conversation data does not name the flip
    game (the dice flow never sets [game_type]) and that passes the
    minimum and balance checks of [handle_bet_input] is dropped: no
    round is played, no draw is made, nothing is written and nothing is
    answered. *)
Theorem bet_without_flip_dropped s g now uid u bet data :
  users s !! uid = Some u →
  game_type data ≠ Some Flip →
  (Config.MIN_BETS_flip <= bet)%Q →
  (bet <= balance u)%Q →
  run (handle_bet_input now uid data (Some bet)) s g =
    (Some SayNothing, World s [] g).
Proof.
  intros Hu Hgame Hmin Hbal. unfold handle_bet_input. enter_round Hu.
  rewrite (proj2 (Qltb_ge _ _) Hmin), (proj2 (Qltb_ge _ _) Hbal).
  destruct (game_type data) as [[]|]; done.
Qed.

Lemma bet_without_flip_dropped_witness :
  users funded !! 1 = Some ann ∧
  game_type (FsmData None None (Some 4)) ≠ Some Flip ∧
  (Config.MIN_BETS_flip <= 5 # 1)%Q ∧ (5 # 1 <= balance ann)%Q ∧
  run (handle_bet_input 200 1 (FsmData None None (Some 4)) (Some (5 # 1)))
      funded calm = (Some SayNothing, World funded [] calm).
Proof.
  assert (H1 : users funded !! 1 = Some ann) by reflexivity.
  assert (H2 : game_type (FsmData None None (Some 4)) ≠ Some Flip) by discriminate.
  assert (H3 : (Config.MIN_BETS_flip <= 5 # 1)%Q) by discriminate.
  assert (H4 : (5 # 1 <= balance ann)%Q) by discriminate.
  exact (conj H1 (conj H2 (conj H3 (conj H4
    (bet_without_flip_dropped funded calm 200 1 ann (5 # 1)
       (FsmData None None (Some 4)) H1 H2 H3 H4))))).
Defined.

(** ** Bets below one ticket, and the floor under the balance *)

Lemma int_of_below_one bet : (bet < 1)%Q → Z.to_nat (int_of bet) = 0%nat.
Proof.
  unfold Qlt, int_of. destruct bet as [a d]; simpl. intros H.
  assert (Z.quot a (Z.pos d) <= 0); [|lia].
  destruct (Z.le_gt_cases 0 a) as [Ha|Ha].
  - rewrite Z.quot_small; lia.
  - apply Z.quot_le_upper_bound; lia.
Qed.

(** X10. A jackpot bet below 1, zero and negative ones included, buys no
    ticket: no draw is made and the round cannot win, yet the bet is
    booked like any other: the balance moves by minus the bet (up, when
    the bet is negative), a [game_lose] transaction of that amount is
    written and a game is counted as played. *)
Theorem jackpot_below_one_ticket s g now uid u bet :
  users s !! uid = Some u →
  (bet < 1)%Q →
  (bet <= balance u)%Q →
  let out := run (handle_jackpot_play now uid (Some bet)) s g in
  fst out = Some (SayJackpot (int_of bet) bet TicketsLost (balance u + - bet)) ∧
  cursor (rand (snd out)) = cursor g ∧
  transactions (store (snd out)) =
    transactions s ++
      [TxRow uid (- bet) game_lose (DescTicketsBought (int_of bet)) now] ∧
  ∃ u', users (store (snd out)) !! uid = Some u' ∧
        balance u' = (balance u + - bet)%Q ∧
        total_wagered u' = (total_wagered u + bet)%Q ∧
        games_played u' = games_played u + 1 ∧
        games_won u' = games_won u.
Proof.
  intros Hu Hlow Hbal out. subst out.
  rewrite (handle_jackpot_play_ok s g now uid u bet Hu Hbal).
  rewrite (int_of_below_one bet Hlow).
  change (winning_tickets g 0) with 0%nat. cbn [Nat.ltb Nat.leb fst snd].
  repeat split. eexists. split; [apply users_put_user|]. by repeat split.
Qed.

Lemma jackpot_below_one_ticket_witness :
  users funded !! 1 = Some ann ∧
  (1 # 2 < 1)%Q ∧ (1 # 2 <= balance ann)%Q ∧
  fst (run (handle_jackpot_play 200 1 (Some (1 # 2))) funded lucky) =
    Some (SayJackpot 0 (1 # 2) TicketsLost ((20 # 1) + - (1 # 2))%Q).
Proof.
  assert (H1 : users funded !! 1 = Some ann) by reflexivity.
  assert (H2 : (1 # 2 < 1)%Q) by reflexivity.
  assert (H3 : (1 # 2 <= balance ann)%Q) by discriminate.
  destruct (jackpot_below_one_ticket funded lucky 200 1 ann (1 # 2) H1 H2 H3)
    as (Hreply & _).
  exact (conj H1 (conj H2 (conj H3 Hreply))).
Defined.












(** ** The subscription gate *)

Lemma forallb_sponsors_status s uid :
  forallb snd (sponsors_status s uid) = true ↔ subscribed_to_all s uid.
Proof.
  unfold sponsors_status, subscribed_to_all, q_select_subscriptions.
  rewrite forallb_forall. cbn [fst]. split.
  - intros H sp Hsp.
    specialize (H (sp, match user_sponsors s !! (uid, sponsor_id sp) with
                       | Some r => is_subscribed r | None => false end)).
    cbn [snd] in H.
    destruct (user_sponsors s !! (uid, sponsor_id sp)) as [r|] eqn:E.
    + exists r. split; [done|]. apply H, in_map_iff. exists sp.
      rewrite E. split; [done|]. by apply list_elem_of_In.
    + exfalso. enough (false = true) by done. apply H, in_map_iff.
      exists sp. rewrite E. split; [done|]. by apply list_elem_of_In.
  - intros H [sp b] Hin. apply in_map_iff in Hin as (sp' & [= <- <-] & Hsp).
    apply list_elem_of_In in Hsp. destruct (H sp' Hsp) as (r & -> & Hr).
    exact Hr.
Qed.

(** X12. When no storage call fails, the subscription check passes
    exactly when every listed sponsor has a row for the user with
    [is_subscribed] true (so it passes when no sponsor is listed); it
    reads only. *)
Theorem subscription_check_exact s g uid :
  ∃ b, run (check_subscriptions uid) s g = (Some b, World s [] g) ∧
       (b = true ↔ subscribed_to_all s uid) ∧
       (sponsors s = [] → b = true).
Proof.
  exists (forallb snd (sponsors_status s uid)).
  unfold run. rewrite check_subscriptions_ok. split; [done|].
  split; [apply forallb_sponsors_status|].
  intros E. unfold sponsors_status. by rewrite E.
Qed.

(** X13. The subscription check fails open.  Whatever storage calls fail
    it answers and writes nothing; it answers [False] only if some
    listed sponsor really lacks a subscribed row, and it answers [True]
    as soon as one of its first two storage calls fails, subscribed or
    not. *)
Theorem subscription_check_fails_open s fs g uid :
  ∃ b fs', check_subscriptions uid (World s fs g) = (Some b, World s fs' g) ∧
           (b = false → ¬ subscribed_to_all s uid) ∧
           (fs !! 0%nat = Some true ∨ fs !! 1%nat = Some true → b = true).
Proof.
  unfold check_subscriptions, get_user_sponsors_status, get_sponsors,
    try_, bind, execute, ret, q_select_sponsors, q_select_subscriptions.
  destruct fs as [|[] fs]; cbn.
  - destruct (sponsors s) as [|sp sps] eqn:E; cbn.
    + eexists _, _. split; [done|]. split; [done|]. intros [?|?]; done.
    + eexists _, _. split; [done|]. split; [|intros [?|?]; done].
      intros Hb Hall. apply forallb_sponsors_status in Hall.
      unfold sponsors_status, q_select_subscriptions in Hall.
      rewrite E in Hall. cbn in Hall. congruence.
  - eexists _, _. split; [done|]. split; [done|]. done.
  - destruct (sponsors s) as [|sp sps] eqn:E; cbn.
    + eexists _, _. split; [done|]. split; [done|]. done.
    + destruct fs as [|[] fs]; cbn.
      * eexists _, _. split; [done|]. split; [|intros [?|?]; done].
        intros Hb Hall. apply forallb_sponsors_status in Hall.
        unfold sponsors_status, q_select_subscriptions in Hall.
        rewrite E in Hall. cbn in Hall. congruence.
      * eexists _, _. split; [done|]. split; [done|]. done.
      * eexists _, _. split; [done|]. split; [|intros [?|?]; done].
        intros Hb Hall. apply forallb_sponsors_status in Hall.
        unfold sponsors_status, q_select_subscriptions in Hall.
        rewrite E in Hall. cbn in Hall. congruence.
Qed.

Lemma marked_cons now uid sp sps s :
  marked now uid (sp :: sps) s =
  marked now uid sps
    (snd (q_upsert_subscription uid (sponsor_id sp) (SubRow true now) s)).
Proof. reflexivity. Qed.

Lemma mark_subscribed_ok now uid g sps : ∀ s,
  mark_subscribed now uid sps (World s [] g) =
  (Some tt, World (marked now uid sps s) [] g).
Proof.
  induction sps as [|sp sps IH]; intros s; [done|].
  cbn [mark_subscribed]. unfold bind at 1.
  change (update_user_sponsor_status now uid (sponsor_id sp) true (World s [] g))
    with (Some true,
          World (snd (q_upsert_subscription uid (sponsor_id sp) (SubRow true now) s))
                [] g).
  cbv beta iota. by rewrite IH, marked_cons.
Qed.

Lemma marked_rest now uid sps : ∀ s,
  users (marked now uid sps s) = users s ∧
  transactions (marked now uid sps s) = transactions s ∧
  sponsors (marked now uid sps s) = sponsors s ∧
  withdrawals (marked now uid sps s) = withdrawals s.
Proof.
  induction sps as [|sp sps IH]; intros s; [done|].
  rewrite marked_cons. by destruct (IH (snd (q_upsert_subscription uid
    (sponsor_id sp) (SubRow true now) s))) as (-> & -> & -> & ->).
Qed.

Lemma marked_stays now uid sps k : ∀ s,
  user_sponsors s !! k = Some (SubRow true now) →
  user_sponsors (marked now uid sps s) !! k = Some (SubRow true now).
Proof.
  induction sps as [|sp sps IH]; intros s Hk; [done|].
  rewrite marked_cons. apply IH. cbn.
  destruct (decide ((uid, sponsor_id sp) = k)) as [<-|Hne].
  - by rewrite lookup_insert_eq.
  - by rewrite lookup_insert_ne.
Qed.

Lemma marked_others now uid sps uid' sid : ∀ s,
  uid' ≠ uid →
  user_sponsors (marked now uid sps s) !! (uid', sid) =
  user_sponsors s !! (uid', sid).
Proof.
  induction sps as [|sp sps IH]; intros s Hne; [done|].
  rewrite marked_cons, IH by done. cbn.
  rewrite lookup_insert_ne; [done|congruence].
Qed.

Lemma marked_all now uid sps sp : ∀ s,
  sp ∈ sps →
  user_sponsors (marked now uid sps s) !! (uid, sponsor_id sp) =
  Some (SubRow true now).
Proof.
  induction sps as [|sp' sps IH]; intros s Hin; [by apply elem_of_nil in Hin|].
  rewrite marked_cons. apply elem_of_cons in Hin as [->|Hin].
  - apply marked_stays. cbn. by rewrite lookup_insert_eq.
  - by apply IH.
Qed.

(** X14. The "check subscriptions" button asks nobody: when no storage
    call fails it marks the user subscribed to every listed sponsor, so
    the subscription check passes for that user right afterwards,
    whatever was stored before.  Accounts, transactions, withdrawals,
    the sponsor list and the subscriptions of other users stay as they
    were. *)
Theorem check_button_opens_gate s g now uid author :
  let out := run (handle_check_subscriptions now uid author) s g in
  let s' := store (snd out) in
  fst out = Some SayAccessOpen ∧
  subscribed_to_all s' uid ∧
  run (check_subscriptions uid) s' g = (Some true, World s' [] g) ∧
  users s' = users s ∧ transactions s' = transactions s ∧
  sponsors s' = sponsors s ∧ withdrawals s' = withdrawals s ∧
  ∀ uid' sid, uid' ≠ uid →
    user_sponsors s' !! (uid', sid) = user_sponsors s !! (uid', sid).
Proof.
  assert (Hout : run (handle_check_subscriptions now uid author) s g =
                 (Some SayAccessOpen, World (marked now uid (sponsors s) s) [] g)).
  { unfold run, handle_check_subscriptions. unfold bind at 1.
    rewrite get_sponsors_ok. cbv beta iota. unfold bind at 1.
    rewrite mark_subscribed_ok. cbv beta iota. unfold bind at 1.
    unfold show_main_menu, bind. by rewrite get_user_ok. }
  intros out s'. subst s' out. rewrite Hout. cbn [fst snd store].
  destruct (marked_rest now uid (sponsors s) s) as (Hu & Ht & Hs & Hw).
  assert (Hall : subscribed_to_all (marked now uid (sponsors s) s) uid).
  { intros sp Hsp. rewrite Hs in Hsp. exists (SubRow true now).
    split; [by apply marked_all|done]. }
  split; [done|]. split; [exact Hall|]. split.
  { unfold run. rewrite check_subscriptions_ok.
    by rewrite (proj2 (forallb_sponsors_status _ _) Hall). }
  split; [done|]. split; [done|]. split; [done|]. split; [done|].
  intros uid' sid Hne. by apply marked_others.
Qed.

(** ** The clicker *)

Lemma put_user_twice uid a b s :
  put_user uid a (put_user uid b s) = put_user uid a s.
Proof.
  unfold put_user, set_users; cbn. f_equal. apply map_eq. intros k.
  destruct (decide (uid = k)) as [<-|Hne].
  - by rewrite !lookup_insert_eq.
  - by rewrite !lookup_insert_ne.
Qed.

Lemma handle_click_ok s g now uid u :
  subscribed_to_all s uid →
  users s !! uid = Some u →
  truthy (last_click u) &&
    (now - default 0 (last_click u) <? Config.CLICK_COOLDOWN) = false →
  let reward := Config.CLICK_REWARD in
  let share := (reward * (Config.CLICK_REFERRAL_PERCENT / (100 # 1)))%Q in
  let u1 := with_last_click now (with_balance (balance u + reward) u) in
  let s1 := record (TxRow uid reward click DescClicker now) (put_user uid u1 s) in
  let s2 :=
    if truthy (referrer_id u) then
      let rid := default 0 (referrer_id u) in
      record (TxRow rid share referral_income (DescClickShare uid) now)
        (match users s1 !! rid with
         | Some r => put_user rid (with_balance (balance r + share) r) s1
         | None => s1
         end)
    else s1 in
  run (handle_click now uid) s g =
  (match users s2 !! uid with
   | Some u' => Some (SayClicked reward (balance u'))
   | None => None
   end, World s2 [] g).
Proof.
  intros Hsub Hu Hcool. cbv zeta.
  unfold run, handle_click. unfold bind at 1.
  rewrite check_subscriptions_ok, (proj2 (forallb_sponsors_status _ _) Hsub).
  cbv beta iota. cbn [negb]. unfold bind at 1. rewrite get_user_ok, Hu.
  cbv beta iota zeta. rewrite Hcool.
  unfold bind at 1. rewrite update_balance_ok, Hu. cbv beta iota.
  unfold bind at 1. rewrite update_last_click_ok, users_put_user. cbv beta iota.
  rewrite put_user_twice.
  unfold bind at 1. rewrite add_transaction_ok. cbv beta iota.
  unfold bind at 1.
  destruct (truthy (referrer_id u)).
  - unfold bind at 1. rewrite update_balance_ok.
    destruct (users _ !! default 0 (referrer_id u)) as [r|];
      cbv beta iota; unfold bind at 1; rewrite add_transaction_ok;
      cbv beta iota; unfold ret at 1; cbv beta iota;
      unfold bind at 1; rewrite get_user_ok; cbv beta iota;
      match goal with |- context [balance_of ?x] => by destruct x end.
  - unfold ret at 1. cbv beta iota.
    unfold bind at 1; rewrite get_user_ok; cbv beta iota.
    match goal with |- context [balance_of ?x] => by destruct x end.
Qed.

Lemma users_put_user_ne uid k x s :
  uid ≠ k → users (put_user uid x s) !! k = users s !! k.
Proof. intros H. cbn. by rewrite lookup_insert_ne. Qed.

Lemma off_cooldown now u :
  (∀ lc, last_click u = Some lc → lc + Config.CLICK_COOLDOWN <= now) →
  truthy (last_click u) &&
    (now - default 0 (last_click u) <? Config.CLICK_COOLDOWN) = false.
Proof.
  intros H. destruct (last_click u) as [lc|]; [|done].
  specialize (H lc eq_refl). cbn [default id].
  apply andb_false_iff. right. apply Z.ltb_ge. lia.
Qed.

(** X15. A click by a subscribed player who never clicked, or clicked at
    least an hour ago, and who has no referrer: when no storage call
    fails the balance grows by 0.2, [last_click] becomes the time of the
    click, one [click] transaction of 0.2 is recorded, and nothing else
    in the database changes. *)
Theorem click_without_referrer s g now uid u :
  subscribed_to_all s uid →
  users s !! uid = Some u →
  (∀ lc, last_click u = Some lc → lc + Config.CLICK_COOLDOWN <= now) →
  referrer_id u = None →
  let out := run (handle_click now uid) s g in
  let s' := store (snd out) in
  fst out = Some (SayClicked (2 # 10) (balance u + (2 # 10))) ∧
  users s' =
    <[uid := with_last_click now (with_balance (balance u + (2 # 10)) u)]> (users s) ∧
  transactions s' = transactions s ++ [TxRow uid (2 # 10) click DescClicker now] ∧
  sponsors s' = sponsors s ∧ user_sponsors s' = user_sponsors s ∧
  withdrawals s' = withdrawals s.
Proof.
  intros Hsub Hu Hcool Href out s'. subst s' out.
  rewrite (handle_click_ok s g now uid u Hsub Hu (off_cooldown now u Hcool)).
  rewrite Href. cbn [truthy fst snd store]. rewrite users_record, users_put_user.
  by repeat split.
Qed.

Lemma click_without_referrer_witness :
  subscribed_to_all joined 1 ∧
  users joined !! 1 = Some (UserRow 1 "ann" None 100 (3 # 1) None 0 0 0) ∧
  balance <$> users (after (handle_click 5000 1) joined) !! 1 = Some (32 # 10)%Q.
Proof.
  assert (H1 : subscribed_to_all joined 1)
    by (apply forallb_sponsors_status; vm_compute; reflexivity).
  assert (H2 : users joined !! 1 = Some (UserRow 1 "ann" None 100 (3 # 1) None 0 0 0))
    by (vm_compute; reflexivity).
  assert (H3 : ∀ lc, last_click (UserRow 1 "ann" None 100 (3 # 1) None 0 0 0) = Some lc →
               lc + Config.CLICK_COOLDOWN <= 5000) by (intros lc [=]).
  destruct (click_without_referrer joined calm 5000 1 _ H1 H2 H3 eq_refl)
    as (_ & Husers & _).
  refine (conj H1 (conj H2 _)).
  unfold after. rewrite Husers, lookup_insert_eq. vm_compute. reflexivity.
Defined.



(** X17. When the stored referrer has no account (the link named an id
    that never started the bot), the click still records a
    [referral_income] transaction for that id, while no balance is
    credited and no account is created for it. *)
Theorem click_share_without_account s g now uid u rid :
  subscribed_to_all s uid →
  users s !! uid = Some u →
  (∀ lc, last_click u = Some lc → lc + Config.CLICK_COOLDOWN <= now) →
  referrer_id u = Some rid →
  rid ≠ 0 →
  users s !! rid = None →
  let out := run (handle_click now uid) s g in
  let s' := store (snd out) in
  fst out = Some (SayClicked (2 # 10) (balance u + (2 # 10))) ∧
  users s' =
    <[uid := with_last_click now (with_balance (balance u + (2 # 10)) u)]> (users s) ∧
  users s' !! rid = None ∧
  transactions s' =
    transactions s ++
      [TxRow uid (2 # 10) click DescClicker now;
       TxRow rid ((2 # 10) * ((10 # 1) / (100 # 1))) referral_income
         (DescClickShare uid) now].
Proof.
  intros Hsub Hu Hcool Href Hrid Hr out s'. subst s' out.
  assert (Hne : uid ≠ rid) by congruence.
  rewrite (handle_click_ok s g now uid u Hsub Hu (off_cooldown now u Hcool)).
  rewrite Href. change (default 0 (Some rid)) with rid. cbn [truthy].
  rewrite (proj2 (Z.eqb_neq rid 0) Hrid). cbn [negb].
  rewrite !users_record, users_put_user_ne, Hr by done.
  cbn [fst snd store]. rewrite !users_record, users_put_user.
  split; [done|]. split; [done|]. split.
  - by rewrite users_put_user_ne.
  - cbn. by rewrite <- app_assoc.
Qed.

Lemma click_share_without_account_witness :
  subscribed_to_all relinked 2 ∧
  users relinked !! 2 = Some (UserRow 2 "bob" (Some 7) 102 0 None 0 0 0) ∧
  users relinked !! 7 = None ∧
  users (after (handle_click 5000 2) relinked) !! 7 = None ∧
  last (transactions (after (handle_click 5000 2) relinked)) =
    Some (TxRow 7 ((2 # 10) * ((10 # 1) / (100 # 1))) referral_income
            (DescClickShare 2) 5000).
Proof.
  assert (H1 : subscribed_to_all relinked 2)
    by (apply forallb_sponsors_status; vm_compute; reflexivity).
  assert (H2 : users relinked !! 2 = Some (UserRow 2 "bob" (Some 7) 102 0 None 0 0 0))
    by (vm_compute; reflexivity).
  assert (H3 : ∀ lc, last_click (UserRow 2 "bob" (Some 7) 102 0 None 0 0 0) = Some lc →
               lc + Config.CLICK_COOLDOWN <= 5000) by (intros lc [=]).
  assert (H4 : (7 : Z) ≠ 0) by discriminate.
  assert (H5 : users relinked !! 7 = None) by (vm_compute; reflexivity).
  destruct (click_share_without_account relinked calm 5000 2 _ 7 H1 H2 H3 eq_refl H4 H5)
    as (_ & _ & Hnone & Htx).
  refine (conj H1 (conj H2 (conj H5 (conj Hnone _)))).
  vm_compute. reflexivity.
Defined.

Lemma handle_click_waits s g now uid u lc :
  subscribed_to_all s uid →
  users s !! uid = Some u →
  last_click u = Some lc →
  lc ≠ 0 →
  now - lc < Config.CLICK_COOLDOWN →
  run (handle_click now uid) s g =
  (Some (SayCooldown (Config.CLICK_COOLDOWN - (now - lc))), World s [] g).
Proof.
  intros Hsub Hu Hlc Hnz Hwait.
  unfold run, handle_click. unfold bind at 1.
  rewrite check_subscriptions_ok, (proj2 (forallb_sponsors_status _ _) Hsub).
  cbv beta iota. cbn [negb]. unfold bind at 1. rewrite get_user_ok, Hu.
  cbv beta iota zeta. rewrite Hlc. change (default 0 (Some lc)) with lc.
  cbn [truthy]. rewrite (proj2 (Z.eqb_neq lc 0) Hnz).
  by rewrite (proj2 (Z.ltb_lt _ _) Hwait).
Qed.

Lemma subscribed_to_all_same s s' uid :
  sponsors s' = sponsors s →
  user_sponsors s' = user_sponsors s →
  subscribed_to_all s uid → subscribed_to_all s' uid.
Proof. unfold subscribed_to_all. by intros -> ->. Qed.

Lemma handle_click_paid s g now uid u :
  subscribed_to_all s uid →
  users s !! uid = Some u →
  truthy (last_click u) &&
    (now - default 0 (last_click u) <? Config.CLICK_COOLDOWN) = false →
  ∃ s' u',
    run (handle_click now uid) s g =
      (Some (SayClicked Config.CLICK_REWARD (balance u')), World s' [] g) ∧
    users s' !! uid = Some u' ∧ last_click u' = Some now ∧
    sponsors s' = sponsors s ∧ user_sponsors s' = user_sponsors s.
Proof.
  intros Hsub Hu Hcool.
  rewrite (handle_click_ok s g now uid u Hsub Hu Hcool). cbv zeta.
  set (u1 := with_last_click now (with_balance (balance u + Config.CLICK_REWARD) u)).
  set (s1 := record _ (put_user uid u1 s)).
  assert (H1 : users s1 !! uid = Some u1)
    by (subst s1; by rewrite users_record, users_put_user).
  destruct (truthy (referrer_id u)).
  - set (rid := default 0 (referrer_id u)).
    destruct (users s1 !! rid) as [r|] eqn:Er.
    + destruct (decide (rid = uid)) as [Heq|Hne].
      * rewrite users_record, Heq, users_put_user. eexists _, _.
        split; [done|]. rewrite users_record, users_put_user.
        split; [done|]. rewrite Heq, H1 in Er. injection Er as <-. done.
      * rewrite users_record, users_put_user_ne, H1 by done. eexists _, _.
        split; [done|]. rewrite users_record, users_put_user_ne by done. done.
    + rewrite users_record, H1. eexists _, _. split; [done|].
      rewrite users_record. done.
  - rewrite H1. by eexists _, _.
Qed.

(** X18. After a paid click at a time [now] other than 0, a further
    click by the same player at any time before [now + 3600] is answered
    with the remaining wait, [3600 - (now' - now)] seconds, and changes
    nothing (no storage call failing in either). *)
Theorem second_click_waits s g g' now now' uid u :
  subscribed_to_all s uid →
  users s !! uid = Some u →
  (∀ lc, last_click u = Some lc → lc + Config.CLICK_COOLDOWN <= now) →
  now ≠ 0 →
  now' < now + Config.CLICK_COOLDOWN →
  let s' := store (snd (run (handle_click now uid) s g)) in
  run (handle_click now' uid) s' g' =
  (Some (SayCooldown (3600 - (now' - now))), World s' [] g').
Proof.
  intros Hsub Hu Hcool Hnz Hsoon.
  destruct (handle_click_paid s g now uid u Hsub Hu (off_cooldown now u Hcool))
    as (s1 & u1 & Hout & Hu1 & Hlc & Hsp & Hus).
  rewrite Hout. cbn [snd store].
  apply (handle_click_waits s1 g' now' uid u1 now); try done.
  - by apply (subscribed_to_all_same s).
  - lia.
Qed.

Lemma second_click_waits_witness :
  subscribed_to_all joined 1 ∧
  users joined !! 1 = Some (UserRow 1 "ann" None 100 (3 # 1) None 0 0 0) ∧
  fst (run (handle_click 6000 1) (after (handle_click 5000 1) joined) calm) =
    Some (SayCooldown 2600).
Proof.
  assert (H1 : subscribed_to_all joined 1)
    by (apply forallb_sponsors_status; vm_compute; reflexivity).
  assert (H2 : users joined !! 1 = Some (UserRow 1 "ann" None 100 (3 # 1) None 0 0 0))
    by (vm_compute; reflexivity).
  assert (H3 : ∀ lc, last_click (UserRow 1 "ann" None 100 (3 # 1) None 0 0 0) = Some lc →
               lc + Config.CLICK_COOLDOWN <= 5000) by (intros lc [=]).
  assert (H4 : (5000 : Z) ≠ 0) by discriminate.
  assert (H5 : 6000 < 5000 + Config.CLICK_COOLDOWN) by reflexivity.
  refine (conj H1 (conj H2 _)). unfold after.
  by rewrite (second_click_waits joined calm calm 5000 6000 1 _ H1 H2 H3 H4 H5).
Defined.

(** ** The profile screen *)

Lemma handle_profile_ok s g now uid u :
  subscribed_to_all s uid →
  users s !! uid = Some u →
  run (handle_profile now uid) s g =
  (Some (inr (ProfileText uid (balance u) (active_referrals s uid)
                (length (referrals s uid)) (games_played u) (games_won u)
                (if 0 <? games_played u
                 then (inject_Z (games_won u) / inject_Z (games_played u) * (100 # 1))%Q
                 else 0%Q)
                (total_wagered u)
                (if truthy (last_click u) then
                   if now - default 0 (last_click u) <? Config.CLICK_COOLDOWN
                   then ClickIn (format_time
                          (Config.CLICK_COOLDOWN - (now - default 0 (last_click u))))
                   else ClickNow
                 else ClickNow))),
   World s [] g).
Proof.
  intros Hsub Hu.
  unfold run, handle_profile. unfold bind at 1.
  rewrite check_subscriptions_ok, (proj2 (forallb_sponsors_status _ _) Hsub).
  cbv beta iota. cbn [negb]. unfold bind at 1. rewrite get_user_ok, Hu.
  cbv beta iota. unfold bind at 1. by rewrite get_user_referrals_ok.
Qed.

(** X19. The profile and the clicker agree.  For a subscribed player
    with an account, when no storage call fails: the profile only reads;
    it shows the stored balance and the counts of [get_user_referrals],
    active never above total; where it announces the clicker as
    available "now", a click at that moment is paid, and where it
    announces a wait, that wait is the formatted number of seconds with
    which a click at that moment is refused. *)
Theorem profile_matches_click s g now uid u :
  subscribed_to_all s uid →
  users s !! uid = Some u →
  ∃ p,
    run (handle_profile now uid) s g = (Some (inr p), World s [] g) ∧
    pf_balance p = balance u ∧
    fst (run (get_user_referrals uid) s g) = Some (pf_total_ref p, pf_active_ref p) ∧
    (pf_active_ref p <= pf_total_ref p)%nat ∧
    match pf_next_click p with
    | ClickNow =>
        ∃ b, fst (run (handle_click now uid) s g) = Some (SayClicked (2 # 10) b)
    | ClickIn t =>
        ∃ r, t = format_time r ∧
             run (handle_click now uid) s g = (Some (SayCooldown r), World s [] g)
    end.
Proof.
  intros Hsub Hu. eexists. split; [by apply handle_profile_ok|].
  cbn [pf_balance pf_total_ref pf_active_ref pf_next_click].
  split; [done|]. split; [unfold run; by rewrite get_user_referrals_ok|].
  split.
  { unfold active_referrals. apply length_filter. }
  destruct (truthy (last_click u) &&
            (now - default 0 (last_click u) <? Config.CLICK_COOLDOWN)) eqn:E.
  - apply andb_true_iff in E as [Ht Hlt]. rewrite Ht, Hlt.
    destruct (last_click u) as [lc|] eqn:Elc; [|done].
    change (default 0 (Some lc)) with lc in *.
    eexists. split; [done|].
    apply (handle_click_waits s g now uid u lc); try done.
    + cbn in Ht. apply negb_true_iff in Ht. by apply Z.eqb_neq.
    + by apply Z.ltb_lt.
  - destruct (handle_click_paid s g now uid u Hsub Hu E)
      as (s1 & u1 & Hout & _).
    assert (Hpaid : ∃ b, fst (run (handle_click now uid) s g) =
                         Some (SayClicked (2 # 10) b))
      by (rewrite Hout; by eexists).
    apply andb_false_iff in E as [->|E]; [done|].
    rewrite E. by destruct (truthy (last_click u)).
Qed.

Lemma profile_matches_click_witness :
  subscribed_to_all funded 2 ∧
  users funded !! 2 = Some (UserRow 2 "bob" (Some 1) 101 0 None 0 0 0) ∧
  ∃ p, run (handle_profile 5000 2) funded calm = (Some (inr p), World funded [] calm) ∧
       pf_next_click p = ClickNow.
Proof.
  assert (H1 : subscribed_to_all funded 2)
    by (apply forallb_sponsors_status; vm_compute; reflexivity).
  assert (H2 : users funded !! 2 = Some (UserRow 2 "bob" (Some 1) 101 0 None 0 0 0))
    by reflexivity.
  destruct (profile_matches_click funded calm 5000 2 _ H1 H2)
    as (p & Hp & _).
  refine (conj H1 (conj H2 _)). exists p. split; [exact Hp|].
  rewrite (handle_profile_ok funded calm 5000 2 _ H1 H2) in Hp.
  by injection Hp as <-.
Defined.

(** ** What no handler ever does, whatever storage call fails *)

Local Ltac reads_with known :=
  repeat first
    [ known
    | apply get_user_reads | apply get_sponsors_reads
    | apply get_user_sponsors_status_reads
    | apply get_user_referrals_reads
    | apply (keeps_ret eq)
    | apply (keeps_raise eq)
    | apply keeps_try
    | apply (keeps_bind eq); [|intros ?]
    | apply (keeps_execute eq); solve [auto]
    | match goal with
      | |- keeps _ (match ?x with _ => _ end) => destruct x
      | |- keeps _ (if ?b then _ else _) => destruct b
      | |- keeps _ (let '(_, _) := ?x in _) => destruct x
      end ].

Lemma check_subscriptions_reads uid : keeps eq (check_subscriptions uid).
Proof. unfold check_subscriptions. reads_with fail. Qed.

Lemma show_main_menu_reads uid : keeps eq (show_main_menu uid).
Proof. unfold show_main_menu. reads_with fail. Qed.

Lemma show_sponsors_message_reads uid : keeps eq (show_sponsors_message uid).
Proof.
  unfold show_sponsors_message. reads_with ltac:(apply show_main_menu_reads).
Qed.

Lemma get_stats_reads : keeps eq get_stats.
Proof. unfold get_stats. reads_with fail. Qed.

(** X20. The screens that only show something never write: whatever
    storage calls fail, the profile, the referral screen, the withdrawal
    menu and the statistics query leave the database exactly as it
    was. *)
Theorem screens_only_read now uid :
  keeps eq (handle_profile now uid) ∧
  keeps eq (handle_referral uid) ∧
  keeps eq (handle_withdraw_menu uid) ∧
  keeps eq get_stats.
Proof.
  split; [|split; [|split]].
  - unfold handle_profile. reads_with ltac:(apply check_subscriptions_reads).
  - unfold handle_referral. reads_with ltac:(apply check_subscriptions_reads).
  - unfold handle_withdraw_menu. reads_with ltac:(apply check_subscriptions_reads).
  - apply get_stats_reads.
Qed.

#[local] Instance grown_preorder : PreOrder grown.
Proof.
  split.
  - intros s. split; [by exists []; rewrite app_nil_r|].
    split; [exists []; by rewrite app_nil_r|]. done.
  - intros s1 s2 s3 ((l1 & Ht1) & (m1 & Hw1 & Hp1) & Hs1 & Hu1 & Hk1)
      ((l2 & Ht2) & (m2 & Hw2 & Hp2) & Hs2 & Hu2 & Hk2).
    split; [exists (l1 ++ l2); by rewrite Ht2, Ht1, app_assoc|].
    split.
    { exists (m1 ++ m2). split; [by rewrite Hw2, Hw1, app_assoc|].
      by apply Forall_app. }
    split; [congruence|]. split; eauto.
Qed.

Lemma grown_users f s :
  (∀ uid, is_Some (users s !! uid) → is_Some (f (users s) !! uid)) →
  grown s (set_users f s).
Proof.
  intros H. split; [by exists []; rewrite app_nil_r|].
  split; [exists []; by rewrite app_nil_r|]. done.
Qed.

Lemma grown_update uid f s : grown s (snd (q_update_user uid f s)).
Proof.
  unfold q_update_user. destruct (users s !! uid) as [u|] eqn:E; [|reflexivity].
  apply grown_users. intros k Hk. destruct (decide (uid = k)) as [<-|Hne].
  - by rewrite lookup_insert_eq.
  - by rewrite lookup_insert_ne.
Qed.

Lemma grown_upsert u s : grown s (snd (q_upsert_user u s)).
Proof.
  apply grown_users. intros k Hk. destruct (decide (user_id u = k)) as [<-|Hne].
  - by rewrite lookup_insert_eq.
  - by rewrite lookup_insert_ne.
Qed.

Lemma grown_transaction t s : grown s (snd (q_insert_transaction t s)).
Proof.
  split; [by exists [t]|]. split; [exists []; by rewrite app_nil_r|]. done.
Qed.

Lemma grown_withdrawal now uid a s : grown s (snd (q_insert_withdrawal now uid a s)).
Proof.
  split; [by exists []; rewrite app_nil_r|].
  split; [|done]. eexists [_]. split; [done|]. by repeat constructor.
Qed.

Lemma grown_subscription uid sid r s :
  grown s (snd (q_upsert_subscription uid sid r s)).
Proof.
  split; [by exists []; rewrite app_nil_r|].
  split; [exists []; by rewrite app_nil_r|]. split; [done|]. split; [done|].
  intros k Hk. cbn. destruct (decide ((uid, sid) = k)) as [<-|Hne].
  - by rewrite lookup_insert_eq.
  - by rewrite lookup_insert_ne.
Qed.

Section Starts.
Context (R : relation db) `{!PreOrder R}.
Hypothesis R_balance : ∀ uid b s, R s (snd (q_update_user uid (with_balance b) s)).
Hypothesis R_tx : ∀ t s, R s (snd (q_insert_transaction t s)).
Hypothesis R_user : ∀ u s, R s (snd (q_upsert_user u s)).
Hypothesis R_sub : ∀ uid sid r s, R s (snd (q_upsert_subscription uid sid r s)).

Local Ltac starts_with known :=
  repeat first
    [ known
    | apply (reads_keep R);
      first [ apply get_user_reads | apply get_sponsors_reads
            | apply check_subscriptions_reads
            | apply show_main_menu_reads
            | apply show_sponsors_message_reads ]
    | apply (keeps_ret R)
    | apply keeps_try
    | apply (keeps_bind R); [|intros ?]
    | apply (keeps_execute R); solve [auto]
    | match goal with
      | |- keeps _ (match ?x with _ => _ end) => destruct x
      | |- keeps _ (if ?b then _ else _) => destruct b
      end ].

Lemma update_balance_starts uid amount : keeps R (update_balance uid amount).
Proof. unfold update_balance. starts_with fail. Qed.

Lemma add_transaction_starts now uid amount type description :
  keeps R (add_transaction now uid amount type description).
Proof. unfold add_transaction. starts_with fail. Qed.

Lemma create_user_keeps now uid name referrer :
  keeps R (create_user now uid name referrer).
Proof.
  unfold create_user.
  starts_with ltac:(first [ apply update_balance_starts
                          | apply add_transaction_starts ]).
Qed.

Lemma cmd_start_keeps now uid name args : keeps R (cmd_start now uid name args).
Proof. unfold cmd_start. starts_with ltac:(apply create_user_keeps). Qed.

Lemma update_user_sponsor_status_keeps now uid sid sub :
  keeps R (update_user_sponsor_status now uid sid sub).
Proof. unfold update_user_sponsor_status. starts_with fail. Qed.

Lemma mark_subscribed_keeps now uid sps : keeps R (mark_subscribed now uid sps).
Proof.
  induction sps as [|sp sps IH]; cbn [mark_subscribed].
  - apply (keeps_ret R).
  - apply (keeps_bind R); [apply update_user_sponsor_status_keeps|by intros ?].
Qed.

Lemma handle_check_subscriptions_keeps now uid author :
  keeps R (handle_check_subscriptions now uid author).
Proof.
  unfold handle_check_subscriptions.
  starts_with ltac:(apply mark_subscribed_keeps).
Qed.
End Starts.

(** X21. Nothing recorded is ever lost.  Whatever storage calls fail,
    every handler ([/start] and the subscription button included) only
    appends to [transactions] and [withdrawals], queues new withdrawals
    as [pending], leaves the sponsor list alone and removes no account
    and no subscription row. *)
Theorem nothing_recorded_is_lost now uid name args author fsm text data :
  keeps grown (cmd_start now uid name args) ∧
  keeps grown (handle_check_subscriptions now uid author) ∧
  keeps grown (handle_click now uid) ∧
  keeps grown (handle_bet_input now uid fsm text) ∧
  keeps grown (handle_crash_play now uid data) ∧
  keeps grown (handle_slot_play now uid data) ∧
  keeps grown (handle_dice_bet now uid fsm text) ∧
  keeps grown (handle_jackpot_play now uid data) ∧
  keeps grown (handle_withdraw now uid data).
Proof.
  split_and!;
    [ apply cmd_start_keeps | apply handle_check_subscriptions_keeps
    | apply handle_click_keeps | apply handle_bet_input_keeps
    | apply handle_crash_play_keeps | apply handle_slot_play_keeps
    | apply handle_dice_bet_keeps | apply handle_jackpot_play_keeps
    | apply handle_withdraw_keeps ];
    first [ apply _ | intros; apply grown_update | apply grown_transaction
          | apply grown_upsert | apply grown_subscription
          | apply grown_withdrawal ].
Qed.

(** ** A round or a withdrawal concerns the player alone *)

#[local] Instance confined_preorder uid : PreOrder (confined uid).
Proof.
  split.
  - intros s. split; [done|]. split; [exists []; by rewrite app_nil_r|].
    split; [exists []; by rewrite app_nil_r|]. done.
  - intros s1 s2 s3 (Hu1 & (l1 & Ht1 & Hp1) & (m1 & Hw1 & Hq1) & Hs1 & Hk1)
      (Hu2 & (l2 & Ht2 & Hp2) & (m2 & Hw2 & Hq2) & Hs2 & Hk2).
    split; [intros v Hv; by rewrite Hu2, Hu1|].
    split.
    { exists (l1 ++ l2). split; [by rewrite Ht2, Ht1, app_assoc|].
      by apply Forall_app. }
    split.
    { exists (m1 ++ m2). split; [by rewrite Hw2, Hw1, app_assoc|].
      by apply Forall_app. }
    split; congruence.
Qed.

Lemma confined_update uid f s : confined uid s (snd (q_update_user uid f s)).
Proof.
  unfold q_update_user. destruct (users s !! uid) as [u|] eqn:E; [|reflexivity].
  split; [intros v Hv; cbn; by rewrite lookup_insert_ne|].
  split; [exists []; by rewrite app_nil_r|].
  split; [exists []; by rewrite app_nil_r|]. done.
Qed.

Lemma confined_transaction uid amount type d now s :
  confined uid s (snd (q_insert_transaction (TxRow uid amount type d now) s)).
Proof.
  split; [done|]. split; [eexists [_]; split; [done|by repeat constructor]|].
  split; [exists []; by rewrite app_nil_r|]. done.
Qed.

Lemma confined_withdrawal uid now a s :
  confined uid s (snd (q_insert_withdrawal now uid a s)).
Proof.
  split; [done|]. split; [exists []; by rewrite app_nil_r|].
  split; [eexists [_]; split; [done|by repeat constructor]|]. done.
Qed.

Section Own.
Variable uid : Z.

Local Abbreviation R := (confined uid).

Local Ltac own_with known :=
  repeat first
    [ known
    | apply (reads_keep R);
      first [ apply get_user_reads | apply get_user_referrals_reads
            | apply check_subscriptions_reads ]
    | apply (keeps_ret R)
    | apply (keeps_raise R)
    | apply (keeps_lift_rand R)
    | apply keeps_try
    | apply (keeps_bind R); [|intros ?]
    | apply (keeps_execute R); intros ?;
      first [ apply confined_update | apply confined_transaction
            | apply confined_withdrawal ]
    | match goal with
      | |- keeps _ (match ?x with _ => _ end) => destruct x
      | |- keeps _ (if ?b then _ else _) => destruct b
      | |- keeps _ (let '(_, _) := ?x in _) => destruct x
      end ].

Lemma update_balance_own amount : keeps R (update_balance uid amount).
Proof. unfold update_balance. own_with fail. Qed.

Lemma update_game_stats_own wagered won :
  keeps R (update_game_stats uid wagered won).
Proof. unfold update_game_stats. own_with fail. Qed.

Lemma add_transaction_own now amount type description :
  keeps R (add_transaction now uid amount type description).
Proof. unfold add_transaction. own_with fail. Qed.

Lemma create_withdrawal_own now amount :
  keeps R (create_withdrawal now uid amount).
Proof. unfold create_withdrawal. own_with fail. Qed.

Lemma settle_round_own now gm bet win amount descr :
  keeps R descr → keeps R (settle_round now uid gm bet win amount descr).
Proof.
  intros Hd. unfold settle_round.
  own_with ltac:(first [ assumption | apply update_balance_own
                       | apply add_transaction_own
                       | apply update_game_stats_own ]).
Qed.

Lemma ratio_descr_own gm amount bet : keeps R (ratio_descr gm amount bet).
Proof. unfold ratio_descr. own_with fail. Qed.

Local Ltac own_handler :=
  own_with ltac:(first [ apply update_balance_own
                       | apply update_game_stats_own
                       | apply add_transaction_own
                       | apply create_withdrawal_own
                       | apply ratio_descr_own
                       | apply settle_round_own ]).

Lemma handle_bet_input_own now data text :
  keeps R (handle_bet_input now uid data text).
Proof. unfold handle_bet_input, balance_of. own_handler. Qed.

Lemma handle_crash_play_own now data : keeps R (handle_crash_play now uid data).
Proof. unfold handle_crash_play, balance_of. own_handler. Qed.

Lemma handle_slot_play_own now data : keeps R (handle_slot_play now uid data).
Proof. unfold handle_slot_play, balance_of. own_handler. Qed.

Lemma handle_dice_bet_own now data text :
  keeps R (handle_dice_bet now uid data text).
Proof. unfold handle_dice_bet, balance_of. own_handler. Qed.

Lemma handle_jackpot_play_own now data :
  keeps R (handle_jackpot_play now uid data).
Proof. unfold handle_jackpot_play, balance_of. own_handler. Qed.

Lemma handle_withdraw_own now data : keeps R (handle_withdraw now uid data).
Proof. unfold handle_withdraw. own_handler. Qed.
End Own.

(** X22. A game round and a withdrawal request concern the player
    alone.  Whatever storage calls fail, the flip, crash, slot, dice and
    jackpot rounds and the withdrawal request of a player leave the rows
    of all other accounts as they were, record transactions and
    withdrawals under the player's id only, and touch neither sponsors
    nor subscriptions. *)
Theorem round_concerns_player_alone now uid fsm text data :
  keeps (confined uid) (handle_bet_input now uid fsm text) ∧
  keeps (confined uid) (handle_crash_play now uid data) ∧
  keeps (confined uid) (handle_slot_play now uid data) ∧
  keeps (confined uid) (handle_dice_bet now uid fsm text) ∧
  keeps (confined uid) (handle_jackpot_play now uid data) ∧
  keeps (confined uid) (handle_withdraw now uid data).
Proof.
  split_and!;
    [ apply handle_bet_input_own | apply handle_crash_play_own
    | apply handle_slot_play_own | apply handle_dice_bet_own
    | apply handle_jackpot_play_own | apply handle_withdraw_own ].
Qed.

(** ** Reading under storage failures *)

Lemma nonempty_sum (l : list Q) :
  (if nonempty l then sum_amounts l else 0%Q) = sum_amounts l.
Proof. by destruct l. Qed.

(** X23. The statistics are all or nothing.  [get_stats] makes four
    queries; if none of them fails it returns the number of accounts,
    the sums of the balances and of the wagered amounts and the number
    of pending withdrawals; if any of them fails it returns zeros for
    all four, whatever the earlier queries had read.  It never
    raises. *)
Theorem get_stats_all_or_nothing s fs g :
  ∃ st fs', get_stats (World s fs g) = (Some st, World s fs' g) ∧
    ((∀ i, (i < 4)%nat → fs !! i ≠ Some true) → st = stats_of s) ∧
    ((∃ i, (i < 4)%nat ∧ fs !! i = Some true) → st = zero_stats).
Proof.
  assert (Hnone : ∀ l : list bool, (∀ i, (i < 4)%nat → l !! i ≠ Some true) →
                  ∀ i, (i < 4)%nat → l !! i = Some true → False)
    by (intros l H i Hi; exact (H i Hi)).
  unfold get_stats, try_, bind, execute, ret, stats_of.
  destruct fs as [|[] fs]; cbn.
  2:{ eexists _, _. split; [done|]. split; [|done].
      intros H. destruct (H 0%nat); [lia|done]. }
  all: rewrite ?nonempty_sum.
  - eexists _, _. split; [done|]. split; [done|].
    intros (i & _ & Hi). by destruct i.
  - destruct fs as [|[] fs]; cbn; rewrite ?nonempty_sum.
    2:{ eexists _, _. split; [done|]. split; [|done].
        intros H. destruct (H 1%nat); [lia|done]. }
    + eexists _, _. split; [done|]. split; [done|].
      intros (i & _ & Hi). by destruct i as [|[|]].
    + destruct fs as [|[] fs]; cbn; rewrite ?nonempty_sum.
      2:{ eexists _, _. split; [done|]. split; [|done].
          intros H. destruct (H 2%nat); [lia|done]. }
      * eexists _, _. split; [done|]. split; [done|].
        intros (i & _ & Hi). by destruct i as [|[|[|]]].
      * destruct fs as [|[] fs]; cbn.
        2:{ eexists _, _. split; [done|]. split; [|done].
            intros H. destruct (H 3%nat); [lia|done]. }
        -- eexists _, _. split; [done|]. split; [done|].
           intros (i & _ & Hi). by destruct i as [|[|[|[|]]]].
        -- eexists _, _. split; [done|]. split; [done|].
           intros (i & Hlt & Hi). destruct i as [|[|[|[|]]]]; try done. lia.
Qed.

Lemma get_user_any uid w :
  ∃ o w', get_user uid w = (Some o, w') ∧ store w' = store w ∧
          (o = None ∨ o = users (store w) !! uid).
Proof.
  destruct w as [s fs g]. unfold get_user, try_, bind, execute, q_select_user.
  destruct fs as [|[] fs]; cbn;
    (destruct (users s !! uid) eqn:E; cbn; eexists _, _;
     (split; [done|]); (split; [done|]); rewrite ?E; auto).
Qed.

Lemma get_user_sponsors_status_any uid w :
  ∃ l w', get_user_sponsors_status uid w = (Some l, w') ∧ store w' = store w ∧
          (l = [] ∨ l = sponsors_status (store w) uid).
Proof.
  destruct w as [s fs g].
  unfold get_user_sponsors_status, get_sponsors, try_, bind, execute, ret,
    q_select_sponsors, sponsors_status.
  destruct fs as [|[] fs]; cbn.
  - destruct (sponsors s); cbn; eexists _, _; auto.
  - eexists _, _; auto.
  - destruct (sponsors s); cbn; [eexists _, _; by auto|].
    destruct fs as [|[] fs]; cbn; eexists _, _; auto.
Qed.

Lemma count_active_any refs : ∀ active w,
  ∃ n w', count_active refs active w = (Some n, w') ∧ store w' = store w ∧
          (active <= n)%nat ∧
          (n <= active + length (filter (λ r, is_active (store w) r = true) refs))%nat.
Proof.
  induction refs as [|r rest IH]; intros active w.
  - eexists _, _. split; [done|]. split; [done|]. cbn. lia.
  - cbn [count_active]. unfold bind at 1.
    destruct (get_user_sponsors_status_any r w) as (l & w1 & -> & Hs & Hl).
    cbv beta iota.
    destruct (IH (if existsb snd l then S active else active) w1)
      as (n & w2 & -> & Hs2 & Hlo & Hhi).
    eexists _, _. split; [done|]. split; [congruence|].
    rewrite Hs in Hhi. rewrite filter_cons.
    destruct Hl as [-> | ->].
    + cbn in *. split; [lia|]. case_decide; cbn; lia.
    + fold (is_active (store w) r) in *.
      destruct (is_active (store w) r) eqn:E; case_decide; try done; cbn; lia.
Qed.

Lemma get_user_referrals_any uid w :
  ∃ t a w', get_user_referrals uid w = (Some (t, a), w') ∧ store w' = store w ∧
            (a <= active_referrals (store w) uid)%nat ∧
            (t <= length (referrals (store w) uid))%nat ∧
            (a <= t)%nat.
Proof.
  unfold get_user_referrals, try_. unfold bind at 1.
  destruct w as [s fs g]. unfold execute at 1.
  assert (Hzero : ∃ t a w', (Some (0%nat, 0%nat), World s (tail fs) g) =
                    (Some (t, a), w') ∧ store w' = store (World s fs g) ∧
                    (a <= active_referrals s uid)%nat ∧
                    (t <= length (referrals s uid))%nat ∧ (a <= t)%nat)
    by (eexists _, _, _; split; [done|]; split; [done|]; cbn; lia).
  assert (Hcount : ∀ fs', ∃ t a w',
             (let (o, w') := bind (count_active (referrals s uid) 0)
                               (λ active, ret (length (referrals s uid), active))
                               (World s fs' g) in
              match o with Some a => (Some a, w') | None => (Some (0%nat, 0%nat), w') end) =
               (Some (t, a), w') ∧ store w' = s ∧
               (a <= active_referrals s uid)%nat ∧
               (t <= length (referrals s uid))%nat ∧ (a <= t)%nat).
  { intros fs'. unfold bind.
    destruct (count_active_any (referrals s uid) 0 (World s fs' g))
      as (n & w2 & -> & Hs2 & Hlo & Hhi).
    cbn in *. eexists _, _, _. split; [done|]. split; [done|].
    unfold active_referrals. split; [done|]. split; [done|].
    etrans; [exact Hhi|]. apply length_filter. }
  destruct fs as [|[] fs]; cbn [faults store]; cbv beta iota.
  - apply Hcount.
  - apply Hzero.
  - apply Hcount.
Qed.

(** X24. The referral counts fail closed.  Whatever storage calls fail,
    [get_user_referrals] answers, writes nothing, and never reports
    more referrals or more active referrals than the database holds;
    the active count never exceeds the total. *)
Theorem referral_counts_fail_closed uid w :
  ∃ total active,
    fst (get_user_referrals uid w) = Some (total, active) ∧
    store (snd (get_user_referrals uid w)) = store w ∧
    (total <= length (referrals (store w) uid))%nat ∧
    (active <= active_referrals (store w) uid)%nat ∧
    (active <= total)%nat.
Proof.
  destruct (get_user_referrals_any uid w) as (t & a & w' & -> & Hs & Ha & Ht & Hat).
  by exists t, a.
Qed.

(** X25. Storage failures never open the withdrawal gate.  Whatever
    storage calls fail, a withdrawal request that adds a row to
    [withdrawals] was made by an account whose stored balance covers
    the amount and which really has at least three active referrals. *)
Theorem withdrawal_gate_under_failures now uid amount w :
  let out := handle_withdraw now uid (Some amount) w in
  withdrawals (store (snd out)) ≠ withdrawals (store w) →
  ∃ u, users (store w) !! uid = Some u ∧
       (amount <= balance u)%Q ∧
       (3 <= active_referrals (store w) uid)%nat.
Proof.
  cbv zeta. unfold handle_withdraw. unfold bind at 1.
  destruct (get_user_any uid w) as (o & w1 & -> & Hs1 & Ho). cbv beta iota.
  destruct o as [u|]; [|by unfold ret; cbn; rewrite Hs1].
  destruct Ho as [Ho|Ho]; [done|].
  destruct (Qltb (balance u) amount) eqn:Ebal;
    [by unfold ret; cbn; rewrite Hs1|].
  unfold bind at 1.
  destruct (get_user_referrals_any uid w1)
    as (t & a & w2 & -> & Hs2 & Ha & _). cbv beta iota.
  destruct (a <? 3)%nat eqn:Eact;
    [by unfold ret; cbn; rewrite Hs2, Hs1|].
  intros _. exists u. split; [done|]. split; [by apply Qltb_ge|].
  apply Nat.ltb_ge in Eact. rewrite Hs1 in Ha. lia.
Qed.

Lemma withdrawal_gate_under_failures_witness :
  withdrawals (store (snd (handle_withdraw 200 1 (Some (20 # 1))
                             (World funded (replicate 9 false ++ [true]) calm)))) ≠
    withdrawals funded ∧
  ∃ u, users funded !! 1 = Some u ∧ (20 # 1 <= balance u)%Q ∧
       (3 <= active_referrals funded 1)%nat.
Proof.
  assert (H : withdrawals (store (snd (handle_withdraw 200 1 (Some (20 # 1))
                (World funded (replicate 9 false ++ [true]) calm)))) ≠ withdrawals funded)
    by (vm_compute; discriminate).
  exact (conj H (withdrawal_gate_under_failures 200 1 (20 # 1)
                   (World funded (replicate 9 false ++ [true]) calm) H)).
Defined.

(** ** [/start] without a bonus, and [/start] when the upsert fails *)

Lemma show_main_menu_ok s g uid :
  show_main_menu uid (World s [] g) =
  (Some (SayMainMenu (match users s !! uid with
                      | Some u => balance u | None => 0%Q end)),
   World s [] g).
Proof. unfold show_main_menu, bind. by rewrite get_user_ok. Qed.

Lemma start_screen_ok s g uid :
  bind (check_subscriptions uid)
       (fun ok => if ok then show_main_menu uid else show_sponsors_message uid)
       (World s [] g) =
  (Some (if forallb snd (sponsors_status s uid)
         then SayMainMenu (match users s !! uid with
                           | Some u => balance u | None => 0%Q end)
         else SaySponsors (sponsors s)),
   World s [] g).
Proof.
  unfold bind at 1. rewrite check_subscriptions_ok. cbv beta iota.
  destruct (forallb snd (sponsors_status s uid)) eqn:E;
    [apply show_main_menu_ok|].
  unfold show_sponsors_message, bind. rewrite get_sponsors_ok.
  unfold sponsors_status in E. by destruct (sponsors s).
Qed.

(** X26. [/start] without a bonus.  When the link is absent, is not a
    number, names the sender, is 0, or names an id that has no account,
    and no storage call fails: the sender's row is written as a fresh
    one (balance 0, no click, no games) whose referrer is the id of the
    link, or none for an absent, malformed or own link; no transaction
    is recorded and no other row changes.  The answer is the main menu
    with balance 0 if the sender is subscribed to every sponsor, the
    sponsor list otherwise. *)
Theorem start_without_bonus s g now uid name args :
  (∀ r, args = IntArgs r → r = uid ∨ r = 0 ∨ users s !! r = None) →
  let out := run (cmd_start now uid name args) s g in
  let s' := store (snd out) in
  users s' =
    <[uid := UserRow uid (default_username uid name) (parsed_referrer uid args)
               now 0 None 0 0 0]> (users s) ∧
  transactions s' = transactions s ∧
  withdrawals s' = withdrawals s ∧
  sponsors s' = sponsors s ∧
  user_sponsors s' = user_sponsors s ∧
  (subscribed_to_all s uid → fst out = Some (SayMainMenu 0)) ∧
  (¬ subscribed_to_all s uid → fst out = Some (SaySponsors (sponsors s))).
Proof.
  intros Hargs.
  set (row := UserRow uid (default_username uid name) (parsed_referrer uid args)
                now 0 None 0 0 0).
  assert (Hcreate : run (create_user now uid name (parsed_referrer uid args)) s g =
                    (Some true, World (put_user uid row s) [] g)).
  { destruct (truthy (parsed_referrer uid args)) eqn:Et.
    - destruct args as [| |r]; try done. cbn in Et |- *. subst row. cbn.
      destruct (Z.eqb_spec r uid) as [->|Hne]; [done|].
      cbn in Et. apply negb_true_iff, Z.eqb_neq in Et.
      destruct (Hargs r eq_refl) as [?|[?|Hnone]]; try done.
      rewrite (create_user_referred s g now r uid name Et Hne). cbv zeta.
      by rewrite Hnone.
    - by apply create_user_plain. }
  assert (Hout : run (cmd_start now uid name args) s g =
                 (Some (if forallb snd (sponsors_status (put_user uid row s) uid)
                        then SayMainMenu 0
                        else SaySponsors (sponsors s)),
                  World (put_user uid row s) [] g)).
  { unfold run, cmd_start. fold (parsed_referrer uid args). cbv zeta.
    unfold bind at 1. unfold run in Hcreate. rewrite Hcreate. cbv beta iota.
    rewrite start_screen_ok. by rewrite users_put_user. }
  intros out s'. subst s' out. rewrite Hout. cbn [fst snd store].
  split; [done|]. split; [done|]. split; [done|]. split; [done|].
  split; [done|].
  assert (Hiff : forallb snd (sponsors_status (put_user uid row s) uid) = true ↔
                 subscribed_to_all s uid).
  { rewrite forallb_sponsors_status. split; by apply subscribed_to_all_same. }
  split.
  - intros Hsub. by rewrite (proj2 Hiff Hsub).
  - intros Hsub. destruct (forallb _ _); [|done].
    destruct Hsub. by apply Hiff.
Qed.

Lemma start_without_bonus_witness :
  (∀ r, IntArgs 2 = IntArgs r → r = 2 ∨ r = 0 ∨ users joined !! r = None) ∧
  users (after (cmd_start 500 2 "bob" (IntArgs 2)) joined) !! 2 =
    Some (UserRow 2 "bob" None 500 0 None 0 0 0) ∧
  transactions (after (cmd_start 500 2 "bob" (IntArgs 2)) joined) =
    transactions joined.
Proof.
  assert (H : ∀ r, IntArgs 2 = IntArgs r → r = 2 ∨ r = 0 ∨ users joined !! r = None)
    by (intros r [= <-]; by left).
  destruct (start_without_bonus joined calm 500 2 "bob" (IntArgs 2) H)
    as (Husers & Htx & _).
  refine (conj H (conj _ Htx)).
  unfold after. by rewrite Husers, lookup_insert_eq.
Defined.

Lemma check_subscriptions_any uid w :
  ∃ b w', check_subscriptions uid w = (Some b, w') ∧ store w' = store w.
Proof.
  unfold check_subscriptions, try_, bind.
  destruct (get_user_sponsors_status_any uid w) as (l & w1 & -> & Hs & _).
  destruct (nonempty l); eexists _, _; by split.
Qed.

Lemma show_main_menu_any uid w :
  ∃ r w', show_main_menu uid w = (Some r, w') ∧ store w' = store w.
Proof.
  unfold show_main_menu, bind.
  destruct (get_user_any uid w) as (o & w1 & -> & Hs & _).
  eexists _, _; by split.
Qed.

(** X27. A [/start] whose upsert fails creates nothing but still
    answers.  If the first storage call of [create_user] raises, it
    returns [False] having written nothing and paid no bonus; [cmd_start]
    ignores that result and, whatever else fails, answers with the menu
    or the sponsor list, and the database is as it was. *)
Theorem start_with_failed_upsert s fs g now uid name args :
  create_user now uid name (parsed_referrer uid args) (World s (true :: fs) g) =
    (Some false, World s fs g) ∧
  ∃ r w', cmd_start now uid name args (World s (true :: fs) g) = (Some r, w') ∧
          store w' = s ∧
          ((∃ b, r = SayMainMenu b) ∨ r = SaySponsors (sponsors s)).
Proof.
  assert (Hcreate : create_user now uid name (parsed_referrer uid args)
                      (World s (true :: fs) g) = (Some false, World s fs g))
    by reflexivity.
  split; [exact Hcreate|].
  unfold cmd_start. fold (parsed_referrer uid args). cbv zeta.
  unfold bind at 1. rewrite Hcreate. cbv beta iota. unfold bind at 1.
  destruct (check_subscriptions_any uid (World s fs g)) as (b & w1 & -> & Hs1).
  cbv beta iota. cbn [store] in Hs1. destruct b.
  - destruct (show_main_menu_any uid w1) as (r & w2 & E & Hs2).
    exists r, w2. split; [done|]. split; [congruence|]. left.
    unfold show_main_menu, bind in E.
    destruct (get_user uid w1) as [[o|] w3]; [|done].
    injection E as <- _. by eexists.
  - unfold show_sponsors_message, bind.
    pose proof (get_sponsors_reads w1) as Hsp.
    assert (Hl : ∃ l w3, get_sponsors w1 = (Some l, w3) ∧
                         (l = [] ∨ l = sponsors s)).
    { destruct w1 as [s1 fs1 g1]. cbn in Hs1. subst s1.
      unfold get_sponsors, try_, execute, q_select_sponsors.
      destruct fs1 as [|[] fs1]; cbn; eexists _, _; auto. }
    destruct Hl as (l & w3 & El & Hl). rewrite El in Hsp |- *.
    cbn [snd] in Hsp. cbv beta iota.
    destruct l as [|sp l]; cbn [nonempty].
    + destruct (show_main_menu_any uid w3) as (r & w2 & E & Hs2).
      exists r, w2. split; [done|]. split; [congruence|]. left.
      unfold show_main_menu, bind in E.
      destruct (get_user uid w3) as [[o|] w4]; [|done].
      injection E as <- _. by eexists.
    + destruct Hl as [?|Hl]; [done|]. eexists _, _. split; [done|].
      split; [congruence|]. right. by rewrite Hl.
Qed.

(** ** Conservation at a concrete database *)

Lemma funded_conserved : ∀ a, conserved a funded.
Proof.
  intros a u Hu. unfold funded in Hu. cbn [users] in Hu.
  rewrite !list_to_map_cons, list_to_map_nil in Hu.
  repeat (apply lookup_insert_Some in Hu as [[<- <-]|[? Hu]];
          [vm_compute; reflexivity|]).
  by rewrite lookup_empty in Hu.
Qed.

Lemma conservation_outside_start_witness :
  (∀ a, conserved a funded) ∧
  conserved 2 (store (snd (run (handle_click 5000 2) funded calm))) ∧
  conserved 1 (store (snd (run (handle_withdraw 5000 1 (Some (20 # 1))) funded calm))).
Proof.
  destruct (conservation_outside_start 5000 2 heads_on_flip None None funded calm
              funded_conserved 2) as (Hclick & _).
  destruct (conservation_outside_start 5000 1 heads_on_flip None (Some (20 # 1))
              funded calm funded_conserved 1) as (_ & _ & _ & _ & _ & _ & Hwd).
  exact (conj funded_conserved (conj Hclick Hwd)).
Defined.

Lemma first_contact_conserves_witness :
  users funded !! 9 = None ∧
  tx_of 9 (transactions funded) = [] ∧
  Some 1 ≠ Some 9 ∧
  (∀ a, conserved a funded) ∧
  conserved 1 (store (snd (run (create_user 300 9 "eve" (Some 1)) funded calm))) ∧
  conserved 9 (store (snd (run (create_user 300 9 "eve" (Some 1)) funded calm))).
Proof.
  assert (H1 : users funded !! 9 = None) by (vm_compute; reflexivity).
  assert (H2 : tx_of 9 (transactions funded) = []) by (vm_compute; reflexivity).
  assert (H3 : Some 1 ≠ Some 9) by discriminate.
  pose proof (first_contact_conserves funded calm 300 9 "eve" (Some 1)
                H1 H2 H3 funded_conserved) as H.
  exact (conj H1 (conj H2 (conj H3 (conj funded_conserved (conj (H 1) (H 9)))))).
Defined.
